(** * jtagulator: brute-force identification of JTAG pins

    A shallow embedding of [jtagulator/jtagulator.py]: the candidate
    enumerator [_product], the bit clocker [_io_values], the TAP
    macro-sequences, the BYPASS and IDCODE tests and the two searches of
    class [Jtagulator], with the properties of the pin-identification
    engine proved over the embedding.

    Python exceptions are values of [result]; the module-level globals
    [TMS], [TDI], [TCK], [TDO], the board behind [pyb], and the log sink
    are fields of an explicit [state] threaded by the monad [M]. *)

From Stdlib Require Import ZArith Ascii String Lia Factorial.
From stdpp Require Import base option list strings gmap pretty.

Local Open Scope string_scope.
Local Open Scope nat_scope.

(** ** Exceptions *)

Inductive exn : Type :=
| IndexError
| ZeroDivisionError
| ValueError
| AttributeError
| TypeError.

Inductive result (A : Type) : Type :=
| Ok (a : A)
| Raise (e : exn).
Arguments Ok {A} a.
Arguments Raise {A} e.

Module Res.
Definition bind {A B} (r : result A) (f : A -> result B) : result B :=
  match r with
  | Ok a => f a
  | Raise e => Raise e
  end.

Fixpoint mapM {A B} (f : A -> result B) (l : list A) : result (list B) :=
  match l with
  | [] => Ok []
  | x :: l' => bind (f x) (fun y => bind (mapM f l') (fun ys => Ok (y :: ys)))
  end.

Fixpoint foldM {A B} (f : B -> A -> result B) (b : B) (l : list A) : result B :=
  match l with
  | [] => Ok b
  | x :: l' => bind (f b x) (fun b' => foldM f b' l')
  end.
End Res.

Declare Scope res_scope.
Delimit Scope res_scope with res.
Notation "x <- c ;; k" := (Res.bind c (fun x => k))
  (at level 100, c at next level, right associativity) : res_scope.

(** ** Python primitives used by the module *)

(** [k % n] on non-negative integers. *)
Definition py_mod (k n : nat) : result nat :=
  if decide (n = 0) then Raise ZeroDivisionError else Ok (k mod n).

(** [k // n] on non-negative integers. *)
Definition py_floordiv (k n : nat) : result nat :=
  if decide (n = 0) then Raise ZeroDivisionError else Ok (k / n).

(** Position addressed by the (possibly negative) subscript [i] in a
    sequence of length [len]. *)
Definition py_index (len : nat) (i : Z) : result nat :=
  let j := if decide (i < 0)%Z then (i + Z.of_nat len)%Z else i in
  if decide (0 <= j < Z.of_nat len)%Z then Ok (Z.to_nat j) else Raise IndexError.

(** [l[i]] *)
Definition py_getitem {A} (l : list A) (i : Z) : result A :=
  (j <- py_index (length l) i ;;
   match l !! j with
   | Some x => Ok x
   | None => Raise IndexError
   end)%res.

(** [l[i] = x] *)
Definition py_setitem {A} (l : list A) (i : Z) (x : A) : result (list A) :=
  (j <- py_index (length l) i ;; Ok (<[j := x]> l))%res.

(** ** Candidate enumerator *)

Section Product.
Context {A : Type}.

(** One turn of the loop [for k in range(total)] of [_product]:
    the tuple yielded for counter [k].  A slot of [v] holds [None]
    until it is assigned. *)
Definition _product_yield (items : list A) (repeat k : nat)
  : result (list (option A)) :=
  (let n := length items in
   i_0 <- py_mod k n ;;
   let v := replicate repeat (@None A) in
   x <- py_getitem items (Z.of_nat i_0) ;;
   v <- py_setitem v (Z.of_nat repeat - 1) (Some x) ;;
   v <- Res.foldM
          (fun v s =>
             let ns := n ^ s in
             q <- py_floordiv k ns ;;
             i_s <- py_mod q n ;;
             x <- py_getitem items (Z.of_nat i_s) ;;
             py_setitem v (Z.of_nat repeat - Z.of_nat s - 1) (Some x))
          v (seq 1 (repeat - 1)) ;;
   Ok v)%res.

(** [_product(items, repeat)], consumed to the end. *)
Definition _product (items : list A) (repeat : nat)
  : result (list (list (option A))) :=
  let n := length items in
  let total := n ^ repeat in
  Res.mapM (_product_yield items repeat) (seq 0 total).

(** The Cartesian power in counting order, rightmost position
    innermost: nested loops over the pool, one per position. *)
Fixpoint cartesian (pool : list A) (k : nat) : list (list A) :=
  match k with
  | 0 => [[]]
  | S k' => x ← pool; (fun t => x :: t) <$> cartesian pool k'
  end.

(** Closed form of the tuple for counter [k]: slot [j] holds the item
    selected by digit [repeat - 1 - j] of [k] in base [len(items)]. *)
Definition digit_tuple (items : list A) (repeat k : nat) : list (option A) :=
  map (fun j => items !! ((k / length items ^ (repeat - 1 - j)) mod length items))
      (seq 0 repeat).
End Product.

(** Number of [k]-permutations of [n] objects: [n (n-1) ... (n-k+1)]. *)
Fixpoint falling (n k : nat) : nat :=
  match k with
  | 0 => 1
  | S k' => n * falling (n - 1) k'
  end.

(** ** The board behind [pyb] *)

Inductive pin_mode : Type := OUT_PP | IN.

(** What the engine consumes from the MicroPython port: pin
    configuration (which the port may refuse), level writes, level reads
    and the delay primitive, over an unspecified state of the outside
    world (board and target). *)
Class Board : Type := {
  PinId : Type;
  PinId_eq_dec :: EqDecision PinId;
  World : Type;
  board_init : PinId -> pin_mode -> World -> option World;
  board_write : PinId -> bool -> World -> World;
  board_read : PinId -> World -> bool;
  board_delay : nat -> World -> World
}.

Section Jtagulator.
Context `{board : Board}.

(** Line-level events, in the order the module causes them. *)
Inductive event : Type :=
| EvInit (p : PinId) (m : pin_mode)
| EvWrite (p : PinId) (level : bool)
| EvRead (p : PinId) (level : bool)
| EvDelay (ms : nat).

(** An argument of a [%] format: a pool entry or a string. *)
Inductive fmt_arg : Type :=
| ArgPin (id : option PinId)
| ArgStr (s : string).

(** One call [log.info(fmt % args)], kept as the format and its
    arguments.  The log sink is taken at this call; what the logger
    does with the message for its level is not part of the engine. *)
Inductive log_record : Type :=
| LogInfo (fmt : string) (args : list fmt_arg).

(** The module globals, the outside world, and what has been
    observed so far. *)
Record state : Type := mkState {
  TMS : option PinId;
  TDI : option PinId;
  TCK : option PinId;
  TDO : option PinId;
  world : World;
  trace : list event;
  log : list log_record
}.

Definition M (A : Type) : Type := state -> result A * state.

Definition ret {A} (a : A) : M A := fun s => (Ok a, s).

Definition bind {A B} (m : M A) (f : A -> M B) : M B :=
  fun s =>
    match m s with
    | (Ok a, s') => f a s'
    | (Raise e, s') => (Raise e, s')
    end.

Definition lift {A} (r : result A) : M A := fun s => (r, s).

Definition gets {A} (f : state -> A) : M A := fun s => (Ok (f s), s).

Definition modify (f : state -> state) : M unit := fun s => (Ok tt, f s).

Fixpoint mapM {A B} (f : A -> M B) (l : list A) : M (list B) :=
  match l with
  | [] => ret []
  | x :: l' => bind (f x) (fun y => bind (mapM f l') (fun ys => ret (y :: ys)))
  end.

Fixpoint for_each {A} (l : list A) (body : A -> M unit) : M unit :=
  match l with
  | [] => ret tt
  | x :: l' => bind (body x) (fun _ => for_each l' body)
  end.
End Jtagulator.

Declare Scope py_scope.
Delimit Scope py_scope with py.
Notation "x <- c ;; k" := (bind c (fun x => k))
  (at level 100, c at next level, right associativity) : py_scope.
Notation "c ;;; k" := (bind c (fun _ => k))
  (at level 100, right associativity) : py_scope.

Section Driver.
Context `{board : Board}.
Local Open Scope py_scope.

Definition set_world (w : World) (s : state) : state :=
  mkState (TMS s) (TDI s) (TCK s) (TDO s) w (trace s) (log s).
Definition emit (evs : list event) (s : state) : state :=
  mkState (TMS s) (TDI s) (TCK s) (TDO s) (world s) (trace s ++ evs) (log s).
Definition set_TMS (p : option PinId) (s : state) : state :=
  mkState p (TDI s) (TCK s) (TDO s) (world s) (trace s) (log s).
Definition set_TDI (p : option PinId) (s : state) : state :=
  mkState (TMS s) p (TCK s) (TDO s) (world s) (trace s) (log s).
Definition set_TCK (p : option PinId) (s : state) : state :=
  mkState (TMS s) (TDI s) p (TDO s) (world s) (trace s) (log s).
Definition set_TDO (p : option PinId) (s : state) : state :=
  mkState (TMS s) (TDI s) (TCK s) p (world s) (trace s) (log s).
Definition add_log (r : log_record) (s : state) : state :=
  mkState (TMS s) (TDI s) (TCK s) (TDO s) (world s) (trace s) (log s ++ [r]).

(** [pyb.Pin(id, mode)]: configures the pin and returns its handle;
    [ValueError] when the port refuses. *)
Definition pyb_Pin (id : option PinId) (mode : pin_mode) : M PinId :=
  fun s =>
    match id with
    | None => (Raise ValueError, s)
    | Some p =>
        match board_init p mode (world s) with
        | None => (Raise ValueError, s)
        | Some w => (Ok p, emit [EvInit p mode] (set_world w s))
        end
    end.

(** [pin.value(x)] on a global that may still be [None]. *)
Definition pin_set (pin : option PinId) (level : bool) : M unit :=
  fun s =>
    match pin with
    | None => (Raise AttributeError, s)
    | Some p =>
        (Ok tt, emit [EvWrite p level] (set_world (board_write p level (world s)) s))
    end.

(** [pin.value()] *)
Definition pin_get (pin : option PinId) : M bool :=
  fun s =>
    match pin with
    | None => (Raise AttributeError, s)
    | Some p =>
        let v := board_read p (world s) in
        (Ok v, emit [EvRead p v] s)
    end.

(** [pyb.delay(ms)] *)
Definition pyb_delay (ms : nat) : M unit :=
  modify (fun s => emit [EvDelay ms] (set_world (board_delay ms (world s)) s)).

(** Truth value of an integer handed to [pin.value]. *)
Definition py_truth (x : nat) : bool := negb (x =? 0).

(** [int(c)] for a one-character string. *)
Definition py_int (c : ascii) : result nat :=
  let n := nat_of_ascii c in
  if decide (48 <= n <= 57) then Ok (n - 48) else Raise ValueError.

(** [str(b)] for a level read from a pin (the integer 0 or 1). *)
Definition py_str (b : bool) : string := if b then "1" else "0".

(** [s * n] for a string [s]. *)
Definition py_str_mul (s : string) (n : Z) : string :=
  Nat.iter (Z.to_nat n) (String.append s) "".

(** [''.join(cs)] for a sequence [cs] of one-character strings. *)
Definition py_join (cs : list ascii) : string :=
  String.concat "" (map (fun c => String c "") cs).

(** [reversed(s)] for a string [s]. *)
Definition py_reversed (s : string) : list ascii :=
  rev (list_ascii_of_string s).

Definition JTAG_PINS_BYPASS_COUNT : nat := 4.
Definition JTAG_PINS_IDCODE_COUNT : nat := 3.
Definition JTAG_BYPASS_PATTERN : string :=
  "01101110011110001111110110111001111000111111".
Definition MAX_IR_LEN : nat := 32.

Definition _io_values (pins : list (option PinId)) (states : list nat) : M bool :=
  let total := length pins in
  tck <- gets TCK ;; pin_set tck false ;;;
  pyb_delay 0 ;;;
  for_each (seq 0 total)
    (fun k =>
       pin <- lift (py_getitem pins (Z.of_nat k)) ;;
       (if pin is None then lift (Raise AttributeError) else ret tt) ;;;
       x <- lift (py_getitem states (Z.of_nat k)) ;;
       pin_set pin (py_truth x)) ;;;
  pyb_delay 0 ;;;
  tck <- gets TCK ;; pin_set tck true ;;;
  pyb_delay 0 ;;;
  tck <- gets TCK ;; pin_set tck false ;;;
  pyb_delay 0 ;;;
  tdo <- gets TDO ;; pin_get tdo.

Definition _io_tms_tdi (tms_values tdi_values : string) : M string :=
  result <- mapM
    (fun '(tms, tdi) =>
       p_tms <- gets TMS ;; p_tdi <- gets TDI ;;
       a <- lift (py_int tms) ;; b <- lift (py_int tdi) ;;
       _io_values [p_tms; p_tdi] [a; b])
    (zip (list_ascii_of_string tms_values) (list_ascii_of_string tdi_values)) ;;
  ret (String.concat "" (map py_str result)).

Definition _io_tms (values : string) : M string :=
  result <- mapM
    (fun value =>
       p_tms <- gets TMS ;;
       a <- lift (py_int value) ;;
       _io_values [p_tms] [a])
    (list_ascii_of_string values) ;;
  ret (String.concat "" (map py_str result)).

Definition _restore_idle : M unit := _io_tms "111110" ;;; ret tt.
Definition _enter_shift_ir : M unit := _io_tms "1100" ;;; ret tt.
Definition _enter_shift_dr : M unit := _io_tms "100" ;;; ret tt.

Definition _shift_array (data : string) : M string :=
  let num := String.length data in
  tdi <- gets TDI ;;
  if tdi is None then _io_tms data
  else _io_tms_tdi (py_str_mul "0" (Z.of_nat num - 1) ++ "1") data.

Definition _send_data (data : string) : M string :=
  _enter_shift_dr ;;;
  result <- _shift_array data ;;
  _io_tms "10" ;;;
  ret result.

Definition _bypass_test (pattern : string) : M string :=
  _restore_idle ;;;
  _enter_shift_ir ;;;
  _io_tms_tdi (py_str_mul "0" (Z.of_nat MAX_IR_LEN))
              (py_str_mul "1" (Z.of_nat MAX_IR_LEN)) ;;;
  _io_tms "110" ;;;
  result <- _send_data pattern ;;
  ret (py_join (list_ascii_of_string result)).

Definition _idcode_test : M string :=
  _restore_idle ;;;
  _enter_shift_dr ;;;
  result <- _shift_array (py_str_mul "0" 32) ;;
  _io_tms "010" ;;;
  ret (py_join (py_reversed result)).

(** [list(filter(lambda item: len(set(item)) == count, combs))] with
    [combs = _product(pins_scope, repeat=count)]. *)
Definition candidates (pins_scope : list PinId) (count : nat)
  : result (list (list (option PinId))) :=
  (combs <- _product pins_scope count ;;
   Ok (filter (fun item => length (remove_dups item) = count) combs))%res.

Definition bypass_fmt : string :=
  "Possible combination is: TMS = %s, TDI = %s, TCK = %s, TDO = %s".
Definition idcode_fmt : string :=
  "Possible combination is: TMS =  %s, TCK = %s, TDO = %s -> IDCODE response = %s".

(** Body of the loop of [Jtagulator.bypass_search]. *)
Definition bypass_candidate (comb : list (option PinId)) : M unit :=
  c0 <- lift (py_getitem comb 0) ;; p <- pyb_Pin c0 OUT_PP ;; modify (set_TMS (Some p)) ;;;
  c1 <- lift (py_getitem comb 1) ;; p <- pyb_Pin c1 OUT_PP ;; modify (set_TDI (Some p)) ;;;
  c2 <- lift (py_getitem comb 2) ;; p <- pyb_Pin c2 OUT_PP ;; modify (set_TCK (Some p)) ;;;
  c3 <- lift (py_getitem comb 3) ;; p <- pyb_Pin c3 IN ;; modify (set_TDO (Some p)) ;;;
  response <- _bypass_test JTAG_BYPASS_PATTERN ;;
  if decide (response = JTAG_BYPASS_PATTERN) then
    c0 <- lift (py_getitem comb 0) ;; c1 <- lift (py_getitem comb 1) ;;
    c2 <- lift (py_getitem comb 2) ;; c3 <- lift (py_getitem comb 3) ;;
    modify (add_log (LogInfo bypass_fmt [ArgPin c0; ArgPin c1; ArgPin c2; ArgPin c3]))
  else ret tt.

Definition bypass_search (pins_scope : list PinId) : M unit :=
  filtered <- lift (candidates pins_scope JTAG_PINS_BYPASS_COUNT) ;;
  for_each filtered bypass_candidate.

(** Body of the loop of [Jtagulator.idcode_search]. *)
Definition idcode_candidate (comb : list (option PinId)) : M unit :=
  c0 <- lift (py_getitem comb 0) ;; p <- pyb_Pin c0 OUT_PP ;; modify (set_TMS (Some p)) ;;;
  c1 <- lift (py_getitem comb 1) ;; p <- pyb_Pin c1 OUT_PP ;; modify (set_TCK (Some p)) ;;;
  c2 <- lift (py_getitem comb 2) ;; p <- pyb_Pin c2 IN ;; modify (set_TDO (Some p)) ;;;
  response <- _idcode_test ;;
  if decide (response <> "11111111111111111111111111111111"
             /\ response <> "00000000000000000000000000000000") then
    c0 <- lift (py_getitem comb 0) ;; c1 <- lift (py_getitem comb 1) ;;
    c2 <- lift (py_getitem comb 2) ;;
    modify (add_log (LogInfo idcode_fmt [ArgPin c0; ArgPin c1; ArgPin c2; ArgStr response]))
  else ret tt.

Definition idcode_search (pins_scope : list PinId) : M unit :=
  filtered <- lift (candidates pins_scope JTAG_PINS_IDCODE_COUNT) ;;
  for_each filtered idcode_candidate.
End Driver.

(** ** Line-level meaning of a clock script

    A script is a list of clock cycles, each given by the output pairs
    applied in its setup phase.  [run_cycles] is the reference the
    driver is compared with: what a script does to the outside world,
    which events it causes and which levels it samples. *)

Section Cycles.
Context `{board : Board}.
Local Open Scope list_scope.

Definition write_all (outs : list (PinId * bool)) (w : World) : World :=
  fold_left (fun w o => board_write o.1 o.2 w) outs w.

(** The world after one clock cycle. *)
Definition cycle_world (tck : PinId) (outs : list (PinId * bool)) (w : World)
  : World :=
  let w := board_delay 0 (board_write tck false w) in
  let w := board_delay 0 (write_all outs w) in
  let w := board_delay 0 (board_write tck true w) in
  board_delay 0 (board_write tck false w).

Definition cycle_sample (tck tdo : PinId) (outs : list (PinId * bool))
    (w : World) : bool :=
  board_read tdo (cycle_world tck outs w).

Definition cycle_events (tck tdo : PinId) (outs : list (PinId * bool))
    (w : World) : list event :=
  [EvWrite tck false; EvDelay 0]
  ++ map (fun o => EvWrite o.1 o.2) outs
  ++ [EvDelay 0; EvWrite tck true; EvDelay 0; EvWrite tck false; EvDelay 0;
      EvRead tdo (cycle_sample tck tdo outs w)].

Fixpoint run_cycles (tck tdo : PinId) (script : list (list (PinId * bool)))
    (w : World) : list bool * list event * World :=
  match script with
  | [] => ([], [], w)
  | outs :: rest =>
      let '(bits, evs, w') := run_cycles tck tdo rest (cycle_world tck outs w) in
      (cycle_sample tck tdo outs w :: bits,
       cycle_events tck tdo outs w ++ evs, w')
  end.

(** The world and the trace move on; globals and log stay. *)
Definition advance (w : World) (evs : list event) (s : state) : state :=
  mkState (TMS s) (TDI s) (TCK s) (TDO s) w (trace s ++ evs) (log s).

Definition run_script (tck tdo : PinId) (script : list (list (PinId * bool)))
    (s : state) : list bool * state :=
  let '(bits, evs, w') := run_cycles tck tdo script (world s) in
  (bits, advance w' evs s).

(** Level driven for a character of a bit string. *)
Definition level_of (c : ascii) : bool := py_truth (nat_of_ascii c - 48).

Definition levels (s : string) : list bool :=
  map level_of (list_ascii_of_string s).

Definition is_digit (c : ascii) : bool :=
  bool_decide (48 <= nat_of_ascii c <= 57).

Definition digits (s : string) : bool :=
  forallb is_digit (list_ascii_of_string s).

(** Scripts of the two shifters. *)
Definition tms_script (tms : PinId) (bits : list bool)
  : list (list (PinId * bool)) :=
  map (fun b => [(tms, b)]) bits.

Definition tms_tdi_script (tms tdi : PinId) (bits : list (bool * bool))
  : list (list (PinId * bool)) :=
  map (fun b => [(tms, b.1); (tdi, b.2)]) bits.

(** The string a list of sampled levels is returned as. *)
Definition bits_str (bits : list bool) : string :=
  String.concat "" (map py_str bits).

(** Line events: everything but the delays. *)
Definition is_line_event (e : event) : bool :=
  match e with
  | EvDelay _ => false
  | _ => true
  end.

(** Levels sampled in a stretch of the trace. *)
Definition sampled (evs : list event) : list bool :=
  omap (fun e => match e with EvRead _ b => Some b | _ => None end) evs.

Definition same_lines (s s' : state) : Prop :=
  TMS s' = TMS s /\ TDI s' = TDI s /\ TCK s' = TCK s /\ TDO s' = TDO s.

(** Script of the generic shift of [data]: with a TDI line, TMS is 0
    but for the last clock and TDI carries the data; without one, the
    data goes out on TMS. *)
Definition shift_script (tms : PinId) (tdi : option PinId) (data : string)
  : list (list (PinId * bool)) :=
  match tdi with
  | None => tms_script tms (levels data)
  | Some tdi =>
      tms_tdi_script tms tdi
        (zip (levels (py_str_mul "0" (Z.of_nat (String.length data) - 1) ++ "1")%string)
             (levels data))
  end.

(** Script of the BYPASS test up to Shift-DR: reset to idle, enter
    Shift-IR, 32 ones into the instruction register, back to idle,
    enter Shift-DR. *)
Definition bypass_prefix (tms tdi : PinId) : list (list (PinId * bool)) :=
  tms_script tms (levels "111110")
  ++ tms_script tms (levels "1100")
  ++ tms_tdi_script tms tdi
       (zip (levels (py_str_mul "0" (Z.of_nat MAX_IR_LEN)))
            (levels (py_str_mul "1" (Z.of_nat MAX_IR_LEN))))
  ++ tms_script tms (levels "110")
  ++ tms_script tms (levels "100").

(** The state once [bypass_search] has bound a candidate. *)
Definition bound_bypass (a b c d : PinId) (w : World) (s : state) : state :=
  mkState (Some a) (Some b) (Some c) (Some d) w
    (trace s ++ [EvInit a OUT_PP; EvInit b OUT_PP; EvInit c OUT_PP; EvInit d IN])
    (log s).

(** The state once [idcode_search] has bound a candidate: TDI keeps
    whatever it held. *)
Definition bound_idcode (a c d : PinId) (w : World) (s : state) : state :=
  mkState (Some a) (TDI s) (Some c) (Some d) w
    (trace s ++ [EvInit a OUT_PP; EvInit c OUT_PP; EvInit d IN])
    (log s).

(** Script of the IDCODE test up to Shift-DR. *)
Definition idcode_prefix (tms : PinId) : list (list (PinId * bool)) :=
  tms_script tms (levels "111110") ++ tms_script tms (levels "100").
End Cycles.

(** ** A bench board

    Eight pins, 0 to 7.  Pin 3 is wired to pin 1, so that it reads the
    level last driven there (a zero-latency loop from TDI to TDO); every
    other pin reads its own level.  A pin outside 0..7 is refused. *)

Module Bench.
Definition init (p : nat) (m : pin_mode) (w : list bool) : option (list bool) :=
  if decide (p < 8) then Some w else None.

Definition write (p : nat) (level : bool) (w : list bool) : list bool :=
  <[p := level]> w.

Definition read (p : nat) (w : list bool) : bool :=
  default false (w !! (if decide (p = 3) then 1 else p)).

#[global] Instance board : Board := {|
  PinId := nat;
  World := list bool;
  board_init := init;
  board_write := write;
  board_read := read;
  board_delay := fun _ w => w
|}.

(** The module as imported, all lines low. *)
Definition power_on : state :=
  mkState None None None None (replicate 8 false) [] [].

(** The module with its lines bound as [bypass_search] binds
    candidate (0, 1, 2, 3). *)
Definition bound : state :=
  mkState (Some 0) (Some 1) (Some 2) (Some 3) (replicate 8 false) [] [].
End Bench.

(** An error is reported by a call that ends in [r] from [s0] when it
    raises or adds to the log. *)
Definition reports_error `{board : Board} (s0 : state)
    (r : result unit * state) : Prop :=
  (exists e, r.1 = Raise e) \/ log r.2 <> log s0.

(** The port refuses one of the pins bound in this order, having
    accepted those before it. *)
Fixpoint refuses `{board : Board} (pins : list (PinId * pin_mode)) (w : World)
    : Prop :=
  match pins with
  | [] => False
  | (p, m) :: rest =>
      match board_init p m w with
      | None => True
      | Some w' => refuses rest w'
      end
  end.

(** A computation that leaves the global [TDI] as it found it, however
    it ends. *)
Definition keeps_TDI `{board : Board} {A} (m : M A) : Prop :=
  forall s, TDI (m s).2 = TDI s.

(** Levels written to pin [p] in a stretch of the trace. *)
Definition written `{board : Board} (p : PinId) (evs : list event) : list bool :=
  omap (fun e => match e with
                 | EvWrite q b => if decide (q = p) then Some b else None
                 | _ => None
                 end) evs.

(** ** A test rig

    Pins are numbered by [nat] and none is refused.  The world is the
    level last driven on pin 1; pin 3 reads it back at once (TDI looped
    to TDO without latency), and every other pin reads low whatever is
    driven. *)

Module Rig.
Definition write (p : nat) (level : bool) (w : bool) : bool :=
  if decide (p = 1) then level else w.

Definition read (p : nat) (w : bool) : bool :=
  if decide (p = 3) then w else false.

Definition board : Board := {|
  PinId := nat;
  World := bool;
  board_init := fun _ _ w => Some w;
  board_write := write;
  board_read := read;
  board_delay := fun _ w => w
|}.

(** The module as imported. *)
Definition power_on : @state board :=
  @mkState board None None None None false [] [].

(** The lines bound as for candidate (0, 1, 2, 3). *)
Definition bound : @state board :=
  @mkState board (Some 0) (Some 1) (Some 2) (Some 3) false [] [].

(** TDO left unbound. *)
Definition no_TDO : @state board :=
  @mkState board (Some 0) (Some 1) (Some 2) None false [] [].
End Rig.

(** A string of the characters 0 and 1 only. *)
Definition binary (s : string) : bool :=
  forallb (fun c => bool_decide (c = "0"%char \/ c = "1"%char))
          (list_ascii_of_string s).

(** The entry [bypass_search] logs for a candidate. *)
Definition bypass_entry `{board : Board} (comb : list (option PinId)) : log_record :=
  LogInfo bypass_fmt (map ArgPin comb).

(** The entry [idcode_search] logs for a candidate and its response. *)
Definition idcode_entry `{board : Board} (r : list (option PinId) * string)
    : log_record :=
  LogInfo idcode_fmt (map ArgPin r.1 ++ [ArgStr r.2])%list.

(** The events of a clock cycle up to, but without, the sample. *)
Definition pulse_events `{board : Board} (tck : PinId) (outs : list (PinId * bool))
    : list event :=
  ([EvWrite tck false; EvDelay 0]
   ++ map (fun o => EvWrite o.1 o.2) outs
   ++ [EvDelay 0; EvWrite tck true; EvDelay 0; EvWrite tck false; EvDelay 0])%list.

(** The pin an event is about. *)
Definition event_pin `{board : Board} (e : event) : option PinId :=
  match e with
  | EvInit p _ | EvWrite p _ | EvRead p _ => Some p
  | EvDelay _ => None
  end.

(** Every pin configured, driven or read in [evs] satisfies [P]. *)
Definition touches_only `{board : Board} (P : PinId -> Prop) (evs : list event)
    : Prop :=
  Forall (fun e => forall p, event_pin e = Some p -> P p) evs.

(** A response [idcode_search] lets through. *)
Definition plausible_idcode (response : string) : Prop :=
  String.length response = 32
  /\ response <> "11111111111111111111111111111111"
  /\ response <> "00000000000000000000000000000000".


(** * The log sink: [logging.py] and what it uses of [stylization.py]

    [jtagulator.py] reports through [log = logging.get_logger(__name__)]
    and [log.info].  Exceptions of these two modules are values of
    [answer]; the globals of [logging], the [Logger] objects and what
    has been written to which stream are fields of [Runtime.world]. *)

Module Runtime.
Inductive error : Type :=
| KeyError (key : string)
| ValueError (msg : string)
| TypeError
| AttributeError.

Inductive answer (A : Type) : Type :=
| Returned (a : A)
| Raised (e : error).
Arguments Returned {A} a.
Arguments Raised {A} e.

Definition abind {A B} (r : answer A) (f : A -> answer B) : answer B :=
  match r with
  | Returned a => f a
  | Raised e => Raised e
  end.

Fixpoint afoldM {A B} (f : B -> A -> answer B) (b : B) (l : list A) : answer B :=
  match l with
  | [] => Returned b
  | x :: l' => abind (f b x) (fun b' => afoldM f b' l')
  end.

(** Stream objects. *)
Inductive stream : Type :=
| stderr
| stdout
| stream_object (id : nat).

#[global] Instance stream_eq_dec : EqDecision stream.
Proof. solve_decision. Defined.

(** A [Logger] object: its name and the level it reads through
    [self.level] (the class attribute [NOTSET] until [set_level]). *)
Record logger : Type := mkLogger {
  logger_name : option string;
  logger_level : Z
}.

(** The globals of [logging], the [Logger] objects by reference, and
    the calls of [write] so far, oldest first. *)
Record world : Type := mkWorld {
  _level : Z;
  _stream : stream;
  _colorize_enable : bool;
  _loggers : gmap (option string) nat;
  heap : list logger;
  written : list (stream * string)
}.

Definition IO (A : Type) : Type := world -> answer A * world.

Definition ret {A} (a : A) : IO A := fun w => (Returned a, w).

Definition bind {A B} (m : IO A) (f : A -> IO B) : IO B :=
  fun w =>
    match m w with
    | (Returned a, w') => f a w'
    | (Raised e, w') => (Raised e, w')
    end.

Definition lift {A} (r : answer A) : IO A := fun w => (r, w).

Definition raise {A} (e : error) : IO A := fun w => (Raised e, w).

Definition gets {A} (f : world -> A) : IO A := fun w => (Returned (f w), w).

(** [stream.write(text)] *)
Definition write (st : stream) (text : string) : IO unit :=
  fun w =>
    (Returned tt,
     mkWorld (_level w) (_stream w) (_colorize_enable w) (_loggers w) (heap w)
             (written w ++ [(st, text)])).

(** [d[key]] on a dictionary with string keys. *)
Definition dict_getitem (d : gmap string string) (key : string) : answer string :=
  match d !! key with
  | Some v => Returned v
  | None => Raised (KeyError key)
  end.

(** [s.split(sep)] for a one-character separator. *)
Fixpoint py_split (sep : ascii) (s : string) : list string :=
  match s with
  | EmptyString => [EmptyString]
  | String c s' =>
      if decide (c = sep) then EmptyString :: py_split sep s'
      else match py_split sep s' with
           | h :: t => String c h :: t
           | [] => [String c EmptyString]
           end
  end.

(** [str(name)] for a logger name: a string or [None]. *)
Definition py_str_name (name : option string) : string :=
  match name with
  | Some n => n
  | None => "None"
  end.
End Runtime.

Declare Scope io_scope.
Delimit Scope io_scope with io.
Notation "x <- c ;; k" := (Runtime.bind c (fun x => k))
  (at level 100, c at next level, right associativity) : io_scope.
Notation "c ;;; k" := (Runtime.bind c (fun _ => k))
  (at level 100, right associativity) : io_scope.

Module Stylization.
Import Runtime.

(** The escape character, written ["\033"] in the source. *)
Definition esc (rest : string) : string := String "027"%char rest.

Definition _style_dict : gmap string string :=
  list_to_map
    [("reset", esc "[0m"); ("bold", esc "[01m"); ("disable", esc "[02m");
     ("underline", esc "[04m"); ("reverse", esc "[07m");
     ("strikethrough", esc "[09m"); ("invisible", esc "[08m")].

Definition _fg_dict : gmap string string :=
  list_to_map
    [("black", esc "[30m"); ("red", esc "[31m"); ("green", esc "[32m");
     ("orange", esc "[33m"); ("blue", esc "[34m"); ("purple", esc "[35m");
     ("cyan", esc "[36m"); ("lightgrey", esc "[37m"); ("darkgrey", esc "[90m");
     ("lightred", esc "[91m"); ("lightgreen", esc "[92m"); ("yellow", esc "[93m");
     ("lightblue", esc "[94m"); ("pink", esc "[95m"); ("lightcyan", esc "[96m")].

Definition _bg_dict : gmap string string :=
  list_to_map
    [("black", esc "[40m"); ("red", esc "[41m"); ("green", esc "[42m");
     ("orange", esc "[43m"); ("blue", esc "[44m"); ("purple", esc "[45m");
     ("cyan", esc "[46m"); ("lightgrey", esc "[47m")].

Definition _names2ascii (fg stylename bg : option string) : answer string :=
  abind (match fg with
         | Some k => dict_getitem _fg_dict k
         | None => Returned ""
         end) (fun fg_string =>
  abind (match bg with
         | Some k => dict_getitem _bg_dict k
         | None => Returned ""
         end) (fun bg_string =>
  abind (match stylename with
         | Some sn =>
             let style_list := py_split " " sn in
             afoldM (fun st_string style_item =>
                       abind (dict_getitem _style_dict style_item) (fun code =>
                       Returned (String.concat "" [st_string; code])))
                    "" style_list
         | None => Returned ""
         end) (fun st_string =>
  Returned (String.concat "" [st_string; fg_string; bg_string])))).

Definition style_string (string_ : string) (fg stylename bg : option string)
    : answer string :=
  abind (_names2ascii fg stylename bg) (fun ascii_str =>
  abind (dict_getitem _style_dict "reset") (fun reset =>
  Returned (String.concat "" [ascii_str; string_; reset]))).

(** [style_func_stream(stream, fg, stylename, bg)(func)(...)]: the
    wrapper around a call [func]. *)
Definition style_func_stream {A} (st : stream) (fg stylename bg : option string)
    (func : IO A) : IO unit :=
  (ascii_str <- lift (_names2ascii fg stylename bg) ;;
   write st ascii_str ;;;
   func ;;;
   reset <- lift (dict_getitem _style_dict "reset") ;;
   write st reset)%io.

(** A name the dictionary [d] has, or no name at all. *)
Definition known (d : gmap string string) (name : option string) : Prop :=
  forall k, name = Some k -> is_Some (d !! k).

(** A character other than the space in every position. *)
Definition spaceless (s : string) : Prop :=
  Forall (fun c => c <> " "%char) (list_ascii_of_string s).
End Stylization.

Module Logging.
Import Runtime.
Local Open Scope Z_scope.
Local Open Scope io_scope.

Definition CRITICAL : Z := 50.
Definition ERROR : Z := 40.
Definition WARNING : Z := 30.
Definition INFO : Z := 20.
Definition DEBUG : Z := 10.
Definition NOTSET : Z := 0.

Definition _level_dict : gmap Z string :=
  list_to_map
    [(CRITICAL, "CRIT"); (ERROR, "ERROR"); (WARNING, "WARN"); (INFO, "INFO");
     (DEBUG, "DEBUG")].

(** The module once imported: [_stream = sys.stderr], [_level = INFO],
    [_colorize_enable = True], [_loggers = {}]. *)
Definition imported : world := mkWorld INFO stderr true ∅ [] [].

Section Logger.
(** The arguments of a [%] format and the operator itself, which the
    module applies to whatever it is handed. *)
Context {Arg : Type} (py_percent : string -> list Arg -> answer string).

Definition set_heap (h : list logger) (w : world) : world :=
  mkWorld (_level w) (_stream w) (_colorize_enable w) (_loggers w) h (written w).

(** [self] of a method: the object behind a reference. *)
Definition deref (self : nat) : IO logger :=
  fun w =>
    match heap w !! self with
    | Some l => (Returned l, w)
    | None => (Raised AttributeError, w)
    end.

(** [Logger(name)] *)
Definition Logger (name : option string) : IO nat :=
  fun w => (Returned (length (heap w)), set_heap (heap w ++ [mkLogger name NOTSET]) w).

(** [x or y] on integers. *)
Definition py_or (x y : Z) : Z := if decide (x = 0) then y else x.

Definition _level_str (level : Z) : string :=
  match _level_dict !! level with
  | Some l => l
  | None => "LVL" ++ pretty level
  end.

Definition set_level (self : nat) (level : Z) : IO unit :=
  l <- deref self ;;
  fun w => (Returned tt, set_heap (<[self := mkLogger (logger_name l) level]> (heap w)) w).

Definition is_enabled_for (self : nat) (level : Z) : IO bool :=
  l <- deref self ;;
  lv <- gets _level ;;
  ret (bool_decide (py_or (logger_level l) lv <= level)).

Definition log (self : nat) (level : Z) (msg : string) (args : list Arg) : IO unit :=
  l <- deref self ;;
  lv <- gets _level ;;
  if decide (py_or (logger_level l) lv <= level) then
    msg_string <- lift (if args is [] then Returned msg else py_percent msg args) ;;
    st <- gets _stream ;;
    write st (_level_str level ++ ":" ++ py_str_name (logger_name l) ++ ":"
              ++ msg_string ++ String "010"%char "")
  else ret tt.

(** The decorator [_colorize(fg, stylename, bg)] around a method body. *)
Definition _colorize (fg stylename bg : option string) (func : IO unit) : IO unit :=
  enabled <- gets _colorize_enable ;;
  if enabled : bool then
    st <- gets _stream ;;
    Stylization.style_func_stream st fg stylename bg func
  else func ;;; ret tt.

Definition debug (self : nat) (msg : string) (args : list Arg) : IO unit :=
  _colorize (Some "green") None None (log self DEBUG msg args).

Definition info (self : nat) (msg : string) (args : list Arg) : IO unit :=
  _colorize (Some "blue") None None (log self INFO msg args).

Definition warning (self : nat) (msg : string) (args : list Arg) : IO unit :=
  _colorize (Some "yellow") None None (log self WARNING msg args).

Definition error (self : nat) (msg : string) (args : list Arg) : IO unit :=
  _colorize (Some "red") None None (log self ERROR msg args).

Definition critical (self : nat) (msg : string) (args : list Arg) : IO unit :=
  _colorize (Some "red") (Some "bold") (Some "black") (log self CRITICAL msg args).

Definition get_logger (name : option string) : IO nat :=
  regs <- gets _loggers ;;
  match regs !! name with
  | Some l => ret l
  | None =>
      l <- Logger name ;;
      fun w =>
        (Returned l,
         mkWorld (_level w) (_stream w) (_colorize_enable w)
                 (<[name := l]> (_loggers w)) (heap w) (written w))
  end.

(** The module-level [info] and [debug]. *)
Definition module_info (msg : string) (args : list Arg) : IO unit :=
  l <- get_logger None ;; info l msg args.

Definition module_debug (msg : string) (args : list Arg) : IO unit :=
  l <- get_logger None ;; debug l msg args.
End Logger.

Section Config.
(** [bool(stream)]: the truth value of a stream object, which its own
    [__bool__] or [__len__] decides from its state. *)
Context (py_bool : stream -> world -> bool).

Definition basic_config (level : Z) (filename : option string)
    (stream : option stream) (format : option string) (colorize : bool) : IO unit :=
  (fun w => (Returned tt,
             mkWorld level (_stream w) colorize (_loggers w) (heap w) (written w))) ;;;
  (if filename is Some _
   then raise (ValueError "filename argument is not supported on this platform.")
   else match stream with
        | Some st =>
            truth <- gets (py_bool st) ;;
            if truth : bool
            then fun w => (Returned tt,
                           mkWorld (_level w) st (_colorize_enable w) (_loggers w)
                                   (heap w) (written w))
            else ret tt
        | None => ret tt
        end) ;;;
  if format is Some _
  then raise (ValueError "format argument is not supported on this platform.")
  else ret tt.
End Config.

(** The registry points at objects that exist and carry the name they
    are registered under. *)
Definition registry_ok (w : world) : Prop :=
  forall name l, _loggers w !! name = Some l ->
    exists lg, heap w !! l = Some lg /\ logger_name lg = name.

(** All that has been written, in order, to stream [st]. *)
Definition text_on (st : stream) (ws : list (stream * string)) : string :=
  String.concat "" (map snd (filter (fun x => x.1 = st) ws)).
End Logging.

(** The line [Logger.log] writes for a record. *)
Definition log_line (level : Z) (name : option string) (text : string) : string :=
  Logging._level_str level ++ ":" ++ Runtime.py_str_name name ++ ":"
  ++ text ++ String "010"%char "".

(** The world after one more [write]. *)
Definition wrote (ws : list (Runtime.stream * string)) (w : Runtime.world)
    : Runtime.world :=
  Runtime.mkWorld (Runtime._level w) (Runtime._stream w) (Runtime._colorize_enable w)
                  (Runtime._loggers w) (Runtime.heap w) (Runtime.written w ++ ws).

(** The module after [get_logger("app")]. *)
Definition one_logger : Runtime.world :=
  Runtime.mkWorld Logging.INFO Runtime.stderr true
                  {[ Some "app" := 0 ]}
                  [Runtime.mkLogger (Some "app") Logging.NOTSET] [].

(** A [%] that rejects every argument list. *)
Definition percent_refused (msg : string) (args : list unit)
    : Runtime.answer string :=
  Runtime.Raised Runtime.TypeError.

(** The truth value of a capture buffer that is empty until written
    to; [sys.stderr] and [sys.stdout] are true. *)
Definition buffer_truth (st : Runtime.stream) (w : Runtime.world) : bool :=
  match st with
  | Runtime.stream_object _ =>
      negb (String.eqb (Logging.text_on st (Runtime.written w)) "")
  | _ => true
  end.

(** * Properties *)

(** ** Subscripts *)

Lemma py_index_nat (len i : nat) : i < len -> py_index len (Z.of_nat i) = Ok i.
Proof.
  intros Hi. unfold py_index.
  destruct (decide (Z.of_nat i < 0)%Z) as [Hneg|_]; [lia|].
  destruct (decide (0 <= Z.of_nat i < Z.of_nat len)%Z) as [_|Hout]; [|lia].
  by rewrite Nat2Z.id.
Qed.

Lemma py_getitem_nat {A} (l : list A) (i : nat) (x : A) :
  l !! i = Some x -> py_getitem l (Z.of_nat i) = Ok x.
Proof.
  intros Hx. unfold py_getitem.
  rewrite py_index_nat by (by eapply lookup_lt_Some). simpl. by rewrite Hx.
Qed.

Lemma py_setitem_nat {A} (l : list A) (i : nat) (x : A) :
  i < length l -> py_setitem l (Z.of_nat i) x = Ok (<[i := x]> l).
Proof. intros Hi. unfold py_setitem. by rewrite py_index_nat. Qed.

Lemma res_mapM_ok {A B} (f : A -> result B) (g : A -> B) (l : list A) :
  Forall (fun x => f x = Ok (g x)) l -> Res.mapM f l = Ok (map g l).
Proof.
  induction 1 as [|x l Hx _ IH]; [done|].
  simpl. rewrite Hx. simpl. by rewrite IH.
Qed.

(** ** The enumerator is the Cartesian power *)

Section ProductFacts.
Context {A : Type}.
Implicit Types (items pool : list A) (v : list (option A)).

Lemma digit_lookup items (i : nat) :
  length items <> 0 -> is_Some (items !! (i mod length items)).
Proof. intros Hn. apply lookup_lt_is_Some. by apply Nat.mod_upper_bound. Qed.

(** The inner loop [for s in range(a, repeat)], started on a list [v]
    of [repeat] slots. *)
Lemma inner_loop_spec items (repeat k m : nat) : forall (a : nat) v,
  length items <> 0 -> 1 <= a -> a + m = repeat -> length v = repeat ->
  exists v',
    Res.foldM
      (fun v s =>
         (q <- py_floordiv k (length items ^ s) ;;
          i_s <- py_mod q (length items) ;;
          x <- py_getitem items (Z.of_nat i_s) ;;
          py_setitem v (Z.of_nat repeat - Z.of_nat s - 1) (Some x))%res)
      v (seq a m) = Ok v'
    /\ length v' = repeat
    /\ forall j, v' !! j =
         if decide (j + a < repeat)
         then Some (items !! ((k / length items ^ (repeat - 1 - j)) mod length items))
         else v !! j.
Proof.
  induction m as [|m IH]; intros a v Hn Ha Ham Hv.
  - exists v. split; [done|]. split; [done|].
    intros j. destruct (decide (j + a < repeat)); [lia|done].
  - simpl.
    unfold py_floordiv at 1.
    destruct (decide (length items ^ a = 0)) as [Hz|_].
    { exfalso. by apply Nat.pow_nonzero in Hz. }
    simpl. unfold py_mod at 1.
    destruct (decide (length items = 0)) as [|_]; [done|]. simpl.
    destruct (digit_lookup items (k / length items ^ a) Hn) as [x Hx].
    rewrite (py_getitem_nat _ _ _ Hx). simpl.
    replace (Z.of_nat repeat - Z.of_nat a - 1)%Z
      with (Z.of_nat (repeat - a - 1)) by lia.
    rewrite py_setitem_nat by lia. simpl.
    destruct (IH (S a) (<[repeat - a - 1 := Some x]> v)) as (v' & Hrun & Hlen & Hv');
      [done | lia | lia | by rewrite length_insert |].
    exists v'. split; [done|]. split; [done|].
    intros j. rewrite Hv'.
    destruct (decide (j + S a < repeat)) as [Hlt|Hge].
    + destruct (decide (j + a < repeat)); [done|lia].
    + destruct (decide (j + a < repeat)) as [Hlt'|Hge'].
      * assert (j = repeat - a - 1) as -> by lia.
        rewrite list_lookup_insert_eq by lia.
        replace (repeat - 1 - (repeat - a - 1)) with a by lia.
        by rewrite Hx.
      * rewrite list_lookup_insert_ne by lia. done.
Qed.

Lemma _product_yield_spec items (repeat k : nat) :
  length items <> 0 -> 1 <= repeat ->
  _product_yield items repeat k = Ok (digit_tuple items repeat k).
Proof.
  intros Hn Hr. unfold _product_yield.
  unfold py_mod at 1. destruct (decide (length items = 0)) as [|_]; [done|].
  simpl.
  destruct (digit_lookup items k Hn) as [x Hx].
  rewrite (py_getitem_nat _ _ _ Hx). simpl.
  replace (Z.of_nat repeat - 1)%Z with (Z.of_nat (repeat - 1)) by lia.
  rewrite py_setitem_nat by (rewrite length_replicate; lia). simpl.
  destruct (inner_loop_spec items repeat k (repeat - 1) 1
              (<[repeat - 1 := Some x]> (replicate repeat None)))
    as (v' & Hrun & Hlen & Hv');
    [done | lia | lia | by rewrite length_insert, length_replicate |].
  rewrite Hrun. simpl. f_equal.
  apply list_eq. intros j. rewrite Hv'. unfold digit_tuple.
  rewrite list_lookup_fmap.
  destruct (decide (j + 1 < repeat)) as [Hlt|Hge].
  - rewrite lookup_seq_lt by lia. done.
  - destruct (decide (j = repeat - 1)) as [->|Hne].
    + rewrite list_lookup_insert_eq by (rewrite length_replicate; lia).
      rewrite lookup_seq_lt by lia. simpl.
      replace (repeat - 1 - (repeat - 1)) with 0 by lia.
      rewrite Nat.pow_0_r, Nat.div_1_r. by rewrite Hx.
    + rewrite list_lookup_insert_ne by lia.
      rewrite lookup_seq_ge by lia. simpl.
      apply lookup_ge_None_2. rewrite length_replicate. lia.
Qed.

Lemma _product_digits items (repeat : nat) :
  1 <= repeat ->
  _product items repeat =
  Ok (map (digit_tuple items repeat) (seq 0 (length items ^ repeat))).
Proof.
  intros Hr. unfold _product. apply res_mapM_ok.
  apply Forall_forall. intros k Hk. apply elem_of_seq in Hk.
  apply _product_yield_spec; [|done].
  intros Hz. rewrite Hz in Hk.
  rewrite Nat.pow_0_l in Hk by lia. lia.
Qed.

Lemma seq_mul_split {B} (f : nat -> B) (n m : nat) :
  map f (seq 0 (n * m)) =
  concat (map (fun q => map (fun t => f (q * m + t)) (seq 0 m)) (seq 0 n)).
Proof.
  induction n as [|n IH]; [done|].
  replace (S n * m) with (n * m + m) by lia.
  rewrite (seq_S n 0), (map_app _ (seq 0 n)), concat_app.
  rewrite seq_app, map_app, IH. simpl.
  rewrite app_nil_r. f_equal.
  replace (seq (n * m) m) with (Nat.add (n * m) <$> seq 0 m)
    by (rewrite fmap_add_seq; f_equal; lia).
  by rewrite <- list_fmap_compose.
Qed.

Lemma lookup_all_seq items :
  map (fun q => items !! q) (seq 0 (length items)) = map Some items.
Proof.
  apply list_eq. intros i.
  rewrite !list_lookup_fmap.
  destruct (decide (i < length items)) as [Hlt|Hge].
  - rewrite lookup_seq_lt by done. simpl.
    destruct (lookup_lt_is_Some_2 items i Hlt) as [x Hx]. by rewrite Hx.
  - rewrite lookup_seq_ge by lia.
    by rewrite (lookup_ge_None_2 items i) by lia.
Qed.

Lemma digit_tuple_step items (r q t : nat) :
  q < length items -> t < length items ^ r ->
  digit_tuple items (S r) (q * length items ^ r + t) =
  items !! q :: digit_tuple items r t.
Proof.
  intros Hq Ht. unfold digit_tuple.
  set (n := length items) in *.
  assert (n <> 0) as Hn by lia.
  simpl. f_equal.
  - replace (r - 0 - 0) with r by lia.
    rewrite Nat.div_add_l by (by apply Nat.pow_nonzero).
    rewrite (Nat.div_small t) by done.
    by rewrite Nat.add_0_r, Nat.mod_small.
  - rewrite <- fmap_S_seq, <- list_fmap_compose.
    apply list_fmap_ext. intros i j Hj. simpl.
    apply lookup_seq in Hj as [-> Hj]. simpl.
    replace (r - 0 - S i) with (r - 1 - i) by lia.
    f_equal.
    assert (n ^ r = n ^ i * n * n ^ (r - 1 - i)) as ->.
    { rewrite (Nat.mul_comm (n ^ i)), <- Nat.pow_succ_r', <- Nat.pow_add_r.
      f_equal. lia. }
    rewrite !Nat.mul_assoc.
    rewrite Nat.div_add_l by (by apply Nat.pow_nonzero).
    rewrite Nat.add_comm. apply Nat.Div0.mod_add.
Qed.

Lemma cartesian_some_bind pool (C : list (list A)) :
  map (map Some) (x ← pool; (fun t => x :: t) <$> C) =
  concat (map (fun o => map (cons o) (map (map Some) C)) (map Some pool)).
Proof.
  induction pool as [|x pool IH]; [done|].
  rewrite bind_cons, map_app, IH. simpl. f_equal.
  rewrite !map_map. done.
Qed.

Lemma digits_cartesian items (r : nat) :
  map (digit_tuple items r) (seq 0 (length items ^ r)) =
  map (map Some) (cartesian items r).
Proof.
  induction r as [|r IH]; [done|].
  cbn [cartesian]. rewrite cartesian_some_bind, <- IH.
  rewrite <- lookup_all_seq, map_map.
  rewrite Nat.pow_succ_r', seq_mul_split. f_equal.
  apply map_ext_in. intros q Hq%in_seq.
  rewrite map_map.
  apply map_ext_in. intros t Ht%in_seq.
  apply digit_tuple_step; lia.
Qed.

Lemma _product_cartesian pool (k : nat) :
  1 <= k -> _product pool k = Ok (map (map Some) (cartesian pool k)).
Proof. intros Hk. by rewrite _product_digits, digits_cartesian. Qed.
End ProductFacts.

(** ** Counting the duplicate-free tuples *)

Section Counting.
Context {A : Type} `{EqDecision A}.
Implicit Types (pool l : list A) (t : list A).

Lemma length_remove_dups_le l : length (remove_dups l) <= length l.
Proof.
  induction l as [|x l IH]; [done|]. simpl.
  destruct (decide_rel elem_of x l); simpl; lia.
Qed.

(** [len(set(item)) == len(item)] says that no entry repeats. *)
Lemma length_remove_dups_NoDup l :
  length (remove_dups l) = length l <-> NoDup l.
Proof.
  induction l as [|x l IH]; [by split; [constructor|]|]. simpl.
  pose proof (length_remove_dups_le l).
  destruct (decide_rel elem_of x l) as [Hin|Hnin]; simpl.
  - split; [lia|]. intros [? _]%NoDup_cons. done.
  - rewrite NoDup_cons. split.
    + intros Hlen. split; [done|]. apply IH. lia.
    + intros [_ Hnd]. f_equal. by apply IH.
Qed.

Lemma cartesian_length pool (k : nat) :
  Forall (fun t => length t = k) (cartesian pool k).
Proof.
  induction k as [|k IH]; simpl; [by repeat constructor|].
  apply Forall_forall. intros t (x & Ht & _)%list_elem_of_bind.
  apply list_elem_of_fmap in Ht as (t' & -> & Ht').
  simpl. f_equal. by eapply Forall_forall in IH.
Qed.

Lemma cartesian_elems pool (k : nat) :
  Forall (fun t => Forall (fun x => x ∈ pool) t) (cartesian pool k).
Proof.
  induction k as [|k IH]; simpl; [by repeat constructor|].
  apply Forall_forall. intros t (x & Ht & Hx)%list_elem_of_bind.
  apply list_elem_of_fmap in Ht as (t' & -> & Ht').
  constructor; [done|]. by eapply Forall_forall in IH.
Qed.

Lemma cartesian_NoDup pool (k : nat) : NoDup pool -> NoDup (cartesian pool k).
Proof.
  intros Hpool. induction k as [|k IH]; simpl.
  { apply NoDup_singleton. }
  apply NoDup_bind; [| |done].
  - intros x1 x2 t _ _ (t1 & -> & _)%list_elem_of_fmap (t2 & Heq & _)%list_elem_of_fmap.
    congruence.
  - intros x _. apply NoDup_fmap_2; [|done]. intros t1 t2. congruence.
Qed.

Lemma filter_fmap_iff {B C} (f : B -> C) (P : C -> Prop) (Q : B -> Prop)
    `{!forall y, Decision (P y)} `{!forall x, Decision (Q x)} (l : list B) :
  Forall (fun x => P (f x) <-> Q x) l -> filter P (f <$> l) = f <$> filter Q l.
Proof.
  induction 1 as [|x l Hx _ IH]; [done|].
  rewrite fmap_cons, !filter_cons, IH.
  destruct (decide (P (f x))), (decide (Q x)); tauto.
Qed.

Lemma filter_none {B} (P : B -> Prop) `{!forall x, Decision (P x)} (l : list B) :
  Forall (fun x => ~ P x) l -> filter P l = [].
Proof.
  induction 1 as [|x l Hx _ IH]; [done|]. by rewrite filter_cons_False.
Qed.

Lemma filter_bind {B C} (f : B -> list C) (P : C -> Prop)
    `{!forall y, Decision (P y)} (l : list B) :
  filter P (l ≫= f) = l ≫= (fun x => filter P (f x)).
Proof.
  induction l as [|x l IH]; [done|].
  by rewrite !bind_cons, filter_app, IH.
Qed.

Lemma length_bind_const {B C} (f : B -> list C) (c : nat) (l : list B) :
  Forall (fun x => length (f x) = c) l -> length (l ≫= f) = length l * c.
Proof.
  induction 1 as [|x l Hx _ IH]; [done|].
  rewrite bind_cons, length_app, Hx, IH. simpl. lia.
Qed.

(** Tuples that avoid [x] are the tuples over the pool without [x]. *)
Lemma cartesian_avoid pool (x : A) (k : nat) :
  filter (fun t => x ∉ t) (cartesian pool k) =
  cartesian (filter (fun y => y <> x) pool) k.
Proof.
  induction k as [|k IH]; simpl.
  { rewrite filter_cons_True by apply not_elem_of_nil. done. }
  rewrite <- IH. rewrite filter_bind. clear IH.
  generalize (cartesian pool k). intros C.
  induction pool as [|y pool IHpool]; [done|].
  rewrite bind_cons, filter_cons.
  destruct (decide (y <> x)) as [Hne|Heq].
  - rewrite bind_cons, IHpool. f_equal.
    apply filter_fmap_iff. apply Forall_forall. intros t _.
    rewrite not_elem_of_cons. split; [tauto|]. intros Ht. split; [congruence|done].
  - rewrite IHpool. apply dec_stable in Heq as ->.
    replace (filter (fun t => x ∉ t) ((fun t => x :: t) <$> C))
      with (@nil (list A)); [done|].
    clear IHpool. induction C as [|t C IHC]; [done|].
    rewrite fmap_cons, filter_cons_False; [done|].
    intros Hnot. apply Hnot, list_elem_of_here.
Qed.

Lemma length_filter_ne pool (x : A) :
  NoDup pool -> x ∈ pool ->
  length (filter (fun y => y <> x) pool) = length pool - 1.
Proof.
  induction 1 as [|y pool Hy Hnd IH]; [by intros ?%elem_of_nil|].
  rewrite filter_cons. intros [->|Hx]%elem_of_cons.
  - destruct (decide (y <> y)) as [|_]; [done|].
    simpl. rewrite Nat.sub_0_r. clear IH.
    induction pool as [|z pool IHp]; [done|].
    apply not_elem_of_cons in Hy as [? ?]. apply NoDup_cons in Hnd as [? ?].
    rewrite filter_cons_True by done. simpl. f_equal. by apply IHp.
  - destruct (decide (y <> x)) as [_|Heq].
    + simpl. rewrite IH by done.
      destruct pool; [by apply elem_of_nil in Hx|simpl; lia].
    + apply dec_stable in Heq as ->. done.
Qed.

(** The number of duplicate-free tuples of length [k] over [N]
    distinct items is [N (N-1) ... (N-k+1)]. *)
Lemma cartesian_NoDup_count (k : nat) : forall pool,
  NoDup pool ->
  length (filter (fun t => NoDup t) (cartesian pool k)) = falling (length pool) k.
Proof.
  induction k as [|k IH]; intros pool Hpool; simpl; [done|].
  rewrite filter_bind.
  rewrite (length_bind_const _ (falling (length pool - 1) k)); [done|].
  apply Forall_forall. intros x Hx.
  rewrite (filter_fmap_iff _ _ (fun t => NoDup t /\ x ∉ t)).
  2:{ apply Forall_forall. intros t _. rewrite NoDup_cons. tauto. }
  rewrite length_fmap.
  rewrite <- (list_filter_filter (fun t => NoDup t) (fun t => x ∉ t)).
  rewrite cartesian_avoid, IH by (by apply NoDup_filter).
  by rewrite length_filter_ne.
Qed.

Lemma falling_fact (n k : nat) : k <= n -> falling n k * fact (n - k) = fact n.
Proof.
  revert n. induction k as [|k IH]; intros n Hk; simpl.
  { rewrite Nat.sub_0_r. lia. }
  destruct n as [|n]; [lia|].
  change (falling (S n) (S k)) with (S n * falling (S n - 1) k).
  replace (S n - 1) with n by lia.
  replace (S n - S k) with (n - k) by lia.
  rewrite <- Nat.mul_assoc, IH by lia. done.
Qed.

Lemma falling_quotient (n k : nat) : k <= n -> falling n k = fact n / fact (n - k).
Proof.
  intros Hk. rewrite <- (falling_fact n k Hk).
  rewrite Nat.div_mul; [done|]. apply fact_neq_0.
Qed.
End Counting.

(** ** The bit clocker and the shifters against the reference *)

Section DriverFacts.
Context `{board : Board}.
Local Open Scope list_scope.
Local Open Scope py_scope.

Lemma advance_advance w1 e1 w2 e2 (s : state) :
  advance w2 e2 (advance w1 e1 s) = advance w2 (e1 ++ e2) s.
Proof. unfold advance. simpl. by rewrite app_assoc. Qed.

Lemma advance_same_lines w evs (s : state) : same_lines s (advance w evs s).
Proof. done. Qed.

Lemma same_lines_trans (s1 s2 s3 : state) :
  same_lines s1 s2 -> same_lines s2 s3 -> same_lines s1 s3.
Proof. unfold same_lines. intros (->&->&->&->) (->&->&->&->). done. Qed.

(** The setup loop of [_io_values], from position [length done]. *)
Lemma setup_loop_spec (rest done : list (PinId * nat)) :
  forall tms tdi tck tdo w tr lg,
  for_each (seq (length done) (length rest))
    (fun k =>
       pin <- lift (py_getitem (map (fun o => Some o.1) (done ++ rest)) (Z.of_nat k)) ;;
       (if pin is None then lift (Raise AttributeError) else ret tt) ;;;
       x <- lift (py_getitem (map snd (done ++ rest)) (Z.of_nat k)) ;;
       pin_set pin (py_truth x))
    (mkState tms tdi tck tdo w tr lg) =
  (Ok tt,
   mkState tms tdi tck tdo
     (write_all (map (fun o => (o.1, py_truth o.2)) rest) w)
     (tr ++ map (fun o => EvWrite o.1 (py_truth o.2)) rest) lg).
Proof.
  revert done. induction rest as [|[p x] rest IH]; intros done tms tdi tck tdo w tr lg.
  { simpl. by rewrite app_nil_r. }
  cbn [length seq for_each]. unfold bind at 1.
  assert (map (fun o : PinId * nat => Some o.1) (done ++ (p, x) :: rest)
            !! length done = Some (Some p)) as Hp.
  { rewrite list_lookup_fmap, lookup_app_r, Nat.sub_diag by done. done. }
  assert (map snd (done ++ (p, x) :: rest) !! length done = Some x) as Hx.
  { rewrite list_lookup_fmap, lookup_app_r, Nat.sub_diag by done. done. }
  unfold bind at 1, lift at 1. rewrite (py_getitem_nat _ _ _ Hp).
  unfold bind at 1, ret at 1.
  unfold bind at 1, lift at 1. rewrite (py_getitem_nat _ _ _ Hx).
  unfold pin_set, emit, set_world. cbn [TMS TDI TCK TDO world trace log].
  specialize (IH (done ++ [(p, x)])).
  rewrite length_app, Nat.add_1_r, <- app_assoc in IH. simpl in IH.
  rewrite IH. simpl. by rewrite <- app_assoc.
Qed.

(** One call of the bit clocker is one cycle of the reference. *)
Lemma _io_values_spec (outs : list (PinId * nat)) (s : state) (tck tdo : PinId) :
  TCK s = Some tck -> TDO s = Some tdo ->
  let louts := map (fun o => (o.1, py_truth o.2)) outs in
  _io_values (map (fun o => Some o.1) outs) (map snd outs) s =
  (Ok (cycle_sample tck tdo louts (world s)),
   advance (cycle_world tck louts (world s))
           (cycle_events tck tdo louts (world s)) s).
Proof.
  intros Htck Htdo louts. destruct s as [tms tdi tck' tdo' w tr lg].
  simpl in Htck, Htdo. subst tck' tdo'.
  unfold _io_values. rewrite length_map.
  unfold bind at 1, gets at 1. cbn [TCK].
  unfold bind at 1, pin_set at 1, emit, set_world. cbn [TMS TDI TCK TDO world trace log].
  unfold bind at 1, pyb_delay at 1, modify, emit, set_world.
  cbn [TMS TDI TCK TDO world trace log].
  unfold bind at 1.
  pose proof (setup_loop_spec outs []) as Hloop. simpl in Hloop.
  rewrite Hloop. clear Hloop.
  cbv beta iota zeta delta
    [bind pyb_delay modify gets pin_set pin_get emit set_world
     TMS TDI TCK TDO world trace log].
  unfold advance, cycle_events, cycle_sample, cycle_world. subst louts.
  cbn [TMS TDI TCK TDO world trace log].
  rewrite !map_map.
  repeat (rewrite <- app_assoc; cbn [app]). done.
Qed.

Lemma mapM_run_script {X} (f : X -> M bool) (g : X -> list (PinId * bool))
    (tck tdo : PinId) (l : list X) (s0 : state) :
  (forall x s, x ∈ l -> same_lines s0 s ->
     f x s = (Ok (cycle_sample tck tdo (g x) (world s)),
              advance (cycle_world tck (g x) (world s))
                      (cycle_events tck tdo (g x) (world s)) s)) ->
  forall s, same_lines s0 s ->
    mapM f l s = (Ok (run_script tck tdo (map g l) s).1,
                  (run_script tck tdo (map g l) s).2).
Proof.
  induction l as [|x l IH]; intros Hf s Hs.
  { unfold run_script, advance. destruct s. simpl. by rewrite app_nil_r. }
  cbn [mapM]. unfold bind at 1.
  rewrite Hf by (done || apply list_elem_of_here).
  unfold bind at 1. rewrite IH; cycle 1.
  { intros y s' Hy Hs'. apply Hf; [by apply list_elem_of_further|done]. }
  { eapply same_lines_trans; [done|apply advance_same_lines]. }
  unfold run_script. cbn [map run_cycles world advance].
  destruct (run_cycles tck tdo (map g l) (cycle_world tck (g x) (world s)))
    as [[bits evs] w'].
  cbn [fst snd]. by rewrite advance_advance.
Qed.

Lemma py_int_digit (c : ascii) :
  is_digit c = true -> py_int c = Ok (nat_of_ascii c - 48).
Proof.
  unfold is_digit, py_int. intros Hc%bool_decide_eq_true.
  by destruct (decide (48 <= nat_of_ascii c <= 57)).
Qed.

Lemma digits_Forall (values : string) :
  digits values = true ->
  Forall (fun c => is_digit c = true) (list_ascii_of_string values).
Proof. unfold digits. rewrite forallb_forall, Forall_forall. intros H x Hx. apply H. by apply list_elem_of_In. Qed.

(** [_io_tms] clocks one cycle per character, the character on TMS. *)
Lemma _io_tms_spec (values : string) (s : state) (tms tck tdo : PinId) :
  TMS s = Some tms -> TCK s = Some tck -> TDO s = Some tdo ->
  digits values = true ->
  let r := run_script tck tdo (tms_script tms (levels values)) s in
  _io_tms values s = (Ok (bits_str r.1), r.2).
Proof.
  intros Htms Htck Htdo Hd r. unfold _io_tms, bind.
  rewrite (mapM_run_script _ (fun c => [(tms, level_of c)]) tck tdo _ s).
  - subst r. unfold tms_script, levels. by rewrite map_map.
  - intros c s' Hc (Htms' & _ & Htck' & Htdo').
    pose proof (digits_Forall _ Hd) as Hall.
    rewrite Forall_forall in Hall. specialize (Hall c Hc).
    unfold gets, lift. rewrite Htms', Htms, (py_int_digit c Hall).
    apply (_io_values_spec [(tms, nat_of_ascii c - 48)] s' tck tdo); congruence.
  - done.
Qed.

Lemma zip_fmap_both {X Y X' Y'} (f : X -> X') (g : Y -> Y') l1 l2 :
  zip (map f l1) (map g l2) = map (fun c => (f c.1, g c.2)) (zip l1 l2).
Proof.
  revert l2. induction l1 as [|x l1 IH]; intros [|y l2]; simpl; try done.
  by rewrite <- IH.
Qed.

(** [_io_tms_tdi] clocks one cycle per pair of characters. *)
Lemma _io_tms_tdi_spec (tms_values tdi_values : string) (s : state)
    (tms tdi tck tdo : PinId) :
  TMS s = Some tms -> TDI s = Some tdi -> TCK s = Some tck -> TDO s = Some tdo ->
  digits tms_values = true -> digits tdi_values = true ->
  let r := run_script tck tdo
             (tms_tdi_script tms tdi (zip (levels tms_values) (levels tdi_values))) s in
  _io_tms_tdi tms_values tdi_values s = (Ok (bits_str r.1), r.2).
Proof.
  intros Htms Htdi Htck Htdo Hd1 Hd2 r. unfold _io_tms_tdi, bind.
  rewrite (mapM_run_script _
             (fun c => [(tms, level_of c.1); (tdi, level_of c.2)]) tck tdo _ s).
  - subst r. unfold tms_tdi_script, levels.
    by rewrite zip_fmap_both, map_map.
  - intros [c1 c2] s' Hc (Htms' & Htdi' & Htck' & Htdo').
    pose proof (digits_Forall _ Hd1) as Hall1.
    pose proof (digits_Forall _ Hd2) as Hall2.
    rewrite Forall_forall in Hall1, Hall2.
    specialize (Hall1 c1 (elem_of_zip_l _ _ _ _ Hc)).
    specialize (Hall2 c2 (elem_of_zip_r _ _ _ _ Hc)).
    unfold gets, lift.
    rewrite Htms', Htms, Htdi', Htdi, (py_int_digit c1 Hall1), (py_int_digit c2 Hall2).
    apply (_io_values_spec [(tms, nat_of_ascii c1 - 48); (tdi, nat_of_ascii c2 - 48)]
             s' tck tdo); congruence.
  - done.
Qed.

Lemma advance_nil (s : state) : advance (world s) [] s = s.
Proof. destruct s. unfold advance. simpl. by rewrite app_nil_r. Qed.

Lemma run_cycles_app (tck tdo : PinId) (a b : list (list (PinId * bool))) :
  forall w : World,
  run_cycles tck tdo (a ++ b) w =
  let '(bits1, evs1, w1) := run_cycles tck tdo a w in
  let '(bits2, evs2, w2) := run_cycles tck tdo b w1 in
  (bits1 ++ bits2, evs1 ++ evs2, w2).
Proof.
  induction a as [|outs a IH]; intros w.
  { cbn [app run_cycles]. by destruct (run_cycles tck tdo b w) as [[??]?]. }
  cbn [app run_cycles]. rewrite IH.
  destruct (run_cycles tck tdo a (cycle_world tck outs w)) as [[bits1 evs1] w1].
  destruct (run_cycles tck tdo b w1) as [[bits2 evs2] w2].
  by rewrite <- app_assoc.
Qed.

Lemma run_script_app (tck tdo : PinId) (a b : list (list (PinId * bool)))
    (s : state) :
  run_script tck tdo (a ++ b) s =
  ((run_script tck tdo a s).1 ++ (run_script tck tdo b (run_script tck tdo a s).2).1,
   (run_script tck tdo b (run_script tck tdo a s).2).2).
Proof.
  unfold run_script. rewrite run_cycles_app.
  destruct (run_cycles tck tdo a (world s)) as [[bits1 evs1] w1].
  cbn [fst snd world advance].
  destruct (run_cycles tck tdo b w1) as [[bits2 evs2] w2].
  cbn [fst snd]. by rewrite advance_advance.
Qed.

Lemma run_script_same_lines (tck tdo : PinId) sc (s : state) :
  same_lines s (run_script tck tdo sc s).2.
Proof.
  unfold run_script. by destruct (run_cycles tck tdo sc (world s)) as [[??]?].
Qed.

Lemma run_script_log (tck tdo : PinId) sc (s : state) :
  log (run_script tck tdo sc s).2 = log s.
Proof.
  unfold run_script. by destruct (run_cycles tck tdo sc (world s)) as [[??]?].
Qed.

Lemma digits_shift_tms (n : Z) : digits (py_str_mul "0" n ++ "1")%string = true.
Proof.
  unfold py_str_mul. induction (Z.to_nat n) as [|m IH]; [done|].
  rewrite Nat.iter_succ. exact IH.
Qed.

(** The generic shift is the script [shift_script]. *)
Lemma _shift_array_spec (data : string) (s : state) (tms tck tdo : PinId) :
  TMS s = Some tms -> TCK s = Some tck -> TDO s = Some tdo ->
  digits data = true ->
  let r := run_script tck tdo (shift_script tms (TDI s) data) s in
  _shift_array data s = (Ok (bits_str r.1), r.2).
Proof.
  intros Htms Htck Htdo Hd r. unfold _shift_array, bind, gets. subst r.
  destruct (TDI s) as [tdi|] eqn:Htdi; cbn [shift_script].
  - apply _io_tms_tdi_spec; try done. apply digits_shift_tms.
  - by apply _io_tms_spec.
Qed.

Lemma run_script_TMS (tck tdo : PinId) sc (s : state) :
  TMS (run_script tck tdo sc s).2 = TMS s.
Proof. apply run_script_same_lines. Qed.
Lemma run_script_TDI (tck tdo : PinId) sc (s : state) :
  TDI (run_script tck tdo sc s).2 = TDI s.
Proof. apply run_script_same_lines. Qed.
Lemma run_script_TCK (tck tdo : PinId) sc (s : state) :
  TCK (run_script tck tdo sc s).2 = TCK s.
Proof. apply run_script_same_lines. Qed.
Lemma run_script_TDO (tck tdo : PinId) sc (s : state) :
  TDO (run_script tck tdo sc s).2 = TDO s.
Proof. apply run_script_same_lines. Qed.

Lemma py_join_string (cs : list ascii) : py_join cs = string_of_list_ascii cs.
Proof.
  unfold py_join. induction cs as [|c cs IH]; [done|].
  cbn [map String.concat string_of_list_ascii]. rewrite <- IH.
  destruct cs; done.
Qed.

Lemma py_join_id (s : string) : py_join (list_ascii_of_string s) = s.
Proof. by rewrite py_join_string, string_of_list_ascii_of_string. Qed.

Lemma bits_str_string (bits : list bool) :
  bits_str bits =
  string_of_list_ascii (map (fun b : bool => if b then "1" else "0")%char bits).
Proof.
  unfold bits_str. induction bits as [|b bits IH]; [done|].
  cbn [map String.concat string_of_list_ascii]. rewrite <- IH.
  destruct bits; by destruct b.
Qed.

Lemma bits_str_length (bits : list bool) :
  String.length (bits_str bits) = length bits.
Proof.
  rewrite bits_str_string. induction bits as [|b bits IH]; [done|].
  simpl. by rewrite IH.
Qed.
End DriverFacts.

Ltac lines :=
  rewrite ?run_script_TMS, ?run_script_TDI, ?run_script_TCK, ?run_script_TDO;
  done.

Section TestFacts.
Context `{board : Board}.
Local Open Scope list_scope.
Local Open Scope py_scope.

(** The BYPASS test: prefix, shift of the pattern on TDI, exit. *)
Lemma _bypass_test_spec (pattern : string) (s : state) (tms tdi tck tdo : PinId) :
  TMS s = Some tms -> TDI s = Some tdi -> TCK s = Some tck -> TDO s = Some tdo ->
  digits pattern = true ->
  let s1 := (run_script tck tdo (bypass_prefix tms tdi) s).2 in
  let r := run_script tck tdo (shift_script tms (Some tdi) pattern) s1 in
  _bypass_test pattern s =
  (Ok (bits_str r.1), (run_script tck tdo (tms_script tms (levels "10")) r.2).2).
Proof.
  intros Htms Htdi Htck Htdo Hd s1 r.
  unfold _bypass_test, _send_data, _restore_idle, _enter_shift_ir, _enter_shift_dr.
  unfold bind, ret.
  rewrite (_io_tms_spec _ _ tms tck tdo) by lines.
  rewrite (_io_tms_spec _ _ tms tck tdo) by lines.
  rewrite (_io_tms_tdi_spec _ _ _ tms tdi tck tdo) by lines.
  rewrite (_io_tms_spec _ _ tms tck tdo) by lines.
  rewrite (_io_tms_spec _ _ tms tck tdo) by lines.
  rewrite (_shift_array_spec _ _ tms tck tdo) by lines.
  rewrite (_io_tms_spec _ _ tms tck tdo) by lines.
  rewrite py_join_id.
  rewrite !run_script_TDI, Htdi.
  subst r s1. unfold bypass_prefix.
  rewrite !run_script_app. cbn [fst snd]. done.
Qed.

(** The IDCODE test: prefix, shift of 32 zeros, exit 0,1,0; the
    response is returned last-sampled bit first. *)
Lemma _idcode_test_spec (s : state) (tms tck tdo : PinId) :
  TMS s = Some tms -> TCK s = Some tck -> TDO s = Some tdo ->
  let s1 := (run_script tck tdo (idcode_prefix tms) s).2 in
  let r := run_script tck tdo (shift_script tms (TDI s) (py_str_mul "0" 32)) s1 in
  _idcode_test s =
  (Ok (bits_str (rev r.1)), (run_script tck tdo (tms_script tms (levels "010")) r.2).2).
Proof.
  intros Htms Htck Htdo s1 r.
  unfold _idcode_test, _restore_idle, _enter_shift_dr. unfold bind, ret.
  rewrite (_io_tms_spec _ _ tms tck tdo) by lines.
  rewrite (_io_tms_spec _ _ tms tck tdo) by lines.
  rewrite (_shift_array_spec _ _ tms tck tdo) by lines.
  rewrite (_io_tms_spec _ _ tms tck tdo) by lines.
  rewrite !run_script_TDI.
  subst r s1. unfold idcode_prefix.
  rewrite !run_script_app. cbn [fst snd]. f_equal. f_equal.
  unfold py_reversed. rewrite py_join_string, !bits_str_string.
  rewrite list_ascii_of_string_of_list_ascii. by rewrite map_rev.
Qed.

Lemma run_cycles_sampled (tck tdo : PinId) sc (w : World) :
  sampled (run_cycles tck tdo sc w).1.2 = (run_cycles tck tdo sc w).1.1.
Proof.
  revert w. induction sc as [|outs sc IH]; intros w; [done|].
  cbn [run_cycles]. specialize (IH (cycle_world tck outs w)).
  destruct (run_cycles tck tdo sc (cycle_world tck outs w)) as [[bits evs] w'].
  cbn [fst snd] in *. unfold sampled, cycle_events in *.
  rewrite !omap_app, IH. cbn [omap app].
  replace (omap (fun e => match e with EvRead _ b => Some b | _ => None end)
             (map (fun o : PinId * bool => EvWrite o.1 o.2) outs))
    with (@nil bool); [done|].
  clear. induction outs; done.
Qed.

Lemma run_cycles_length (tck tdo : PinId) sc (w : World) :
  length (run_cycles tck tdo sc w).1.1 = length sc.
Proof.
  revert w. induction sc as [|outs sc IH]; intros w; [done|].
  cbn [run_cycles]. specialize (IH (cycle_world tck outs w)).
  destruct (run_cycles tck tdo sc (cycle_world tck outs w)) as [[bits evs] w'].
  cbn [fst snd length] in *. by rewrite IH.
Qed.

(** What a script samples is what its stretch of the trace shows. *)
Lemma run_script_trace (tck tdo : PinId) sc (s : state) :
  exists evs, trace (run_script tck tdo sc s).2 = trace s ++ evs
              /\ sampled evs = (run_script tck tdo sc s).1.
Proof.
  unfold run_script. pose proof (run_cycles_sampled tck tdo sc (world s)) as Hs.
  destruct (run_cycles tck tdo sc (world s)) as [[bits evs] w'].
  by exists evs.
Qed.

Lemma run_script_events (tck tdo : PinId) sc (s : state) :
  trace (run_script tck tdo sc s).2 =
  trace s ++ (run_cycles tck tdo sc (world s)).1.2.
Proof.
  unfold run_script. by destruct (run_cycles tck tdo sc (world s)) as [[??]?].
Qed.

Lemma run_script_length (tck tdo : PinId) sc (s : state) :
  length (run_script tck tdo sc s).1 = length sc.
Proof.
  unfold run_script. pose proof (run_cycles_length tck tdo sc (world s)) as Hs.
  by destruct (run_cycles tck tdo sc (world s)) as [[bits evs] w'].
Qed.

Lemma bits_str_inj (b1 b2 : list bool) : bits_str b1 = bits_str b2 -> b1 = b2.
Proof.
  rewrite !bits_str_string. intros H.
  apply (f_equal list_ascii_of_string) in H.
  rewrite !list_ascii_of_string_of_list_ascii in H.
  revert b2 H. induction b1 as [|x b1 IH]; intros [|y b2] H; try done.
  simpl in H. injection H as Hxy H. f_equal; [|by apply IH].
  by destruct x, y.
Qed.

Lemma bind_lift_Ok {X Y} (x : X) (f : X -> M Y) (s : state) :
  bind (lift (Ok x)) f s = f x s.
Proof. done. Qed.

Lemma bind_modify {Y} (g : state -> state) (f : unit -> M Y) (s : state) :
  bind (modify g) f s = f tt (g s).
Proof. done. Qed.

Lemma bind_pyb_Pin {Y} (p : PinId) (m : pin_mode) (w : World)
    (f : PinId -> M Y) (s : state) :
  board_init p m (world s) = Some w ->
  bind (pyb_Pin (Some p) m) f s = f p (emit [EvInit p m] (set_world w s)).
Proof. intros H. unfold bind, pyb_Pin. by rewrite H. Qed.

Lemma bind_pyb_Pin_refused {Y} (p : PinId) (m : pin_mode)
    (f : PinId -> M Y) (s : state) :
  board_init p m (world s) = None ->
  bind (pyb_Pin (Some p) m) f s = (Raise ValueError, s).
Proof. intros H. unfold bind, pyb_Pin. by rewrite H. Qed.

Lemma bound_bypass_reached (s : state) (a b c d : PinId) (w1 w2 w3 w4 : World) :
  set_TDO (Some d) (emit [EvInit d IN] (set_world w4
    (set_TCK (Some c) (emit [EvInit c OUT_PP] (set_world w3
      (set_TDI (Some b) (emit [EvInit b OUT_PP] (set_world w2
        (set_TMS (Some a) (emit [EvInit a OUT_PP] (set_world w1 s)))))))))))
  = bound_bypass a b c d w4 s.
Proof.
  unfold bound_bypass.
  lazy beta iota delta
    [set_TDO set_TCK set_TDI set_TMS emit set_world
     TMS TDI TCK TDO world trace log].
  by rewrite <- !app_assoc.
Qed.

Lemma bound_idcode_reached (s : state) (a c d : PinId) (w1 w2 w3 : World) :
  set_TDO (Some d) (emit [EvInit d IN] (set_world w3
    (set_TCK (Some c) (emit [EvInit c OUT_PP] (set_world w2
      (set_TMS (Some a) (emit [EvInit a OUT_PP] (set_world w1 s))))))))
  = bound_idcode a c d w3 s.
Proof.
  unfold bound_idcode.
  lazy beta iota delta
    [set_TDO set_TCK set_TDI set_TMS emit set_world
     TMS TDI TCK TDO world trace log].
  by rewrite <- !app_assoc.
Qed.

Lemma JTAG_BYPASS_PATTERN_digits : digits JTAG_BYPASS_PATTERN = true.
Proof. reflexivity. Qed.

(** The body of the BYPASS loop on a candidate the port accepts. *)
Lemma bypass_candidate_spec (s : state) (a b c d : PinId) (w1 w2 w3 w4 : World) :
  board_init a OUT_PP (world s) = Some w1 ->
  board_init b OUT_PP w1 = Some w2 ->
  board_init c OUT_PP w2 = Some w3 ->
  board_init d IN w3 = Some w4 ->
  let sb := bound_bypass a b c d w4 s in
  let s1 := (run_script c d (bypass_prefix a b) sb).2 in
  let r := run_script c d (shift_script a (Some b) JTAG_BYPASS_PATTERN) s1 in
  let s3 := (run_script c d (tms_script a (levels "10")) r.2).2 in
  bypass_candidate [Some a; Some b; Some c; Some d] s =
  (Ok tt,
   if decide (bits_str r.1 = JTAG_BYPASS_PATTERN)
   then add_log (LogInfo bypass_fmt
                   [ArgPin (Some a); ArgPin (Some b); ArgPin (Some c); ArgPin (Some d)]) s3
   else s3).
Proof.
  intros H1 H2 H3 H4 sb s1 r s3.
  unfold bypass_candidate.
  change (py_getitem [Some a; Some b; Some c; Some d] 0) with (Ok (Some a)).
  change (py_getitem [Some a; Some b; Some c; Some d] 1) with (Ok (Some b)).
  change (py_getitem [Some a; Some b; Some c; Some d] 2) with (Ok (Some c)).
  change (py_getitem [Some a; Some b; Some c; Some d] 3) with (Ok (Some d)).
  rewrite bind_lift_Ok, (bind_pyb_Pin a OUT_PP w1), bind_modify by exact H1.
  rewrite bind_lift_Ok, (bind_pyb_Pin b OUT_PP w2), bind_modify by exact H2.
  rewrite bind_lift_Ok, (bind_pyb_Pin c OUT_PP w3), bind_modify by exact H3.
  rewrite bind_lift_Ok, (bind_pyb_Pin d IN w4), bind_modify by exact H4.
  rewrite bound_bypass_reached. fold sb.
  unfold bind at 1.
  rewrite (_bypass_test_spec _ sb a b c d eq_refl eq_refl eq_refl eq_refl
             JTAG_BYPASS_PATTERN_digits).
  cbv zeta. fold s1. fold r. fold s3.
  destruct (decide (bits_str r.1 = JTAG_BYPASS_PATTERN)); reflexivity.
Qed.

(** The body of the IDCODE loop on a candidate the port accepts. *)
Lemma idcode_candidate_spec (s : state) (a c d : PinId) (w1 w2 w3 : World) :
  board_init a OUT_PP (world s) = Some w1 ->
  board_init c OUT_PP w1 = Some w2 ->
  board_init d IN w2 = Some w3 ->
  let sb := bound_idcode a c d w3 s in
  let s1 := (run_script c d (idcode_prefix a) sb).2 in
  let r := run_script c d (shift_script a (TDI s) (py_str_mul "0" 32)) s1 in
  let s3 := (run_script c d (tms_script a (levels "010")) r.2).2 in
  let response := bits_str (rev r.1) in
  idcode_candidate [Some a; Some c; Some d] s =
  (Ok tt,
   if decide (response <> "11111111111111111111111111111111"
              /\ response <> "00000000000000000000000000000000")
   then add_log (LogInfo idcode_fmt
                   [ArgPin (Some a); ArgPin (Some c); ArgPin (Some d); ArgStr response]) s3
   else s3).
Proof.
  intros H1 H2 H3 sb s1 r s3 response.
  unfold idcode_candidate.
  change (py_getitem [Some a; Some c; Some d] 0) with (Ok (Some a)).
  change (py_getitem [Some a; Some c; Some d] 1) with (Ok (Some c)).
  change (py_getitem [Some a; Some c; Some d] 2) with (Ok (Some d)).
  rewrite bind_lift_Ok, (bind_pyb_Pin a OUT_PP w1), bind_modify by exact H1.
  rewrite bind_lift_Ok, (bind_pyb_Pin c OUT_PP w2), bind_modify by exact H2.
  rewrite bind_lift_Ok, (bind_pyb_Pin d IN w3), bind_modify by exact H3.
  rewrite bound_idcode_reached. fold sb.
  unfold bind at 1.
  rewrite (_idcode_test_spec sb a c d eq_refl eq_refl eq_refl).
  cbv zeta. change (TDI sb) with (TDI s). fold s1. fold r. fold s3. fold response.
  destruct (decide (response <> "11111111111111111111111111111111"
                    /\ response <> "00000000000000000000000000000000"));
    reflexivity.
Qed.
End TestFacts.

(** * The specification's claims *)

Section Enumerator.
Context `{board : Board}.

Lemma candidates_NoDup (pool : list PinId) (k : nat) :
  1 <= k ->
  candidates pool k =
  Ok (map (map Some) (filter (fun t => NoDup t) (cartesian pool k))).
Proof.
  intros Hk. unfold candidates. rewrite _product_cartesian by done.
  cbn [Res.bind]. f_equal.
  apply filter_fmap_iff.
  eapply Forall_impl; [apply (cartesian_length pool k)|].
  intros t Ht. cbn beta.
  rewrite <- (NoDup_fmap (@Some PinId) t).
  rewrite <- length_remove_dups_NoDup, length_map, Ht. done.
Qed.

(** C2.  Over a pool of [N] pairwise distinct pins and for arity
    [k] in {3, 4} with [k <= N], the duplicate-filtered enumeration
    (lines 112-113 and 126-127) has exactly [N! / (N-k)!] tuples; each
    has length [k], none occurs twice, none repeats a pin, and every
    entry is a pin of the pool. *)
Theorem candidates_are_the_k_permutations (pool : list PinId) (k : nat) :
  NoDup pool -> k = 3 \/ k = 4 -> k <= length pool ->
  exists tuples,
    candidates pool k = Ok tuples
    /\ length tuples = fact (length pool) / fact (length pool - k)
    /\ Forall (fun t => length t = k) tuples
    /\ NoDup tuples
    /\ Forall (fun t => NoDup t) tuples
    /\ Forall (fun t => Forall (fun o => exists p, o = Some p /\ p ∈ pool) t) tuples.
Proof.
  intros Hpool Hk Hle.
  exists (map (map Some) (filter (fun t => NoDup t) (cartesian pool k))).
  split; [apply candidates_NoDup; lia|].
  split; [by rewrite length_map, cartesian_NoDup_count, falling_quotient|].
  split.
  { apply Forall_fmap, Forall_forall. intros t [_ Ht]%list_elem_of_filter.
    cbn. rewrite length_map.
    by eapply Forall_forall in Ht; [|apply cartesian_length]. }
  split.
  { apply NoDup_fmap_2; [apply _|]. by apply NoDup_filter, cartesian_NoDup. }
  split.
  { apply Forall_fmap, Forall_forall. intros t [Ht _]%list_elem_of_filter.
    cbn. by apply NoDup_fmap_2; [apply _|]. }
  apply Forall_fmap, Forall_forall. intros t [_ Ht]%list_elem_of_filter.
  cbn. apply Forall_fmap.
  eapply Forall_forall in Ht; [|apply cartesian_elems].
  eapply Forall_impl; [exact Ht|]. intros p Hp. cbn. eauto.
Qed.

(** C8, as amended.  For every pool and every arity [k >= 1],
    [_product] yields the [k]-fold Cartesian power of the pool in
    counting order, last position fastest; for a pool of three and
    [k = 2] that is the nine pairs listed, and once the pairs with a
    repeated entry are dropped, the six listed. *)
Theorem _product_counting_order :
  (forall (pool : list PinId) (k : nat),
      1 <= k -> _product pool k = Ok (map (map Some) (cartesian pool k)))
  /\ (forall P0 P1 P2 : PinId,
        _product [P0; P1; P2] 2 =
        Ok (map (map Some)
              [[P0;P0]; [P0;P1]; [P0;P2]; [P1;P0]; [P1;P1]; [P1;P2];
               [P2;P0]; [P2;P1]; [P2;P2]])
        /\ (P0 <> P1 -> P0 <> P2 -> P1 <> P2 ->
            candidates [P0; P1; P2] 2 =
            Ok (map (map Some)
                  [[P0;P1]; [P0;P2]; [P1;P0]; [P1;P2]; [P2;P0]; [P2;P1]]))).
Proof.
  split; [intros pool k Hk; by apply _product_cartesian|].
  intros P0 P1 P2. split; [done|].
  intros H01 H02 H12. rewrite candidates_NoDup by lia. f_equal. f_equal.
  cbn [cartesian mbind list_bind fmap list_fmap app].
  assert (forall x y : PinId, x <> y -> NoDup [x; y]) as Hyes.
  { intros x y Hxy. apply NoDup_cons. split; [|apply NoDup_singleton].
    by intros ->%list_elem_of_singleton. }
  assert (forall x : PinId, ~ NoDup [x; x]) as Hno.
  { intros x [Hx _]%NoDup_cons. apply Hx, list_elem_of_here. }
  repeat first
    [ rewrite filter_cons_False by apply Hno
    | rewrite filter_cons_True by (apply Hyes; congruence) ].
  done.
Qed.
End Enumerator.

Section Engine.
Context `{board : Board}.
Local Open Scope list_scope.
Local Open Scope py_scope.

(** C4.  One call of the bit clocker [_io_values] with the clock and
    TDO lines bound and a list of (line, value) output pairs: its line
    events are, in this order and with nothing else, clock low, each
    output pair applied, clock high, clock low, TDO sampled; the call
    returns the level sampled. *)
Theorem clock_bit_trace (s : state) (tck tdo : PinId) (outs : list (PinId * nat)) :
  TCK s = Some tck -> TDO s = Some tdo ->
  exists (v : bool) (s' : state) (evs : list event),
    _io_values (map (fun o => Some o.1) outs) (map snd outs) s = (Ok v, s')
    /\ trace s' = trace s ++ evs
    /\ List.filter is_line_event evs =
         [EvWrite tck false]
         ++ map (fun o => EvWrite o.1 (py_truth o.2)) outs
         ++ [EvWrite tck true; EvWrite tck false; EvRead tdo v]
    /\ v = board_read tdo (world s').
Proof.
  intros Htck Htdo.
  rewrite (_io_values_spec outs s tck tdo Htck Htdo). cbv zeta.
  eexists _, _, _. split; [reflexivity|].
  split; [reflexivity|].
  split; [|reflexivity].
  unfold cycle_events. rewrite map_map. cbn [app List.filter is_line_event].
  f_equal. rewrite List.filter_app. cbn [List.filter is_line_event].
  f_equal. induction outs as [|o outs IH]; [done|].
  cbn [map List.filter is_line_event]. by rewrite IH.
Qed.

(** C1.  A 4-pin candidate that the port accepts, evaluated by the
    loop of [bypass_search]: the test reaches Shift-DR, the shift of
    the pattern returns the string of the TDO levels sampled in that
    stretch of the trace, the iteration ends without an exception (so
    the loop goes on with the candidates that remain), and the log
    gains the candidate's entry exactly when that string equals the
    pattern, and nothing otherwise. *)
Theorem bypass_candidate_reported_iff_pattern_returns
    (s : state) (a b c d : PinId) (w1 w2 w3 w4 : World) :
  board_init a OUT_PP (world s) = Some w1 ->
  board_init b OUT_PP w1 = Some w2 ->
  board_init c OUT_PP w2 = Some w3 ->
  board_init d IN w3 = Some w4 ->
  let comb := [Some a; Some b; Some c; Some d] in
  exists (s_dr s_sh s_end : state) (evs : list event) (response : string),
    (_restore_idle ;;; _enter_shift_ir ;;;
     _io_tms_tdi (py_str_mul "0" (Z.of_nat MAX_IR_LEN))
                 (py_str_mul "1" (Z.of_nat MAX_IR_LEN)) ;;;
     _io_tms "110" ;;; _enter_shift_dr) (bound_bypass a b c d w4 s) = (Ok tt, s_dr)
    /\ _shift_array JTAG_BYPASS_PATTERN s_dr = (Ok response, s_sh)
    /\ trace s_sh = trace s_dr ++ evs
    /\ response = bits_str (sampled evs)
    /\ bypass_candidate comb s = (Ok tt, s_end)
    /\ (forall rest, for_each (comb :: rest) bypass_candidate s =
                     for_each rest bypass_candidate s_end)
    /\ (response = JTAG_BYPASS_PATTERN ->
        log s_end = log s ++ [LogInfo bypass_fmt (map ArgPin comb)])
    /\ (response <> JTAG_BYPASS_PATTERN -> log s_end = log s).
Proof.
  intros H1 H2 H3 H4 comb.
  pose proof (bypass_candidate_spec s a b c d w1 w2 w3 w4 H1 H2 H3 H4) as Hbody.
  cbv zeta in Hbody.
  set (sb := bound_bypass a b c d w4 s) in *.
  set (s1 := (run_script c d (bypass_prefix a b) sb).2) in *.
  set (r := run_script c d (shift_script a (Some b) JTAG_BYPASS_PATTERN) s1) in *.
  set (s3 := (run_script c d (tms_script a (levels "10")) r.2).2) in *.
  destruct (run_script_trace c d (shift_script a (Some b) JTAG_BYPASS_PATTERN) s1)
    as (evs & Htr & Hsam).
  fold r in Htr, Hsam.
  eexists s1, r.2, _, evs, (bits_str r.1).
  split.
  { unfold _restore_idle, _enter_shift_ir, _enter_shift_dr. unfold bind, ret.
    rewrite (_io_tms_spec _ _ a c d) by lines.
    rewrite (_io_tms_spec _ _ a c d) by lines.
    rewrite (_io_tms_tdi_spec _ _ _ a b c d) by lines.
    rewrite (_io_tms_spec _ _ a c d) by lines.
    rewrite (_io_tms_spec _ _ a c d) by lines.
    subst s1. unfold bypass_prefix. rewrite !run_script_app. done. }
  split.
  { rewrite (_shift_array_spec _ s1 a c d) by (subst s1; lines).
    subst s1. by rewrite run_script_TDI. }
  split; [done|]. split; [by rewrite Hsam|].
  split; [exact Hbody|].
  split.
  { intros rest. unfold comb. cbn [for_each]. unfold bind at 1. by rewrite Hbody. }
  assert (log s3 = log s) as Hlog.
  { subst s3 r s1. by rewrite !run_script_log. }
  split; intros Hresp.
  - rewrite decide_True by done. unfold add_log. cbn [log]. by rewrite Hlog.
  - by rewrite decide_False.
Qed.

(** C3.  A 3-pin candidate that the port accepts, evaluated by the
    loop of [idcode_search]: the shift samples 32 TDO levels; the
    response is their string in reverse order of sampling; the log
    gains the candidate's entry with that response exactly when the 32
    levels are neither all 1 nor all 0, and nothing otherwise; the
    iteration ends without an exception. *)
Theorem idcode_candidate_reported_iff_not_degenerate
    (s : state) (a c d : PinId) (w1 w2 w3 : World) :
  board_init a OUT_PP (world s) = Some w1 ->
  board_init c OUT_PP w1 = Some w2 ->
  board_init d IN w2 = Some w3 ->
  let comb := [Some a; Some c; Some d] in
  exists (s_dr s_sh s_end : state) (evs : list event),
    (_restore_idle ;;; _enter_shift_dr) (bound_idcode a c d w3 s) = (Ok tt, s_dr)
    /\ _shift_array (py_str_mul "0" 32) s_dr = (Ok (bits_str (sampled evs)), s_sh)
    /\ trace s_sh = trace s_dr ++ evs
    /\ length (sampled evs) = 32
    /\ idcode_candidate comb s = (Ok tt, s_end)
    /\ (sampled evs <> replicate 32 true /\ sampled evs <> replicate 32 false ->
        log s_end =
        log s ++ [LogInfo idcode_fmt
                    (map ArgPin comb ++ [ArgStr (bits_str (rev (sampled evs)))])])
    /\ (sampled evs = replicate 32 true \/ sampled evs = replicate 32 false ->
        log s_end = log s).
Proof.
  intros H1 H2 H3 comb.
  pose proof (idcode_candidate_spec s a c d w1 w2 w3 H1 H2 H3) as Hbody.
  cbv zeta in Hbody.
  set (sb := bound_idcode a c d w3 s) in *.
  set (s1 := (run_script c d (idcode_prefix a) sb).2) in *.
  set (r := run_script c d (shift_script a (TDI s) (py_str_mul "0" 32)) s1) in *.
  set (s3 := (run_script c d (tms_script a (levels "010")) r.2).2) in *.
  destruct (run_script_trace c d (shift_script a (TDI s) (py_str_mul "0" 32)) s1)
    as (evs & Htr & Hsam).
  fold r in Htr, Hsam.
  eexists s1, r.2, _, evs. rewrite Hsam.
  split.
  { unfold _restore_idle, _enter_shift_dr. unfold bind, ret.
    rewrite (_io_tms_spec _ _ a c d) by lines.
    rewrite (_io_tms_spec _ _ a c d) by lines.
    subst s1. unfold idcode_prefix. rewrite !run_script_app. done. }
  split.
  { rewrite (_shift_array_spec _ s1 a c d) by (subst s1; lines).
    subst s1. by rewrite run_script_TDI. }
  split; [done|].
  split.
  { subst r. rewrite run_script_length. by destruct (TDI s). }
  split; [exact Hbody|].
  assert (log s3 = log s) as Hlog.
  { subst s3 r s1. by rewrite !run_script_log. }
  assert (forall v : bool, bits_str (rev r.1) = bits_str (replicate 32 v)
                           <-> r.1 = replicate 32 v) as Hdeg.
  { intros v. split.
    - intros Heq%bits_str_inj. apply (f_equal (@rev bool)) in Heq.
      rewrite rev_involutive in Heq. rewrite Heq. by destruct v.
    - intros ->. by destruct v. }
  change "11111111111111111111111111111111" with (bits_str (replicate 32 true)).
  change "00000000000000000000000000000000" with (bits_str (replicate 32 false)).
  split.
  - intros [Hn1 Hn0]. rewrite decide_True.
    + unfold add_log. cbn [log]. by rewrite Hlog.
    + rewrite !Hdeg. done.
  - intros Hd. rewrite decide_False; [done|].
    rewrite !Hdeg. tauto.
Qed.

End Engine.

Section Scan.
Context `{board : Board}.
Local Open Scope list_scope.
Local Open Scope py_scope.

Lemma candidates_short_pool (pool : list PinId) (k : nat) :
  1 <= k -> length pool < k -> candidates pool k = Ok [].
Proof.
  intros Hk Hlt. rewrite candidates_NoDup by done. f_equal.
  replace (filter (fun t => NoDup t) (cartesian pool k)) with (@nil (list PinId));
    [done|].
  symmetry. apply filter_none, Forall_forall. intros t Ht Hnd.
  pose proof (cartesian_length pool k) as Hlen.
  pose proof (cartesian_elems pool k) as Hel.
  rewrite Forall_forall in Hlen, Hel.
  specialize (Hlen t Ht). specialize (Hel t Ht). rewrite Forall_forall in Hel.
  pose proof (submseteq_length _ _ (NoDup_submseteq t pool Hnd Hel)). lia.
Qed.

(** C6, as amended.  Over a pool smaller than the arity (4 for
    [bypass_search], 3 for [idcode_search]) the search returns at once
    and normally: nothing is raised, nothing is logged, no candidate is
    bound or tested, and the state is the one it started from. *)
Theorem short_pool_scans_nothing (pool : list PinId) (s : state) :
  (length pool < JTAG_PINS_BYPASS_COUNT -> bypass_search pool s = (Ok tt, s))
  /\ (length pool < JTAG_PINS_IDCODE_COUNT -> idcode_search pool s = (Ok tt, s)).
Proof.
  split; intros Hlt.
  - unfold bypass_search, bind, lift.
    by rewrite candidates_short_pool by (done || (unfold JTAG_PINS_BYPASS_COUNT; lia)).
  - unfold idcode_search, bind, lift.
    by rewrite candidates_short_pool by (done || (unfold JTAG_PINS_IDCODE_COUNT; lia)).
Qed.

Lemma for_each_raises {X} (body : X -> M unit) (x : X) (rest : list X)
    (s s' : state) (e : exn) :
  body x s = (Raise e, s') -> for_each (x :: rest) body s = (Raise e, s').
Proof. intros H. cbn [for_each]. unfold bind. by rewrite H. Qed.

Lemma bypass_candidate_refused (s : state) (a b c d : PinId) :
  refuses [(a, OUT_PP); (b, OUT_PP); (c, OUT_PP); (d, IN)] (world s) ->
  exists s', bypass_candidate [Some a; Some b; Some c; Some d] s
               = (Raise ValueError, s')
             /\ log s' = log s.
Proof.
  cbn [refuses]. intros Href. unfold bypass_candidate.
  change (py_getitem [Some a; Some b; Some c; Some d] 0) with (Ok (Some a)).
  change (py_getitem [Some a; Some b; Some c; Some d] 1) with (Ok (Some b)).
  change (py_getitem [Some a; Some b; Some c; Some d] 2) with (Ok (Some c)).
  change (py_getitem [Some a; Some b; Some c; Some d] 3) with (Ok (Some d)).
  rewrite bind_lift_Ok.
  destruct (board_init a OUT_PP (world s)) as [w1|] eqn:H1;
    [|rewrite bind_pyb_Pin_refused by done; eauto].
  rewrite (bind_pyb_Pin a OUT_PP w1), bind_modify, bind_lift_Ok by done.
  destruct (board_init b OUT_PP w1) as [w2|] eqn:H2;
    [|rewrite bind_pyb_Pin_refused by done; eauto].
  rewrite (bind_pyb_Pin b OUT_PP w2), bind_modify, bind_lift_Ok by done.
  destruct (board_init c OUT_PP w2) as [w3|] eqn:H3;
    [|rewrite bind_pyb_Pin_refused by done; eauto].
  rewrite (bind_pyb_Pin c OUT_PP w3), bind_modify, bind_lift_Ok by done.
  destruct (board_init d IN w3) as [w4|] eqn:H4;
    [done|rewrite bind_pyb_Pin_refused by done; eauto].
Qed.

Lemma idcode_candidate_refused (s : state) (a c d : PinId) :
  refuses [(a, OUT_PP); (c, OUT_PP); (d, IN)] (world s) ->
  exists s', idcode_candidate [Some a; Some c; Some d] s
               = (Raise ValueError, s')
             /\ log s' = log s.
Proof.
  cbn [refuses]. intros Href. unfold idcode_candidate.
  change (py_getitem [Some a; Some c; Some d] 0) with (Ok (Some a)).
  change (py_getitem [Some a; Some c; Some d] 1) with (Ok (Some c)).
  change (py_getitem [Some a; Some c; Some d] 2) with (Ok (Some d)).
  rewrite bind_lift_Ok.
  destruct (board_init a OUT_PP (world s)) as [w1|] eqn:H1;
    [|rewrite bind_pyb_Pin_refused by done; eauto].
  rewrite (bind_pyb_Pin a OUT_PP w1), bind_modify, bind_lift_Ok by done.
  destruct (board_init c OUT_PP w1) as [w2|] eqn:H2;
    [|rewrite bind_pyb_Pin_refused by done; eauto].
  rewrite (bind_pyb_Pin c OUT_PP w2), bind_modify, bind_lift_Ok by done.
  destruct (board_init d IN w2) as [w3|] eqn:H3;
    [done|rewrite bind_pyb_Pin_refused by done; eauto].
Qed.

(** C9, as amended.  When the port refuses to configure one of a
    candidate's pins, the [ValueError] of [pyb.Pin] leaves the loop:
    nothing is reported for that candidate, and the scan ends there
    with the exception, whatever candidates remain. *)
Theorem refused_pin_ends_the_scan (s : state) (a b c d : PinId) :
  (refuses [(a, OUT_PP); (b, OUT_PP); (c, OUT_PP); (d, IN)] (world s) ->
   exists s', log s' = log s
     /\ forall rest,
          for_each ([Some a; Some b; Some c; Some d] :: rest) bypass_candidate s
          = (Raise ValueError, s'))
  /\ (refuses [(a, OUT_PP); (b, OUT_PP); (c, IN)] (world s) ->
      exists s', log s' = log s
        /\ forall rest,
             for_each ([Some a; Some b; Some c] :: rest) idcode_candidate s
             = (Raise ValueError, s')).
Proof.
  split; intros Href.
  - destruct (bypass_candidate_refused s a b c d Href) as (s' & Hbody & Hlog).
    exists s'. split; [done|]. intros rest. by apply for_each_raises.
  - destruct (idcode_candidate_refused s a b c Href) as (s' & Hbody & Hlog).
    exists s'. split; [done|]. intros rest. by apply for_each_raises.
Qed.
End Scan.

(** ** What rebinds TDI and what does not *)

Create HintDb keeps.

Section Frame.
Context `{board : Board}.
Local Open Scope list_scope.
Local Open Scope py_scope.

Lemma keeps_ret {A} (a : A) : keeps_TDI (ret a).
Proof. done. Qed.
Lemma keeps_lift {A} (r : result A) : keeps_TDI (lift r).
Proof. done. Qed.
Lemma keeps_gets {A} (f : state -> A) : keeps_TDI (gets f).
Proof. done. Qed.
Lemma keeps_modify (g : state -> state) :
  (forall s, TDI (g s) = TDI s) -> keeps_TDI (modify g).
Proof. intros Hg s. apply Hg. Qed.
Lemma keeps_pyb_delay (ms : nat) : keeps_TDI (pyb_delay ms).
Proof. done. Qed.
Lemma keeps_pin_set (p : option PinId) (b : bool) : keeps_TDI (pin_set p b).
Proof. intros s. by destruct p. Qed.
Lemma keeps_pin_get (p : option PinId) : keeps_TDI (pin_get p).
Proof. intros s. by destruct p. Qed.
Lemma keeps_pyb_Pin (id : option PinId) (m : pin_mode) : keeps_TDI (pyb_Pin id m).
Proof.
  intros s. unfold pyb_Pin. destruct id as [p|]; [|done].
  by destruct (board_init p m (world s)).
Qed.

Lemma keeps_bind {A B} (m : M A) (f : A -> M B) :
  keeps_TDI m -> (forall a, keeps_TDI (f a)) -> keeps_TDI (bind m f).
Proof.
  intros Hm Hf s. unfold bind. specialize (Hm s).
  destruct (m s) as [[a|e] s1]; cbn [snd] in *; [|done].
  by rewrite Hf.
Qed.

Lemma keeps_mapM {A B} (f : A -> M B) (l : list A) :
  (forall x, keeps_TDI (f x)) -> keeps_TDI (mapM f l).
Proof.
  intros Hf. induction l as [|x l IH]; [done|].
  cbn [mapM]. apply keeps_bind; [done|]. intros y.
  apply keeps_bind; [done|]. intros ys. done.
Qed.

Lemma keeps_for_each {A} (body : A -> M unit) (l : list A) :
  (forall x, keeps_TDI (body x)) -> keeps_TDI (for_each l body).
Proof.
  intros Hf. induction l as [|x l IH]; [done|].
  cbn [for_each]. by apply keeps_bind.
Qed.

Ltac keeps :=
  repeat lazymatch goal with
    | |- forall _, _ => intros ?
    | |- keeps_TDI (bind _ _) => apply keeps_bind
    | |- keeps_TDI (ret _) => apply keeps_ret
    | |- keeps_TDI (lift _) => apply keeps_lift
    | |- keeps_TDI (gets _) => apply keeps_gets
    | |- keeps_TDI (modify _) => apply keeps_modify; intros ?; reflexivity
    | |- keeps_TDI (mapM _ _) => apply keeps_mapM
    | |- keeps_TDI (for_each _ _) => apply keeps_for_each
    | |- keeps_TDI (pyb_delay _) => apply keeps_pyb_delay
    | |- keeps_TDI (pin_set _ _) => apply keeps_pin_set
    | |- keeps_TDI (pin_get _) => apply keeps_pin_get
    | |- keeps_TDI (pyb_Pin _ _) => apply keeps_pyb_Pin
    | |- keeps_TDI (match ?x with _ => _ end) => destruct x
    | |- keeps_TDI _ => solve [auto with keeps]
    end.

Lemma keeps_io_values pins states : keeps_TDI (_io_values pins states).
Proof. unfold _io_values. keeps. Qed.
#[local] Hint Resolve keeps_io_values : keeps.

Lemma keeps_io_tms values : keeps_TDI (_io_tms values).
Proof. unfold _io_tms. keeps. Qed.
#[local] Hint Resolve keeps_io_tms : keeps.

Lemma keeps_io_tms_tdi v1 v2 : keeps_TDI (_io_tms_tdi v1 v2).
Proof. unfold _io_tms_tdi. keeps. Qed.
#[local] Hint Resolve keeps_io_tms_tdi : keeps.

Lemma keeps_idcode_test : keeps_TDI _idcode_test.
Proof.
  unfold _idcode_test, _restore_idle, _enter_shift_dr, _shift_array. keeps.
Qed.
#[local] Hint Resolve keeps_idcode_test : keeps.

Lemma keeps_idcode_candidate comb : keeps_TDI (idcode_candidate comb).
Proof. unfold idcode_candidate. keeps. Qed.
#[local] Hint Resolve keeps_idcode_candidate : keeps.

Lemma keeps_idcode_search pool : keeps_TDI (idcode_search pool).
Proof. unfold idcode_search. keeps. Qed.

Lemma bypass_loop_leaves_TDI (pool : list PinId) :
  (forall p m w, p ∈ pool -> is_Some (board_init p m w)) ->
  forall (l : list (list (option PinId))) (s : state),
    Forall (fun t => exists a b c d,
              t = [Some a; Some b; Some c; Some d]
              /\ a ∈ pool /\ b ∈ pool /\ c ∈ pool /\ d ∈ pool) l ->
    exists s', for_each l bypass_candidate s = (Ok tt, s')
               /\ (forall t, last l = Some t -> t !! 1 = Some (TDI s'))
               /\ (l = [] -> s' = s).
Proof.
  intros Hacc l. induction l as [|t l IH]; intros s Hl.
  { exists s. by split_and!. }
  apply Forall_cons in Hl as [(a & b & c & d & -> & Ha & Hb & Hc & Hd) Hl].
  destruct (Hacc a OUT_PP (world s) Ha) as [w1 H1].
  destruct (Hacc b OUT_PP w1 Hb) as [w2 H2].
  destruct (Hacc c OUT_PP w2 Hc) as [w3 H3].
  destruct (Hacc d IN w3 Hd) as [w4 H4].
  pose proof (bypass_candidate_spec s a b c d w1 w2 w3 w4 H1 H2 H3 H4) as Hbody.
  cbv zeta in Hbody.
  match type of Hbody with _ = (_, ?st) => set (s1 := st) in * end.
  assert (TDI s1 = Some b) as Htdi.
  { subst s1. case_decide; unfold add_log; cbn [TDI]; by rewrite !run_script_TDI. }
  destruct (IH s1 Hl) as (s' & Hrun & Hlast & Hnil).
  exists s'. split; [|split; [|done]].
  - cbn [for_each]. unfold bind. by rewrite Hbody.
  - intros t. destruct l as [|t' l].
    + rewrite last_singleton. intros [= <-]. rewrite (Hnil eq_refl), Htdi. done.
    + rewrite last_cons_cons. apply Hlast.
Qed.

Lemma candidates_shape (pool : list PinId) (filtered : list (list (option PinId))) :
  candidates pool 4 = Ok filtered ->
  Forall (fun t => exists a b c d,
            t = [Some a; Some b; Some c; Some d]
            /\ a ∈ pool /\ b ∈ pool /\ c ∈ pool /\ d ∈ pool) filtered.
Proof.
  rewrite candidates_NoDup by lia. intros [= <-].
  apply Forall_fmap, Forall_forall. intros t [_ Ht]%list_elem_of_filter.
  pose proof (cartesian_length pool 4) as Hlen.
  pose proof (cartesian_elems pool 4) as Hel.
  rewrite Forall_forall in Hlen, Hel.
  specialize (Hlen t Ht). specialize (Hel t Ht).
  destruct t as [|a [|b [|c [|d [|? ?]]]]]; try done.
  apply Forall_cons in Hel as [Ha Hel]. apply Forall_cons in Hel as [Hb Hel].
  apply Forall_cons in Hel as [Hc Hel]. apply Forall_cons in Hel as [Hd _].
  cbn. eauto 10.
Qed.

Lemma candidates_shape3 (pool : list PinId) (filtered : list (list (option PinId))) :
  candidates pool 3 = Ok filtered ->
  Forall (fun t => exists a c d,
            t = [Some a; Some c; Some d] /\ a ∈ pool /\ c ∈ pool /\ d ∈ pool)
         filtered.
Proof.
  rewrite candidates_NoDup by lia. intros [= <-].
  apply Forall_fmap, Forall_forall. intros t [_ Ht]%list_elem_of_filter.
  pose proof (cartesian_length pool 3) as Hlen.
  pose proof (cartesian_elems pool 3) as Hel.
  rewrite Forall_forall in Hlen, Hel.
  specialize (Hlen t Ht). specialize (Hel t Ht).
  destruct t as [|a [|c [|d [|? ?]]]]; try done.
  apply Forall_cons in Hel as [Ha Hel]. apply Forall_cons in Hel as [Hc Hel].
  apply Forall_cons in Hel as [Hd _].
  cbn. eauto 10.
Qed.

(** A loop over [l1 ++ l2] whose first stretch ends normally goes on
    with the second from the state reached. *)
Lemma for_each_app {A} (body : A -> M unit) (l1 l2 : list A) (s s1 : state) :
  for_each l1 body s = (Ok tt, s1) ->
  for_each (l1 ++ l2) body s = for_each l2 body s1.
Proof.
  revert s. induction l1 as [|x l1 IH]; intros s Hrun.
  { cbn in Hrun. by injection Hrun as ->. }
  cbn [for_each app] in *. unfold bind in *.
  destruct (body x s) as [[[]|e] s']; [|done].
  by apply IH.
Qed.

(** The loop of [idcode_search] over candidates the port accepts ends
    normally. *)
Lemma idcode_loop_returns (pool : list PinId) :
  (forall p m w, p ∈ pool -> is_Some (board_init p m w)) ->
  forall (l : list (list (option PinId))) (s : state),
    Forall (fun t => exists a c d,
              t = [Some a; Some c; Some d] /\ a ∈ pool /\ c ∈ pool /\ d ∈ pool) l ->
    exists s', for_each l idcode_candidate s = (Ok tt, s').
Proof.
  intros Hacc l. induction l as [|t l IH]; intros s Hl.
  { by exists s. }
  apply Forall_cons in Hl as [(a & c & d & -> & Ha & Hc & Hd) Hl].
  destruct (Hacc a OUT_PP (world s) Ha) as [w1 H1].
  destruct (Hacc c OUT_PP w1 Hc) as [w2 H2].
  destruct (Hacc d IN w2 Hd) as [w3 H3].
  pose proof (idcode_candidate_spec s a c d w1 w2 w3 H1 H2 H3) as Hbody.
  cbv zeta in Hbody.
  match type of Hbody with _ = (_, ?st) => set (s1 := st) in * end.
  destruct (IH s1 Hl) as (s' & Hrun).
  exists s'. cbn [for_each]. unfold bind. by rewrite Hbody.
Qed.

(** C10.  (1) When the port accepts every pin of the pool,
    [bypass_search] returns with the global [TDI] bound to the TDI pin
    of the last candidate it evaluated.  (2) [idcode_search] never
    changes [TDI].  (3) One turn of the loop of [idcode_search] on a
    candidate the port accepts: after the nine cycles into Shift-DR the
    shift depends on what [TDI] held on entry: bound to a pin, TMS is
    driven 0 on 31 clocks and 1 on the 32nd while the zero payload goes
    to that stale pin; [None], the payload goes to TMS, which stays 0
    on all 32 clocks; the turn ends, without an exception and with
    [TDI] as it was, three cycles after that shift.  (4) When the port
    accepts every pin of the pool, [idcode_search] gives every
    candidate of its enumeration such a turn, each entered with the
    [TDI] the search was entered with. *)
Theorem stale_TDI_reaches_idcode_shift :
  (forall (pool : list PinId) (s : state) filtered comb,
      (forall p m w, p ∈ pool -> is_Some (board_init p m w)) ->
      candidates pool JTAG_PINS_BYPASS_COUNT = Ok filtered ->
      last filtered = Some comb ->
      exists s' tdi, bypass_search pool s = (Ok tt, s')
                     /\ comb !! 1 = Some (Some tdi) /\ TDI s' = Some tdi)
  /\ (forall (pool : list PinId) (s : state),
        TDI (idcode_search pool s).2 = TDI s)
  /\ (forall (s : state) (a c d : PinId) (w1 w2 w3 : World),
        board_init a OUT_PP (world s) = Some w1 ->
        board_init c OUT_PP w1 = Some w2 ->
        board_init d IN w2 = Some w3 ->
        exists (s_dr s_sh s_end : state) (response : string),
          (_restore_idle ;;; _enter_shift_dr) (bound_idcode a c d w3 s) = (Ok tt, s_dr)
          /\ _shift_array (py_str_mul "0" 32) s_dr = (Ok response, s_sh)
          /\ s_sh =
              (run_script c d
                 match TDI s with
                 | Some tdi =>
                     replicate 31 [(a, false); (tdi, false)]
                     ++ [[(a, true); (tdi, false)]]
                 | None => replicate 32 [(a, false)]
                 end s_dr).2
          /\ idcode_candidate [Some a; Some c; Some d] s = (Ok tt, s_end)
          /\ trace s_end = trace (run_script c d (tms_script a (levels "010")) s_sh).2
          /\ world s_end = world (run_script c d (tms_script a (levels "010")) s_sh).2
          /\ TDI s_end = TDI s)
  /\ (forall (pool : list PinId) (s : state) filtered pre comb rest,
        (forall p m w, p ∈ pool -> is_Some (board_init p m w)) ->
        candidates pool JTAG_PINS_IDCODE_COUNT = Ok filtered ->
        filtered = pre ++ comb :: rest ->
        exists (s0 s_end : state) (a c d : PinId) (w1 w2 w3 : World),
          comb = [Some a; Some c; Some d]
          /\ for_each pre idcode_candidate s = (Ok tt, s0)
          /\ TDI s0 = TDI s
          /\ board_init a OUT_PP (world s0) = Some w1
          /\ board_init c OUT_PP w1 = Some w2
          /\ board_init d IN w2 = Some w3
          /\ idcode_candidate comb s0 = (Ok tt, s_end)
          /\ idcode_search pool s = for_each rest idcode_candidate s_end).
Proof.
  split_and!.
  - intros pool s filtered comb Hacc Hcand Hlast.
    destruct (bypass_loop_leaves_TDI pool Hacc filtered s (candidates_shape _ _ Hcand))
      as (s' & Hrun & Htdi & _).
    pose proof (candidates_shape _ _ Hcand) as Hshape.
    rewrite Forall_forall in Hshape.
    destruct (Hshape comb (last_Some_elem_of _ _ Hlast))
      as (a & b & c & d & -> & _).
    exists s', b. split.
    + unfold bypass_search, bind, lift. by rewrite Hcand.
    + split; [done|]. specialize (Htdi _ Hlast). by injection Htdi as <-.
  - intros pool s. apply keeps_idcode_search.
  - intros s a c d w1 w2 w3 H1 H2 H3.
    pose proof (idcode_candidate_spec s a c d w1 w2 w3 H1 H2 H3) as Hbody.
    cbv zeta in Hbody.
    set (sb := bound_idcode a c d w3 s) in *.
    set (s1 := (run_script c d (idcode_prefix a) sb).2) in *.
    set (r := run_script c d (shift_script a (TDI s) (py_str_mul "0" 32)) s1) in *.
    set (s3 := (run_script c d (tms_script a (levels "010")) r.2).2) in *.
    eexists s1, r.2, _, (bits_str r.1). split_and!.
    + unfold _restore_idle, _enter_shift_dr. unfold bind, ret.
      rewrite (_io_tms_spec _ _ a c d) by lines.
      rewrite (_io_tms_spec _ _ a c d) by lines.
      subst s1. unfold idcode_prefix. rewrite !run_script_app. done.
    + rewrite (_shift_array_spec _ s1 a c d) by (subst s1; lines).
      subst s1. by rewrite run_script_TDI.
    + subst r. by destruct (TDI s).
    + exact Hbody.
    + by case_decide.
    + by case_decide.
    + assert (TDI s3 = TDI s) as Htdi.
      { subst s3 r s1. by rewrite !run_script_TDI. }
      by case_decide.
  - intros pool s filtered pre comb rest Hacc Hcand ->.
    pose proof (candidates_shape3 _ _ Hcand) as Hshape.
    apply Forall_app in Hshape as [Hpre Hshape].
    apply Forall_cons in Hshape as [(a & c & d & -> & Ha & Hc & Hd) _].
    destruct (idcode_loop_returns pool Hacc pre s Hpre) as (s0 & Hrun).
    destruct (Hacc a OUT_PP (world s0) Ha) as [w1 H1].
    destruct (Hacc c OUT_PP w1 Hc) as [w2 H2].
    destruct (Hacc d IN w2 Hd) as [w3 H3].
    pose proof (idcode_candidate_spec s0 a c d w1 w2 w3 H1 H2 H3) as Hbody.
    cbv zeta in Hbody.
    match type of Hbody with _ = (_, ?st) => set (s_end := st) in * end.
    exists s0, s_end, a, c, d, w1, w2, w3. split_and!; try done.
    + pose proof (keeps_for_each idcode_candidate pre keeps_idcode_candidate s) as Hk.
      by rewrite Hrun in Hk.
    + unfold idcode_search, bind, lift. rewrite Hcand.
      rewrite (for_each_app _ _ _ _ _ Hrun).
      cbn [for_each]. unfold bind. by rewrite Hbody.
Qed.
End Frame.

(** * The specification's claims on the bench board *)

Local Open Scope list_scope.
Local Open Scope py_scope.

Lemma bench_accepts (pool : list nat) :
  Forall (fun p => p < 8) pool ->
  forall p m w, p ∈ pool -> is_Some (board_init p m w).
Proof.
  intros Hpool p m w Hp. rewrite Forall_forall in Hpool.
  specialize (Hpool p Hp). cbn. unfold Bench.init.
  destruct (decide (p < 8)); [eauto|lia].
Qed.

(** The bench loop returns the pattern: candidate (0, 1, 2, 3) is
    evaluated without an exception and reported. *)
Lemma bypass_candidate_reported_on_bench :
  exists s_end,
    bypass_candidate [Some 0; Some 1; Some 2; Some 3] Bench.power_on = (Ok tt, s_end)
    /\ log s_end =
       [LogInfo bypass_fmt [ArgPin (Some 0); ArgPin (Some 1); ArgPin (Some 2); ArgPin (Some 3)]].
Proof.
  destruct (bypass_candidate_reported_iff_pattern_returns (board := Bench.board) Bench.power_on 0 1 2 3
              _ _ _ _ eq_refl eq_refl eq_refl eq_refl)
    as (s_dr & s_sh & s_end & evs & response & _ & _ & _ & _ & Hbody & _).
  exists s_end. split; [exact Hbody|].
  apply (f_equal (fun r => log r.2)) in Hbody.
  vm_compute in Hbody. symmetry. exact Hbody.
Defined.

(** On a fresh module the bench answers the IDCODE test of candidate
    (0, 1, 3) with 32 zeros, and nothing is logged. *)
Lemma idcode_candidate_skipped_on_bench :
  exists s_end,
    idcode_candidate [Some 0; Some 1; Some 3] Bench.power_on = (Ok tt, s_end)
    /\ log s_end = [].
Proof.
  destruct (idcode_candidate_reported_iff_not_degenerate (board := Bench.board) Bench.power_on 0 1 3
              _ _ _ eq_refl eq_refl eq_refl)
    as (s_dr & s_sh & s_end & evs & _ & _ & _ & _ & Hbody & _).
  exists s_end. split; [exact Hbody|].
  apply (f_equal (fun r => log r.2)) in Hbody.
  vm_compute in Hbody. symmetry. exact Hbody.
Defined.

Lemma clock_bit_trace_on_bench :
  exists v s',
    _io_values [Some 0; Some 1] [0; 1] Bench.bound = (Ok v, s')
    /\ List.filter is_line_event (trace s') =
       [EvWrite 2 false; EvWrite 0 false; EvWrite 1 true;
        EvWrite 2 true; EvWrite 2 false; EvRead 3 v].
Proof.
  destruct (clock_bit_trace (board := Bench.board) Bench.bound 2 3 [(0, 0); (1, 1)] eq_refl eq_refl)
    as (v & s' & evs & Hrun & Htr & Hev & _).
  exists v, s'. split; [exact Hrun|].
  rewrite Htr. exact Hev.
Defined.

Lemma candidates_of_four_pins :
  exists tuples,
    candidates (board := Bench.board) [0; 1; 2; 3] 3 = Ok tuples /\ length tuples = 24.
Proof.
  destruct (candidates_are_the_k_permutations (board := Bench.board) [0; 1; 2; 3] 3)
    as (tuples & Hc & Hlen & _).
  - repeat (apply NoDup_cons_2;
            [intros H; repeat (apply elem_of_cons in H as [H|H]; [discriminate H|]);
             by apply elem_of_nil in H|]).
    apply NoDup_nil_2.
  - left. reflexivity.
  - simpl. lia.
  - exists tuples. split; [exact Hc|]. rewrite Hlen. reflexivity.
Defined.


Lemma short_pool_on_bench :
  bypass_search (board := Bench.board) [0; 1; 2] Bench.power_on = (Ok tt, Bench.power_on)
  /\ idcode_search (board := Bench.board) [0; 1] Bench.power_on = (Ok tt, Bench.power_on).
Proof.
  split.
  - apply (proj1 (short_pool_scans_nothing (board := Bench.board) [0; 1; 2] Bench.power_on)).
    unfold JTAG_PINS_BYPASS_COUNT. simpl. lia.
  - apply (proj2 (short_pool_scans_nothing (board := Bench.board) [0; 1] Bench.power_on)).
    unfold JTAG_PINS_IDCODE_COUNT. simpl. lia.
Defined.

Lemma product_of_two_pins :
  _product [0; 1] 2 = Ok (map (map Some) [[0; 0]; [0; 1]; [1; 0]; [1; 1]]).
Proof.
  apply (proj1 (_product_counting_order (board := Bench.board)) [0; 1] 2). lia.
Defined.

Lemma refused_pin_on_bench :
  exists s',
    log s' = log Bench.power_on
    /\ for_each [[Some 0; Some 1; Some 2; Some 8]; [Some 0; Some 1; Some 2; Some 3]]
         bypass_candidate Bench.power_on = (Raise ValueError, s').
Proof.
  destruct (proj1 (refused_pin_ends_the_scan (board := Bench.board) Bench.power_on 0 1 2 8)) as (s' & Hlog & Hrun).
  - vm_compute. exact I.
  - exists s'. split; [exact Hlog|]. apply Hrun.
Defined.

Lemma stale_TDI_on_bench :
  exists s', bypass_search (board := Bench.board) [0; 1; 2; 3] Bench.power_on = (Ok tt, s')
             /\ TDI s' = Some 2
             /\ TDI (idcode_search (board := Bench.board) [0; 1; 2] s').2 = Some 2
             /\ exists s_dr s_sh s_end,
                  s_sh = (run_script (board := Bench.board) 1 2
                            (replicate 31 [(0, false); (2, false)]
                             ++ [[(0, true); (2, false)]]) s_dr).2
                  /\ idcode_candidate (board := Bench.board)
                       [Some 0; Some 1; Some 2] s' = (Ok tt, s_end)
                  /\ trace s_end
                     = trace (run_script (board := Bench.board) 1 2
                                (tms_script 0 (levels "010")) s_sh).2.
Proof.
  destruct (stale_TDI_reaches_idcode_shift (board := Bench.board))
    as (Hbypass & Hidcode & Hturn & _).
  assert (forall p m w, p ∈ [0; 1; 2; 3] -> is_Some (Bench.init p m w)) as Hacc.
  { apply bench_accepts. repeat constructor; lia. }
  destruct (Hbypass [0; 1; 2; 3] Bench.power_on _ [Some 3; Some 2; Some 1; Some 0]
              Hacc eq_refl eq_refl)
    as (s' & tdi & Hrun & Hcomb & Htdi).
  exists s'. injection Hcomb as <-.
  split; [exact Hrun|]. split; [exact Htdi|].
  split; [rewrite Hidcode; exact Htdi|].
  destruct (Hturn s' 0 1 2 _ _ _ eq_refl eq_refl eq_refl)
    as (s_dr & s_sh & s_end & response & _ & _ & Hsh & Hbody & Htr & _).
  rewrite Htdi in Hsh.
  exists s_dr, s_sh, s_end. split; [exact Hsh|]. split; [exact Hbody|exact Htr].
Defined.

(** C6 as stated fails: over a pool of three pins [bypass_search]
    reports no error at all, neither by raising nor through the log. *)
Lemma short_pool_reports_no_error :
  ~ reports_error Bench.power_on (bypass_search (board := Bench.board) [0; 1; 2] Bench.power_on).
Proof.
  replace (bypass_search (board := Bench.board) [0; 1; 2] Bench.power_on) with (Ok tt, Bench.power_on)
    by (vm_compute; reflexivity).
  intros [[e He]|Hlog]; [discriminate He|by apply Hlog].
Qed.


(** C8 as stated fails at arity 0: the assignment [v[repeat - 1]]
    raises [IndexError] on the empty list, while the 0-fold Cartesian
    power holds the empty tuple. *)
Lemma _product_arity_0_raises :
  ~ (forall (pool : list nat) (k : nat),
       _product pool k = Ok (map (map Some) (cartesian pool k))).
Proof. intros H. specialize (H [7] 0). discriminate H. Qed.

(** C9 as stated fails: over the pool [0, 1, 2, 3, 8] the second
    candidate, (0, 1, 2, 8), has a pin the bench refuses; the scan ends
    there with [ValueError], and of the 118 candidates that remain none
    is evaluated: (2, 1, 0, 3), which the bench would answer with the
    pattern, is never reported. *)
Lemma refused_pin_aborts_bench_scan :
  let r := bypass_search (board := Bench.board) [0; 1; 2; 3; 8] Bench.power_on in
  r.1 = Raise ValueError
  /\ log r.2 =
     [LogInfo bypass_fmt [ArgPin (Some 0); ArgPin (Some 1); ArgPin (Some 2); ArgPin (Some 3)]]
  /\ (exists filtered,
        candidates (board := Bench.board) [0; 1; 2; 3; 8] 4 = Ok filtered
        /\ filtered !! 1 = Some [Some 0; Some 1; Some 2; Some 8]
        /\ length filtered = 120
        /\ filtered !! 54 = Some [Some 2; Some 1; Some 0; Some 3])
  /\ log (bypass_candidate [Some 2; Some 1; Some 0; Some 3] r.2).2 =
     log r.2 ++
     [LogInfo bypass_fmt [ArgPin (Some 2); ArgPin (Some 1); ArgPin (Some 0); ArgPin (Some 3)]].
Proof.
  cbv zeta. split_and!.
  - vm_compute. reflexivity.
  - vm_compute. reflexivity.
  - eexists. split; [vm_compute; reflexivity|]. split_and!; reflexivity.
  - vm_compute. reflexivity.
Qed.

(** C5 fails on the code.  After [bypass_search] over pins 0 to 3 the
    global [TDI] is still bound (to pin 2).  The IDCODE test of
    candidate (0, 1, 2) that follows takes the branch of the generic
    shift meant for a bound TDI line: the levels written to TMS (pin 0)
    on the 32 capture clocks are 31 zeros and then a one. *)
Theorem idcode_after_bypass_drives_TMS_high :
  exists (s1 s_dr s_sh : state) (evs : list event) (response : string),
    bypass_search (board := Bench.board) [0; 1; 2; 3] Bench.power_on = (Ok tt, s1)
    /\ TDI s1 = Some 2
    /\ (_restore_idle ;;; _enter_shift_dr) (bound_idcode 0 1 2 (world s1) s1)
       = (Ok tt, s_dr)
    /\ _shift_array (py_str_mul "0" 32) s_dr = (Ok response, s_sh)
    /\ trace s_sh = trace s_dr ++ evs
    /\ written (board := Bench.board) 0 evs = replicate 31 false ++ [true].
Proof.
  assert (forall p m w, p ∈ [0; 1; 2; 3] -> is_Some (Bench.init p m w)) as Hacc.
  { apply bench_accepts. repeat constructor; lia. }
  pose proof (candidates_NoDup (board := Bench.board) [0; 1; 2; 3] 4 ltac:(lia))
    as Hcand.
  destruct (bypass_loop_leaves_TDI (board := Bench.board) [0; 1; 2; 3] Hacc _
              Bench.power_on (candidates_shape _ _ Hcand))
    as (s1 & Hrun & Hlast & _).
  specialize (Hlast [Some 3; Some 2; Some 1; Some 0] eq_refl).
  injection Hlast as Htdi. symmetry in Htdi.
  set (sb := bound_idcode (board := Bench.board) 0 1 2 (world s1) s1).
  set (s_dr := (run_script (board := Bench.board) 1 2 (idcode_prefix (board := Bench.board) 0) sb).2).
  set (script := shift_script (board := Bench.board) 0 (Some 2) (py_str_mul "0" 32)).
  exists s1, s_dr, (run_script (board := Bench.board) 1 2 script s_dr).2,
         (run_cycles (board := Bench.board) 1 2 script (world s_dr)).1.2,
         (bits_str (run_script (board := Bench.board) 1 2 script s_dr).1).
  split_and!.
  - unfold bypass_search, bind, lift.
    unfold JTAG_PINS_BYPASS_COUNT. by rewrite Hcand.
  - exact Htdi.
  - unfold _restore_idle, _enter_shift_dr. unfold bind, ret.
    rewrite (_io_tms_spec (board := Bench.board) _ _ 0 1 2) by lines.
    rewrite (_io_tms_spec (board := Bench.board) _ _ 0 1 2) by lines.
    subst s_dr. unfold idcode_prefix. rewrite !run_script_app. done.
  - rewrite (_shift_array_spec (board := Bench.board) _ s_dr 0 1 2) by (subst s_dr; lines).
    subst s_dr. rewrite run_script_TDI. change (TDI sb) with (TDI s1).
    by rewrite Htdi.
  - apply run_script_events.
  - generalize (world s_dr). intros w. vm_compute. reflexivity.
Qed.

Local Open Scope string_scope.
Local Open Scope nat_scope.


(** * Further properties of the engine *)

Section EnumeratorMore.
Context {A : Type}.

Lemma cartesian_size (pool : list A) (k : nat) :
  length (cartesian pool k) = length pool ^ k.
Proof.
  induction k as [|k IH]; [done|]. cbn [cartesian].
  rewrite (length_bind_const _ (length pool ^ k)).
  - by rewrite Nat.pow_succ_r'.
  - apply Forall_forall. intros x _. by rewrite length_fmap.
Qed.

(** X1.  Before the duplicate filter, [_product] over [n] items with
    arity [k >= 1] yields [n ^ k] tuples, tuples with repeated items
    included; each has [k] slots, all of them set to items of the pool. *)
Theorem _product_yields_all_tuples (items : list A) (k : nat) :
  1 <= k ->
  exists tuples,
    _product items k = Ok tuples
    /\ length tuples = length items ^ k
    /\ Forall (fun t => length t = k
                        /\ Forall (fun o => exists x, o = Some x /\ x ∈ items) t)
              tuples.
Proof.
  intros Hk. exists (map (map Some) (cartesian items k)).
  split; [by apply _product_cartesian|].
  split; [by rewrite length_map, cartesian_size|].
  apply Forall_fmap, Forall_forall. intros t Ht. cbn. split.
  - rewrite length_map.
    by eapply Forall_forall in Ht; [|apply cartesian_length].
  - apply Forall_fmap.
    eapply Forall_forall in Ht; [|apply cartesian_elems].
    eapply Forall_impl; [exact Ht|]. intros x Hx. cbn. eauto.
Qed.

(** X2.  With arity 0 [_product] yields nothing and raises as soon as
    it is consumed: [ZeroDivisionError] from [k % n] over an empty pool,
    [IndexError] from [v[repeat - 1]] otherwise. *)
Theorem _product_arity_0 (items : list A) :
  _product items 0 =
  Raise (if decide (length items = 0) then ZeroDivisionError else IndexError).
Proof.
  unfold _product. rewrite Nat.pow_0_r. cbn [seq Res.mapM Res.bind].
  unfold _product_yield, py_mod.
  destruct (decide (length items = 0)) as [Hz|Hnz]; [done|].
  cbn [Res.bind].
  rewrite Nat.Div0.mod_0_l.
  destruct items as [|x items]; [done|]. done.
Qed.
End EnumeratorMore.

Section ClockerMore.
Context `{board : Board}.
Local Open Scope list_scope.
Local Open Scope py_scope.

(** X3.  Called while no clock line is bound, the bit clocker raises
    [AttributeError] at once: no line is driven, nothing is sampled and
    the state is untouched. *)
Theorem _io_values_without_clock (pins : list (option PinId)) (states : list nat)
    (s : state) :
  TCK s = None -> _io_values pins states s = (Raise AttributeError, s).
Proof.
  intros Htck. unfold _io_values. unfold bind at 1, gets at 1.
  rewrite Htck. unfold bind at 1, pin_set at 1. done.
Qed.

(** X4.  Called with the clock bound but no TDO line, the bit clocker
    raises [AttributeError] only when it comes to sample: by then the
    outputs have been applied and the whole clock pulse driven. *)
Theorem _io_values_without_TDO (outs : list (PinId * nat)) (s : state) (tck : PinId) :
  TCK s = Some tck -> TDO s = None ->
  let louts := map (fun o => (o.1, py_truth o.2)) outs in
  _io_values (map (fun o => Some o.1) outs) (map snd outs) s =
  (Raise AttributeError,
   advance (cycle_world tck louts (world s)) (pulse_events tck louts) s).
Proof.
  intros Htck Htdo louts. destruct s as [tms tdi tck' tdo' w tr lg].
  simpl in Htck, Htdo. subst tck' tdo'.
  unfold _io_values. rewrite length_map.
  unfold bind at 1, gets at 1. cbn [TCK].
  unfold bind at 1, pin_set at 1, emit, set_world. cbn [TMS TDI TCK TDO world trace log].
  unfold bind at 1, pyb_delay at 1, modify, emit, set_world.
  cbn [TMS TDI TCK TDO world trace log].
  unfold bind at 1.
  pose proof (setup_loop_spec outs []) as Hloop. simpl in Hloop.
  rewrite Hloop. clear Hloop.
  cbv beta iota zeta delta
    [bind pyb_delay modify gets pin_set pin_get emit set_world
     TMS TDI TCK TDO world trace log].
  unfold advance, pulse_events, cycle_world. subst louts.
  cbn [TMS TDI TCK TDO world trace log].
  rewrite !map_map.
  repeat (rewrite <- app_assoc; cbn [app]). done.
Qed.
End ClockerMore.

Section ShifterMore.
Context `{board : Board}.
Local Open Scope list_scope.
Local Open Scope py_scope.

Lemma list_ascii_of_string_app (a b : string) :
  list_ascii_of_string (a ++ b)%string
  = list_ascii_of_string a ++ list_ascii_of_string b.
Proof. induction a as [|c a IH]; [done|]. simpl. by rewrite IH. Qed.

Lemma length_list_ascii (a : string) :
  length (list_ascii_of_string a) = String.length a.
Proof. induction a as [|c a IH]; [done|]. simpl. by rewrite IH. Qed.

Lemma length_levels (a : string) : length (levels a) = String.length a.
Proof. unfold levels. by rewrite length_map, length_list_ascii. Qed.

Lemma py_int_not_digit (c : ascii) :
  is_digit c = false -> py_int c = Raise ValueError.
Proof.
  unfold is_digit, py_int. intros Hc%bool_decide_eq_false.
  by destruct (decide (48 <= nat_of_ascii c <= 57)).
Qed.

Lemma mapM_stops {X} (f : X -> M bool) (g : X -> list (PinId * bool))
    (tck tdo : PinId) (l1 : list X) (x : X) (l2 : list X) (e : exn) (s0 : state) :
  (forall y s, y ∈ l1 -> same_lines s0 s ->
     f y s = (Ok (cycle_sample tck tdo (g y) (world s)),
              advance (cycle_world tck (g y) (world s))
                      (cycle_events tck tdo (g y) (world s)) s)) ->
  (forall s, same_lines s0 s -> f x s = (Raise e, s)) ->
  forall s, same_lines s0 s ->
    mapM f (l1 ++ x :: l2) s = (Raise e, (run_script tck tdo (map g l1) s).2).
Proof.
  intros Hok Hbad. induction l1 as [|y l1 IH]; intros s Hs.
  { cbn [app mapM]. unfold bind. rewrite Hbad by done.
    unfold run_script. cbn. by rewrite advance_nil. }
  cbn [app mapM]. unfold bind at 1.
  rewrite Hok by (done || apply list_elem_of_here).
  unfold bind at 1. rewrite IH; cycle 1.
  { intros z s' Hz Hs'. apply Hok; [by apply list_elem_of_further|done]. }
  { eapply same_lines_trans; [done|apply advance_same_lines]. }
  unfold run_script. cbn [map run_cycles world advance].
  destruct (run_cycles tck tdo (map g l1) (cycle_world tck (g y) (world s)))
    as [[bits evs] w'].
  cbn [fst snd]. by rewrite advance_advance.
Qed.

(** X5.  A character that is not a decimal digit stops [_io_tms] with
    the [ValueError] of [int]; the characters before it have been
    clocked out by then, one cycle each, and nothing after it is. *)
Theorem _io_tms_stops_at_bad_character (pre post : string) (c : ascii)
    (s : state) (tms tck tdo : PinId) :
  TMS s = Some tms -> TCK s = Some tck -> TDO s = Some tdo ->
  digits pre = true -> is_digit c = false ->
  _io_tms (pre ++ String c post) s =
  (Raise ValueError, (run_script tck tdo (tms_script tms (levels pre)) s).2).
Proof.
  intros Htms Htck Htdo Hd Hc. unfold _io_tms. unfold bind at 1.
  rewrite list_ascii_of_string_app. cbn [list_ascii_of_string].
  rewrite (mapM_stops _ (fun c => [(tms, level_of c)]) tck tdo _ _ _ ValueError s).
  - unfold tms_script, levels. by rewrite map_map.
  - intros y s' Hy (Htms' & _ & Htck' & Htdo').
    pose proof (digits_Forall _ Hd) as Hall.
    rewrite Forall_forall in Hall. specialize (Hall y Hy).
    unfold gets, lift. unfold bind at 1. unfold bind at 1.
    rewrite (py_int_digit y Hall).
    rewrite Htms', Htms.
    apply (_io_values_spec [(tms, nat_of_ascii y - 48)] s' tck tdo); congruence.
  - intros s' _. unfold bind, gets, lift. by rewrite (py_int_not_digit c Hc).
  - done.
Qed.

(** X6.  [_io_tms_tdi] clocks as many cycles as the shorter of its two
    strings has characters, and returns one character, 0 or 1, per
    cycle: what the longer string has beyond that is never driven. *)
Theorem _io_tms_tdi_truncates (tms_values tdi_values : string) (s : state)
    (tms tdi tck tdo : PinId) :
  TMS s = Some tms -> TDI s = Some tdi -> TCK s = Some tck -> TDO s = Some tdo ->
  digits tms_values = true -> digits tdi_values = true ->
  exists (r : string) (s' : state) (evs : list event),
    _io_tms_tdi tms_values tdi_values s = (Ok r, s')
    /\ trace s' = trace s ++ evs
    /\ r = bits_str (sampled evs)
    /\ String.length r
       = Nat.min (String.length tms_values) (String.length tdi_values).
Proof.
  intros Htms Htdi Htck Htdo Hd1 Hd2.
  rewrite (_io_tms_tdi_spec _ _ s tms tdi tck tdo) by done. cbv zeta.
  set (sc := tms_tdi_script tms tdi (zip (levels tms_values) (levels tdi_values))).
  destruct (run_script_trace tck tdo sc s) as (evs & Htr & Hsam).
  eexists _, _, evs. split; [reflexivity|]. split; [done|].
  split; [by rewrite Hsam|].
  rewrite bits_str_length, run_script_length. subst sc.
  unfold tms_tdi_script. rewrite length_map, length_zip_with, !length_levels. done.
Qed.

(** X7.  Shifting the empty string clocks nothing, with or without a
    TDI line: the result is the empty string and the state is as
    before. *)
Theorem _shift_array_of_nothing (s : state) (tms tck tdo : PinId) :
  TMS s = Some tms -> TCK s = Some tck -> TDO s = Some tdo ->
  _shift_array "" s = (Ok "", s).
Proof.
  intros Htms Htck Htdo.
  rewrite (_shift_array_spec _ s tms tck tdo) by done. cbv zeta.
  assert (shift_script tms (TDI s) "" = []) as -> by (by destruct (TDI s)).
  unfold run_script. cbn. by rewrite advance_nil.
Qed.
End ShifterMore.

Section TestsMore.
Context `{board : Board}.
Local Open Scope list_scope.
Local Open Scope py_scope.

Lemma sampled_app (a b : list event) : sampled (a ++ b) = sampled a ++ sampled b.
Proof. unfold sampled. apply omap_app. Qed.

Lemma length_py_str_mul_one (z : Z) :
  String.length (py_str_mul "0" z ++ "1") = Z.to_nat z + 1.
Proof.
  rewrite <- length_list_ascii, list_ascii_of_string_app, length_app. cbn [length list_ascii_of_string].
  f_equal. rewrite length_list_ascii.
  unfold py_str_mul. induction (Z.to_nat z) as [|m IH]; [done|].
  rewrite Nat.iter_succ.
  rewrite <- length_list_ascii, list_ascii_of_string_app, length_app.
  rewrite !length_list_ascii, IH. done.
Qed.

Lemma length_shift_script (tms : PinId) (tdi : option PinId) (data : string) :
  length (shift_script tms tdi data) = String.length data.
Proof.
  destruct tdi as [tdi|]; cbn [shift_script].
  - unfold tms_tdi_script. rewrite length_map, length_zip_with, !length_levels.
    rewrite length_py_str_mul_one. lia.
  - unfold tms_script. by rewrite length_map, length_levels.
Qed.

Lemma length_sampled_run (tck tdo : PinId) sc (w : World) :
  length (sampled (run_cycles tck tdo sc w).1.2) = length sc.
Proof. by rewrite run_cycles_sampled, run_cycles_length. Qed.

(** X8.  With its four lines bound, the BYPASS test clocks
    [50 + len(pattern)] cycles, one TDO sample each: 6 to reset, 4 into
    Shift-IR, 32 for the instruction, 3 back to idle, 3 into Shift-DR,
    one per pattern bit, and 2 to leave; it returns one character per
    pattern bit. *)
Theorem _bypass_test_clock_count (pattern : string) (s : state)
    (tms tdi tck tdo : PinId) :
  TMS s = Some tms -> TDI s = Some tdi -> TCK s = Some tck -> TDO s = Some tdo ->
  digits pattern = true ->
  exists (r : string) (s' : state) (evs : list event),
    _bypass_test pattern s = (Ok r, s')
    /\ trace s' = trace s ++ evs
    /\ length (sampled evs) = 50 + String.length pattern
    /\ String.length r = String.length pattern.
Proof.
  intros Htms Htdi Htck Htdo Hd.
  rewrite (_bypass_test_spec pattern s tms tdi tck tdo) by done. cbv zeta.
  eexists _, _, _. split; [reflexivity|].
  rewrite !run_script_events, <- !app_assoc.
  split; [reflexivity|].
  rewrite !sampled_app, !length_app, !length_sampled_run.
  rewrite bits_str_length, run_script_length, length_shift_script.
  split; [|done]. change (length (bypass_prefix tms tdi)) with 48.
  change (length (tms_script tms (levels "10"))) with 2. lia.
Qed.

(** X9.  With TMS, TCK and TDO bound, the IDCODE test clocks 44 cycles
    (6 to reset, 3 into Shift-DR, 32 of capture, 3 to leave) and returns
    a string of 32 characters, whether or not a TDI line is bound. *)
Theorem _idcode_test_clock_count (s : state) (tms tck tdo : PinId) :
  TMS s = Some tms -> TCK s = Some tck -> TDO s = Some tdo ->
  exists (r : string) (s' : state) (evs : list event),
    _idcode_test s = (Ok r, s')
    /\ trace s' = trace s ++ evs
    /\ length (sampled evs) = 44
    /\ String.length r = 32.
Proof.
  intros Htms Htck Htdo.
  rewrite (_idcode_test_spec s tms tck tdo) by done. cbv zeta.
  eexists _, _, _. split; [reflexivity|].
  rewrite !run_script_events, <- !app_assoc.
  split; [reflexivity|].
  rewrite !sampled_app, !length_app, !length_sampled_run.
  rewrite bits_str_length, length_rev, run_script_length, !length_shift_script.
  done.
Qed.

(** *** Boards that answer in a known way *)

Lemma bits_str_levels (data : string) :
  binary data = true -> bits_str (levels data) = data.
Proof.
  rewrite bits_str_string. unfold binary, levels.
  induction data as [|c data IH]; [done|].
  cbn [list_ascii_of_string forallb map string_of_list_ascii].
  intros [Hc Hrest]%andb_prop. rewrite IH by done. f_equal.
  apply bool_decide_eq_true in Hc as [->| ->]; done.
Qed.

Lemma binary_digits (data : string) : binary data = true -> digits data = true.
Proof.
  unfold binary, digits. induction (list_ascii_of_string data) as [|c l IH]; [done|].
  cbn [forallb]. intros [Hc Hrest]%andb_prop. rewrite IH by done.
  apply bool_decide_eq_true in Hc as [->| ->]; done.
Qed.

(** Samples of a script on a board that loops TDI back to TDO. *)
Lemma run_cycles_loopback (tms tdi tck tdo : PinId) :
  (forall w x y, cycle_sample tck tdo [(tms, x); (tdi, y)] w = y) ->
  forall (l : list (bool * bool)) (w : World),
    (run_cycles tck tdo (tms_tdi_script tms tdi l) w).1.1 = map snd l.
Proof.
  intros Hloop l. induction l as [|[x y] l IH]; intros w; [done|].
  cbn [tms_tdi_script map run_cycles fst snd]. fold (tms_tdi_script tms tdi l).
  specialize (IH (cycle_world tck [(tms, x); (tdi, y)] w)).
  destruct (run_cycles tck tdo (tms_tdi_script tms tdi l)
              (cycle_world tck [(tms, x); (tdi, y)] w)) as [[bits evs] w'].
  cbn [fst snd] in *. by rewrite Hloop, IH.
Qed.

(** Samples of a script on a board whose TDO line is stuck. *)
Lemma run_cycles_stuck (tck tdo : PinId) (v : bool) :
  (forall w, board_read tdo w = v) ->
  forall sc (w : World),
    (run_cycles tck tdo sc w).1.1 = replicate (length sc) v.
Proof.
  intros Hstuck sc. induction sc as [|outs sc IH]; intros w; [done|].
  cbn [run_cycles]. specialize (IH (cycle_world tck outs w)).
  destruct (run_cycles tck tdo sc (cycle_world tck outs w)) as [[bits evs] w'].
  cbn [fst snd length replicate] in *. unfold cycle_sample. by rewrite Hstuck, IH.
Qed.

Lemma run_script_bits (tck tdo : PinId) sc (s : state) :
  (run_script tck tdo sc s).1 = (run_cycles tck tdo sc (world s)).1.1.
Proof.
  unfold run_script. by destruct (run_cycles tck tdo sc (world s)) as [[??]?].
Qed.

(** X10.  Where the board returns on TDO, within the same clock cycle,
    the level driven on TDI, the generic shift with the four lines bound
    returns the very string of 0s and 1s it was given. *)
Theorem _shift_array_loopback (data : string) (s : state) (tms tdi tck tdo : PinId) :
  TMS s = Some tms -> TDI s = Some tdi -> TCK s = Some tck -> TDO s = Some tdo ->
  binary data = true ->
  (forall w x y, cycle_sample tck tdo [(tms, x); (tdi, y)] w = y) ->
  exists s', _shift_array data s = (Ok data, s').
Proof.
  intros Htms Htdi Htck Htdo Hbin Hloop.
  rewrite (_shift_array_spec data s tms tck tdo) by (done || by apply binary_digits).
  cbv zeta. rewrite Htdi. cbn [shift_script].
  eexists. f_equal. f_equal.
  rewrite run_script_bits, (run_cycles_loopback tms tdi tck tdo Hloop).
  rewrite snd_zip; [by apply bits_str_levels|].
  rewrite !length_levels, length_py_str_mul_one. lia.
Qed.

(** X11.  A candidate the port accepts, on a board that returns on
    its TDO pin the level driven on its TDI pin, is reported by the loop
    of [bypass_search], whatever its TMS and TCK pins are. *)
Theorem bypass_candidate_loopback_is_reported
    (s : state) (a b c d : PinId) (w1 w2 w3 w4 : World) :
  board_init a OUT_PP (world s) = Some w1 ->
  board_init b OUT_PP w1 = Some w2 ->
  board_init c OUT_PP w2 = Some w3 ->
  board_init d IN w3 = Some w4 ->
  (forall w x y, cycle_sample c d [(a, x); (b, y)] w = y) ->
  exists s_end,
    bypass_candidate [Some a; Some b; Some c; Some d] s = (Ok tt, s_end)
    /\ log s_end = log s ++ [bypass_entry [Some a; Some b; Some c; Some d]].
Proof.
  intros H1 H2 H3 H4 Hloop.
  rewrite (bypass_candidate_spec s a b c d w1 w2 w3 w4 H1 H2 H3 H4). cbv zeta.
  eexists. split; [reflexivity|].
  rewrite decide_True.
  - unfold add_log. cbn [log]. by rewrite !run_script_log.
  - cbn [shift_script].
    rewrite run_script_bits, (run_cycles_loopback a b c d Hloop).
    rewrite snd_zip; [by apply bits_str_levels|].
    rewrite !length_levels, length_py_str_mul_one. lia.
Qed.

(** X12.  A candidate the port accepts whose TDO pin reads the same
    level whatever is driven (a stuck or unconnected line) is never
    reported by the loop of [bypass_search]: the pattern has both 0s and
    1s. *)
Theorem bypass_candidate_stuck_is_skipped
    (s : state) (a b c d : PinId) (w1 w2 w3 w4 : World) (v : bool) :
  board_init a OUT_PP (world s) = Some w1 ->
  board_init b OUT_PP w1 = Some w2 ->
  board_init c OUT_PP w2 = Some w3 ->
  board_init d IN w3 = Some w4 ->
  (forall w, board_read d w = v) ->
  exists s_end,
    bypass_candidate [Some a; Some b; Some c; Some d] s = (Ok tt, s_end)
    /\ log s_end = log s.
Proof.
  intros H1 H2 H3 H4 Hstuck.
  rewrite (bypass_candidate_spec s a b c d w1 w2 w3 w4 H1 H2 H3 H4). cbv zeta.
  eexists. split; [reflexivity|].
  rewrite decide_False.
  - by rewrite !run_script_log.
  - rewrite run_script_bits, (run_cycles_stuck c d v Hstuck), length_shift_script.
    by destruct v.
Qed.

(** X13.  A candidate the port accepts whose TDO pin reads the same
    level whatever is driven is never reported by the loop of
    [idcode_search], whatever [TDI] holds. *)
Theorem idcode_candidate_stuck_is_skipped
    (s : state) (a c d : PinId) (w1 w2 w3 : World) (v : bool) :
  board_init a OUT_PP (world s) = Some w1 ->
  board_init c OUT_PP w1 = Some w2 ->
  board_init d IN w2 = Some w3 ->
  (forall w, board_read d w = v) ->
  exists s_end,
    idcode_candidate [Some a; Some c; Some d] s = (Ok tt, s_end)
    /\ log s_end = log s.
Proof.
  intros H1 H2 H3 Hstuck.
  rewrite (idcode_candidate_spec s a c d w1 w2 w3 H1 H2 H3). cbv zeta.
  eexists. split; [reflexivity|].
  rewrite decide_False.
  - by rewrite !run_script_log.
  - rewrite run_script_bits, (run_cycles_stuck c d v Hstuck), length_shift_script.
    destruct v; intros [Hn1 Hn0]; [by apply Hn1|by apply Hn0].
Qed.
End TestsMore.

Section ScanMore.
Context `{board : Board}.
Local Open Scope list_scope.
Local Open Scope py_scope.

Lemma touches_only_app (P : PinId -> Prop) (a b : list event) :
  touches_only P a -> touches_only P b -> touches_only P (a ++ b).
Proof. unfold touches_only. intros. by apply Forall_app. Qed.

Lemma touches_only_impl (P Q : PinId -> Prop) (evs : list event) :
  (forall p, P p -> Q p) -> touches_only P evs -> touches_only Q evs.
Proof.
  unfold touches_only. intros HPQ H. eapply Forall_impl; [exact H|].
  intros e He p Hp. eauto.
Qed.

Lemma run_cycles_touches (P : PinId -> Prop) (tck tdo : PinId) sc :
  P tck -> P tdo -> Forall (Forall (fun o => P o.1)) sc ->
  forall w, touches_only P (run_cycles tck tdo sc w).1.2.
Proof.
  intros Htck Htdo Hsc. induction Hsc as [|outs sc Houts _ IH]; intros w.
  { constructor. }
  cbn [run_cycles]. specialize (IH (cycle_world tck outs w)).
  destruct (run_cycles tck tdo sc (cycle_world tck outs w)) as [[bits evs] w'].
  cbn [fst snd] in *. apply touches_only_app; [|done].
  unfold cycle_events, touches_only. rewrite !Forall_app. split_and!.
  - repeat constructor; intros p [= <-] || intros p [=]; done.
  - apply Forall_fmap. eapply Forall_impl; [exact Houts|].
    intros o Ho p [= <-]. done.
  - repeat constructor; intros p [= <-] || intros p [=]; done.
Qed.

Lemma tms_script_pins (P : PinId -> Prop) (tms : PinId) (l : list bool) :
  P tms -> Forall (Forall (fun o : PinId * bool => P o.1)) (tms_script tms l).
Proof.
  intros Htms. unfold tms_script. apply Forall_fmap, Forall_forall.
  intros b _. cbn. by repeat constructor.
Qed.

Lemma tms_tdi_script_pins (P : PinId -> Prop) (tms tdi : PinId) l :
  P tms -> P tdi ->
  Forall (Forall (fun o : PinId * bool => P o.1)) (tms_tdi_script tms tdi l).
Proof.
  intros Htms Htdi. unfold tms_tdi_script. apply Forall_fmap, Forall_forall.
  intros b _. cbn. by repeat constructor.
Qed.

Lemma shift_script_pins (P : PinId -> Prop) (tms : PinId) (tdi : option PinId) data :
  P tms -> (forall t, tdi = Some t -> P t) ->
  Forall (Forall (fun o : PinId * bool => P o.1)) (shift_script tms tdi data).
Proof.
  intros Htms Htdi. destruct tdi as [t|]; cbn [shift_script].
  - apply tms_tdi_script_pins; eauto.
  - by apply tms_script_pins.
Qed.

Lemma bypass_prefix_pins (P : PinId -> Prop) (tms tdi : PinId) :
  P tms -> P tdi ->
  Forall (Forall (fun o : PinId * bool => P o.1)) (bypass_prefix tms tdi).
Proof.
  intros Htms Htdi. unfold bypass_prefix. rewrite !Forall_app.
  split_and!; (by apply tms_script_pins) || (by apply tms_tdi_script_pins).
Qed.

Lemma idcode_prefix_pins (P : PinId -> Prop) (tms : PinId) :
  P tms -> Forall (Forall (fun o : PinId * bool => P o.1)) (idcode_prefix tms).
Proof.
  intros Htms. unfold idcode_prefix. rewrite !Forall_app.
  split; by apply tms_script_pins.
Qed.

Lemma trace_bound_bypass (s : state) (a b c d : PinId) (w : World) :
  trace (bound_bypass a b c d w s) =
  trace s ++ [EvInit a OUT_PP; EvInit b OUT_PP; EvInit c OUT_PP; EvInit d IN].
Proof. done. Qed.

Lemma trace_bound_idcode (s : state) (a c d : PinId) (w : World) :
  trace (bound_idcode a c d w s) =
  trace s ++ [EvInit a OUT_PP; EvInit c OUT_PP; EvInit d IN].
Proof. done. Qed.

(** What one turn of the BYPASS loop does on a candidate the port
    accepts. *)
Lemma bypass_candidate_summary (s : state) (a b c d : PinId) (w1 w2 w3 w4 : World) :
  board_init a OUT_PP (world s) = Some w1 ->
  board_init b OUT_PP w1 = Some w2 ->
  board_init c OUT_PP w2 = Some w3 ->
  board_init d IN w3 = Some w4 ->
  let comb := [Some a; Some b; Some c; Some d] in
  exists (s' : state) (evs : list event),
    bypass_candidate comb s = (Ok tt, s')
    /\ trace s' = trace s ++ evs
    /\ touches_only (fun p => p ∈ [a; b; c; d]) evs
    /\ (log s' = log s \/ log s' = log s ++ [bypass_entry comb]).
Proof.
  intros H1 H2 H3 H4 comb. subst comb.
  rewrite (bypass_candidate_spec s a b c d w1 w2 w3 w4 H1 H2 H3 H4). cbv zeta.
  set (P := fun p : PinId => p ∈ [a; b; c; d]).
  assert (P a /\ P b /\ P c /\ P d) as (Pa & Pb & Pc & Pd).
  { unfold P. rewrite !elem_of_cons. tauto. }
  eexists _, _. split; [reflexivity|].
  assert (forall (x : log_record) (st : state) (g : bool),
             trace (if g then add_log x st else st) = trace st) as Htr
    by (by intros ?? []).
  split_and!.
  - case_decide.
    + unfold add_log. cbn [trace].
      rewrite !run_script_events, trace_bound_bypass, <- !app_assoc. reflexivity.
    + rewrite !run_script_events, trace_bound_bypass, <- !app_assoc. reflexivity.
  - apply touches_only_app; [|apply touches_only_app; [|apply touches_only_app]].
    + unfold touches_only. rewrite !Forall_cons.
      split_and!; try (by intros p [= <-]). apply Forall_nil_2.
    + apply run_cycles_touches; [done..|by apply bypass_prefix_pins].
    + apply run_cycles_touches; [done..|].
      apply shift_script_pins; [done|by intros t [= <-]].
    + apply run_cycles_touches; [done..|by apply tms_script_pins].
  - case_decide; [right|left].
    + unfold add_log. cbn [log]. by rewrite !run_script_log.
    + by rewrite !run_script_log.
Qed.
End ScanMore.

Section ScanOrder.
Context `{board : Board}.
Local Open Scope list_scope.
Local Open Scope py_scope.

(** What one turn of the IDCODE loop does on a candidate the port
    accepts. *)
Lemma idcode_candidate_summary (s : state) (a c d : PinId) (w1 w2 w3 : World) :
  board_init a OUT_PP (world s) = Some w1 ->
  board_init c OUT_PP w1 = Some w2 ->
  board_init d IN w2 = Some w3 ->
  let comb := [Some a; Some c; Some d] in
  exists (s' : state) (evs : list event),
    idcode_candidate comb s = (Ok tt, s')
    /\ TDI s' = TDI s
    /\ trace s' = trace s ++ evs
    /\ touches_only (fun p => p ∈ [a; c; d] \/ TDI s = Some p) evs
    /\ (log s' = log s
        \/ exists response, plausible_idcode response
                            /\ log s' = log s ++ [idcode_entry (comb, response)]).
Proof.
  intros H1 H2 H3 comb. subst comb.
  rewrite (idcode_candidate_spec s a c d w1 w2 w3 H1 H2 H3). cbv zeta.
  set (P := fun p : PinId => p ∈ [a; c; d] \/ TDI s = Some p).
  assert (P a /\ P c /\ P d) as (Pa & Pc & Pd).
  { unfold P. rewrite !elem_of_cons. tauto. }
  eexists _, _. split; [reflexivity|].
  split_and!.
  - case_decide; unfold add_log; cbn [TDI]; by rewrite !run_script_TDI.
  - case_decide.
    + unfold add_log. cbn [trace].
      rewrite !run_script_events, trace_bound_idcode, <- !app_assoc. reflexivity.
    + rewrite !run_script_events, trace_bound_idcode, <- !app_assoc. reflexivity.
  - apply touches_only_app; [|apply touches_only_app; [|apply touches_only_app]].
    + unfold touches_only. rewrite !Forall_cons.
      split_and!; try (by intros p [= <-]). apply Forall_nil_2.
    + apply run_cycles_touches; [done..|by apply idcode_prefix_pins].
    + apply run_cycles_touches; [done..|].
      apply shift_script_pins; [done|]. intros t Ht. by right.
    + apply run_cycles_touches; [done..|by apply tms_script_pins].
  - match goal with |- context [ArgStr ?r] => set (resp := r) end.
    assert (String.length resp = 32) as Hlen.
    { subst resp.
      rewrite bits_str_length, length_rev, run_script_length, length_shift_script.
      done. }
    case_decide as Hresp; [right|left].
    + exists resp. split; [by split|].
      unfold add_log. cbn [log]. by rewrite !run_script_log.
    + by rewrite !run_script_log.
Qed.

Lemma bypass_loop_summary (pool : list PinId) :
  (forall p m w, p ∈ pool -> is_Some (board_init p m w)) ->
  forall (l : list (list (option PinId))) (s : state),
    Forall (fun t => exists a b c d,
              t = [Some a; Some b; Some c; Some d]
              /\ a ∈ pool /\ b ∈ pool /\ c ∈ pool /\ d ∈ pool) l ->
    exists (s' : state) (reported : list (list (option PinId))) (evs : list event),
      for_each l bypass_candidate s = (Ok tt, s')
      /\ reported `sublist_of` l
      /\ log s' = log s ++ map bypass_entry reported
      /\ trace s' = trace s ++ evs
      /\ touches_only (fun p => p ∈ pool) evs.
Proof.
  intros Hacc l. induction l as [|t l IH]; intros s Hl.
  { exists s, [], []. rewrite !app_nil_r. split_and!; try done. constructor. }
  apply Forall_cons in Hl as [(a & b & c & d & -> & Ha & Hb & Hc & Hd) Hl].
  destruct (Hacc a OUT_PP (world s) Ha) as [w1 H1].
  destruct (Hacc b OUT_PP w1 Hb) as [w2 H2].
  destruct (Hacc c OUT_PP w2 Hc) as [w3 H3].
  destruct (Hacc d IN w3 Hd) as [w4 H4].
  destruct (bypass_candidate_summary s a b c d w1 w2 w3 w4 H1 H2 H3 H4)
    as (s1 & evs1 & Hbody & Htr1 & Hpins1 & Hlog1).
  destruct (IH s1 Hl) as (s' & reported & evs & Hrun & Hsub & Hlog & Htr & Hpins).
  assert (touches_only (fun p => p ∈ pool) evs1) as Hpins1'.
  { eapply touches_only_impl; [|exact Hpins1]. intros p.
    rewrite !elem_of_cons, elem_of_nil. intros [->|[->|[->|[->|[]]]]]; done. }
  destruct Hlog1 as [Hlog1|Hlog1].
  - exists s', reported, (evs1 ++ evs). split_and!.
    + cbn [for_each]. unfold bind. by rewrite Hbody.
    + by apply sublist_cons.
    + by rewrite Hlog, Hlog1.
    + by rewrite Htr, Htr1, app_assoc.
    + by apply touches_only_app.
  - exists s', ([Some a; Some b; Some c; Some d] :: reported), (evs1 ++ evs).
    split_and!.
    + cbn [for_each]. unfold bind. by rewrite Hbody.
    + by apply sublist_skip.
    + rewrite Hlog, Hlog1, <- app_assoc. done.
    + by rewrite Htr, Htr1, app_assoc.
    + by apply touches_only_app.
Qed.

Lemma idcode_loop_summary (pool : list PinId) :
  (forall p m w, p ∈ pool -> is_Some (board_init p m w)) ->
  forall (l : list (list (option PinId))) (s : state),
    Forall (fun t => exists a c d,
              t = [Some a; Some c; Some d] /\ a ∈ pool /\ c ∈ pool /\ d ∈ pool) l ->
    exists (s' : state) (reported : list (list (option PinId) * string))
           (evs : list event),
      for_each l idcode_candidate s = (Ok tt, s')
      /\ map fst reported `sublist_of` l
      /\ Forall (fun r => plausible_idcode r.2) reported
      /\ log s' = log s ++ map idcode_entry reported
      /\ trace s' = trace s ++ evs
      /\ touches_only (fun p => p ∈ pool \/ TDI s = Some p) evs.
Proof.
  intros Hacc l. induction l as [|t l IH]; intros s Hl.
  { exists s, [], []. rewrite !app_nil_r. split_and!; try done; constructor. }
  apply Forall_cons in Hl as [(a & c & d & -> & Ha & Hc & Hd) Hl].
  destruct (Hacc a OUT_PP (world s) Ha) as [w1 H1].
  destruct (Hacc c OUT_PP w1 Hc) as [w2 H2].
  destruct (Hacc d IN w2 Hd) as [w3 H3].
  destruct (idcode_candidate_summary s a c d w1 w2 w3 H1 H2 H3)
    as (s1 & evs1 & Hbody & Htdi1 & Htr1 & Hpins1 & Hlog1).
  destruct (IH s1 Hl) as (s' & reported & evs & Hrun & Hsub & Hgood & Hlog & Htr & Hpins).
  rewrite Htdi1 in Hpins.
  assert (touches_only (fun p => p ∈ pool \/ TDI s = Some p) evs1) as Hpins1'.
  { eapply touches_only_impl; [|exact Hpins1]. intros p. cbv beta.
    intros [Hin|Hp]; [left|by right].
    revert Hin. rewrite !elem_of_cons, elem_of_nil.
    intros [->|[->|[->|[]]]]; done. }
  destruct Hlog1 as [Hlog1|(response & Hresp & Hlog1)].
  - exists s', reported, (evs1 ++ evs). split_and!.
    + cbn [for_each]. unfold bind. by rewrite Hbody.
    + by apply sublist_cons.
    + done.
    + by rewrite Hlog, Hlog1.
    + by rewrite Htr, Htr1, app_assoc.
    + by apply touches_only_app.
  - exists s', (([Some a; Some c; Some d], response) :: reported), (evs1 ++ evs).
    split_and!.
    + cbn [for_each]. unfold bind. by rewrite Hbody.
    + cbn [map fst]. by apply sublist_skip.
    + by constructor.
    + rewrite Hlog, Hlog1, <- app_assoc. done.
    + by rewrite Htr, Htr1, app_assoc.
    + by apply touches_only_app.
Qed.

(** X14.  When the port accepts every pin of the pool, [bypass_search]
    returns normally, and what it has added to the log is the entries
    of some of its candidates, each at most as often as it is
    enumerated, in the order of the enumeration. *)
Theorem bypass_search_reports_in_order (pool : list PinId) (s : state) :
  (forall p m w, p ∈ pool -> is_Some (board_init p m w)) ->
  exists (s' : state) (filtered reported : list (list (option PinId))),
    candidates pool JTAG_PINS_BYPASS_COUNT = Ok filtered
    /\ bypass_search pool s = (Ok tt, s')
    /\ reported `sublist_of` filtered
    /\ log s' = log s ++ map bypass_entry reported.
Proof.
  intros Hacc.
  pose proof (candidates_NoDup pool 4 ltac:(lia)) as Hcand.
  destruct (bypass_loop_summary pool Hacc _ s (candidates_shape _ _ Hcand))
    as (s' & reported & evs & Hrun & Hsub & Hlog & _).
  eexists s', _, reported. split; [exact Hcand|].
  split; [|done].
  unfold bypass_search, bind, lift. unfold JTAG_PINS_BYPASS_COUNT. by rewrite Hcand.
Qed.

(** X15.  When the port accepts every pin of the pool, [idcode_search]
    returns normally, and what it has added to the log is, in the order
    of the enumeration, entries of some of its candidates, each with a
    response of 32 characters that is neither all 1 nor all 0. *)
Theorem idcode_search_reports_plausible_in_order (pool : list PinId) (s : state) :
  (forall p m w, p ∈ pool -> is_Some (board_init p m w)) ->
  exists (s' : state) (filtered : list (list (option PinId)))
         (reported : list (list (option PinId) * string)),
    candidates pool JTAG_PINS_IDCODE_COUNT = Ok filtered
    /\ idcode_search pool s = (Ok tt, s')
    /\ map fst reported `sublist_of` filtered
    /\ Forall (fun r => plausible_idcode r.2) reported
    /\ log s' = log s ++ map idcode_entry reported.
Proof.
  intros Hacc.
  pose proof (candidates_NoDup pool 3 ltac:(lia)) as Hcand.
  destruct (idcode_loop_summary pool Hacc _ s (candidates_shape3 _ _ Hcand))
    as (s' & reported & evs & Hrun & Hsub & Hgood & Hlog & _).
  eexists s', _, reported. split; [exact Hcand|].
  split; [|done].
  unfold idcode_search, bind, lift. unfold JTAG_PINS_IDCODE_COUNT. by rewrite Hcand.
Qed.

(** X16.  When the port accepts every pin of the pool, every pin that
    [bypass_search] configures, drives or reads is a pin of the pool,
    whatever the globals held before. *)
Theorem bypass_search_stays_in_pool (pool : list PinId) (s : state) :
  (forall p m w, p ∈ pool -> is_Some (board_init p m w)) ->
  exists (s' : state) (evs : list event),
    bypass_search pool s = (Ok tt, s')
    /\ trace s' = trace s ++ evs
    /\ touches_only (fun p => p ∈ pool) evs.
Proof.
  intros Hacc.
  pose proof (candidates_NoDup pool 4 ltac:(lia)) as Hcand.
  destruct (bypass_loop_summary pool Hacc _ s (candidates_shape _ _ Hcand))
    as (s' & reported & evs & Hrun & _ & _ & Htr & Hpins).
  exists s', evs. split; [|done].
  unfold bypass_search, bind, lift. unfold JTAG_PINS_BYPASS_COUNT. by rewrite Hcand.
Qed.

(** X17.  When the port accepts every pin of the pool, every pin that
    [idcode_search] configures, drives or reads is a pin of the pool or
    the pin that [TDI] was bound to on entry. *)
Theorem idcode_search_stays_in_pool_or_TDI (pool : list PinId) (s : state) :
  (forall p m w, p ∈ pool -> is_Some (board_init p m w)) ->
  exists (s' : state) (evs : list event),
    idcode_search pool s = (Ok tt, s')
    /\ trace s' = trace s ++ evs
    /\ touches_only (fun p => p ∈ pool \/ TDI s = Some p) evs.
Proof.
  intros Hacc.
  pose proof (candidates_NoDup pool 3 ltac:(lia)) as Hcand.
  destruct (idcode_loop_summary pool Hacc _ s (candidates_shape3 _ _ Hcand))
    as (s' & reported & evs & Hrun & _ & _ & _ & Htr & Hpins).
  exists s', evs. split; [|done].
  unfold idcode_search, bind, lift. unfold JTAG_PINS_IDCODE_COUNT. by rewrite Hcand.
Qed.
End ScanOrder.

(** * Properties of the log sink *)

Section StylizationFacts.
Import Runtime Stylization.

Lemma style_fold_ok (items : list string) : forall acc,
  Forall (fun item => is_Some (_style_dict !! item)) items ->
  exists r, afoldM (fun st_string style_item =>
                      abind (dict_getitem _style_dict style_item) (fun code =>
                      Returned (String.concat "" [st_string; code])))
                   acc items = Returned r.
Proof.
  induction items as [|item items IH]; intros acc Hall; [by eexists|].
  apply Forall_cons in Hall as [[code Hcode] Hall].
  cbn [afoldM]. unfold dict_getitem at 1. rewrite Hcode. cbn [abind].
  apply IH, Hall.
Qed.

Lemma style_fold_ok_inv (items : list string) : forall acc r,
  afoldM (fun st_string style_item =>
            abind (dict_getitem _style_dict style_item) (fun code =>
            Returned (String.concat "" [st_string; code])))
         acc items = Returned r ->
  Forall (fun item => is_Some (_style_dict !! item)) items.
Proof.
  induction items as [|item items IH]; intros acc r Hr; [constructor|].
  cbn [afoldM] in Hr. unfold dict_getitem at 1 in Hr.
  destruct (_style_dict !! item) as [code|] eqn:Hcode; [|done].
  cbn [abind] in Hr. constructor; [by eexists|]. by eapply IH.
Qed.

(** X18.  [_names2ascii] returns exactly when the foreground name is
    [None] or a key of [_fg_dict], the background name is [None] or a key
    of [_bg_dict], and the style name is [None] or splits at its spaces
    into keys of [_style_dict]; otherwise it raises. *)
Theorem _names2ascii_returns_iff (fg stylename bg : option string) :
  (exists r, _names2ascii fg stylename bg = Returned r)
  <-> known _fg_dict fg
      /\ known _bg_dict bg
      /\ (forall sn, stylename = Some sn ->
            Forall (fun item => is_Some (_style_dict !! item)) (py_split " " sn)).
Proof.
  unfold _names2ascii, known. split.
  - intros [r Hr].
    destruct fg as [kf|]; [unfold dict_getitem at 1 in Hr|].
    1: destruct (_fg_dict !! kf) as [cf|] eqn:Hf; [|done].
    all: cbn [abind] in Hr.
    all: destruct bg as [kb|]; [unfold dict_getitem at 1 in Hr|].
    1,3: destruct (_bg_dict !! kb) as [cb|] eqn:Hb; [|done].
    all: cbn [abind] in Hr.
    all: split_and!; try (intros k [= <-]; by eexists); try done.
    all: intros sn ->; cbv zeta in Hr.
    all: match type of Hr with
         | abind ?m _ = _ => destruct m as [st|] eqn:Hst; [|done]
         end.
    all: by eapply style_fold_ok_inv.
  - intros (Hfg & Hbg & Hst).
    assert (exists cf, match fg with
                       | Some k => dict_getitem _fg_dict k
                       | None => Returned ""
                       end = Returned cf) as [cf ->].
    { destruct fg as [k|]; [|by eexists].
      destruct (Hfg k eq_refl) as [c Hc]. unfold dict_getitem. rewrite Hc. by eexists. }
    assert (exists cb, match bg with
                       | Some k => dict_getitem _bg_dict k
                       | None => Returned ""
                       end = Returned cb) as [cb ->].
    { destruct bg as [k|]; [|by eexists].
      destruct (Hbg k eq_refl) as [c Hc]. unfold dict_getitem. rewrite Hc. by eexists. }
    cbn [abind]. destruct stylename as [sn|]; [|by eexists].
    cbv zeta. destruct (style_fold_ok (py_split " " sn) "" (Hst sn eq_refl)) as [r ->].
    by eexists.
Qed.

(** X19.  The names are looked up in the order foreground, background,
    style: an unknown foreground name is the [KeyError] raised whatever
    the other two are, and an unknown background name is, once the
    foreground name is good, whatever the style name is. *)
Theorem _names2ascii_error_order (fg stylename bg : option string) (k : string) :
  (fg = Some k -> _fg_dict !! k = None ->
   _names2ascii fg stylename bg = Raised (KeyError k))
  /\ (known _fg_dict fg -> bg = Some k -> _bg_dict !! k = None ->
      _names2ascii fg stylename bg = Raised (KeyError k)).
Proof.
  unfold _names2ascii, known. split.
  - intros -> Hk. unfold dict_getitem at 1. by rewrite Hk.
  - intros Hfg -> Hk.
    assert (exists cf, match fg with
                       | Some k => dict_getitem _fg_dict k
                       | None => Returned ""
                       end = Returned cf) as [cf ->].
    { destruct fg as [k'|]; [|by eexists].
      destruct (Hfg k' eq_refl) as [c Hc]. unfold dict_getitem. rewrite Hc. by eexists. }
    cbn [abind]. unfold dict_getitem at 1. by rewrite Hk.
Qed.
End StylizationFacts.

Section StyleOrder.
Import Runtime Stylization.

Lemma py_split_spaceless (a : string) : spaceless a -> py_split " " a = [a].
Proof.
  unfold spaceless. induction a as [|c a IH]; [done|].
  cbn [list_ascii_of_string py_split]. intros [Hc Ha]%Forall_cons.
  destruct (decide (c = " "%char)); [done|]. by rewrite IH.
Qed.

Lemma py_split_spaceless_app (a rest : string) :
  spaceless a ->
  py_split " " (a +:+ String " " rest) = a :: py_split " " rest.
Proof.
  unfold spaceless. induction a as [|c a IH].
  - intros _. cbn. done.
  - cbn [list_ascii_of_string]. intros [Hc Ha]%Forall_cons.
    change (String c a +:+ String " " rest) with (String c (a +:+ String " " rest)).
    cbn [py_split]. destruct (decide (c = " "%char)); [done|]. by rewrite IH.
Qed.

(** Joining with single spaces and splitting at spaces are inverse on
    names that have no space. *)
Lemma py_split_join (names : list string) :
  names <> [] -> Forall spaceless names ->
  py_split " " (String.concat " " names) = names.
Proof.
  induction names as [|n names IH]; [done|]. intros _ [Hn Hnames]%Forall_cons.
  destruct names as [|n' names].
  - cbn [String.concat]. by apply py_split_spaceless.
  - change (String.concat " " (n :: n' :: names))
      with (n +:+ String " " (String.concat " " (n' :: names))).
    rewrite py_split_spaceless_app by done. by rewrite IH.
Qed.

Lemma _style_dict_keys_spaceless (n c : string) :
  _style_dict !! n = Some c -> spaceless n.
Proof.
  unfold _style_dict. cbn [list_to_map foldr uncurry].
  rewrite !lookup_insert, lookup_empty.
  repeat case_decide; subst; try done; intros _; unfold spaceless;
    cbn [list_ascii_of_string]; repeat constructor; done.
Qed.

Lemma str_app_nil_r (s : string) : s +:+ "" = s.
Proof.
  induction s as [|x s IH]; [done|].
  change (String x s +:+ "") with (String x (s +:+ "")). by rewrite IH.
Qed.

Lemma str_app_assoc (a b c : string) : (a +:+ b) +:+ c = a +:+ (b +:+ c).
Proof.
  induction a as [|x a IH]; [done|].
  change ((String x a +:+ b) +:+ c) with (String x ((a +:+ b) +:+ c)).
  by rewrite IH.
Qed.

Lemma style_fold_codes (names codes : list string) : forall acc,
  Forall2 (fun n c => _style_dict !! n = Some c) names codes ->
  afoldM (fun st_string style_item =>
            abind (dict_getitem _style_dict style_item) (fun code =>
            Returned (String.concat "" [st_string; code])))
         acc names = Returned (acc +:+ String.concat "" codes).
Proof.
  intros acc H. revert acc.
  induction H as [|n c names codes Hn _ IH]; intros acc.
  { cbn [afoldM String.concat]. by rewrite str_app_nil_r. }
  cbn [afoldM]. unfold dict_getitem at 1. rewrite Hn. cbn [abind].
  rewrite IH. f_equal.
  change (String.concat "" [acc; c]) with (acc +:+ c).
  destruct codes as [|c' codes].
  - cbn [String.concat]. by rewrite str_app_nil_r.
  - change (String.concat "" (c :: c' :: codes))
      with (c +:+ String.concat "" (c' :: codes)).
    by rewrite str_app_assoc.
Qed.

(** X20.  For a foreground key, a background key and one or more style
    keys joined by single spaces, [_names2ascii] returns the codes of
    the styles in the order given, then the foreground code, then the
    background code. *)
Theorem _names2ascii_styles_then_fg_then_bg
    (fg bg cf cb : string) (names codes : list string) :
  names <> [] ->
  Forall2 (fun n c => _style_dict !! n = Some c) names codes ->
  _fg_dict !! fg = Some cf -> _bg_dict !! bg = Some cb ->
  _names2ascii (Some fg) (Some (String.concat " " names)) (Some bg)
  = Returned (String.concat "" codes +:+ cf +:+ cb).
Proof.
  intros Hne Hnames Hfg Hbg. unfold _names2ascii.
  unfold dict_getitem at 1. rewrite Hfg. cbn [abind].
  unfold dict_getitem at 1. rewrite Hbg. cbn [abind]. cbv zeta.
  rewrite py_split_join; [|done|].
  - rewrite (style_fold_codes names codes "" Hnames). cbn [abind]. done.
  - clear -Hnames. induction Hnames as [|n c names codes Hn _ IH]; constructor.
    + by eapply _style_dict_keys_spaceless.
    + done.
Qed.
End StyleOrder.

Section LoggingFacts.
Import Runtime Stylization Logging.
Local Open Scope Z_scope.
Local Open Scope io_scope.
Context {Arg : Type} (py_percent : string -> list Arg -> answer string).

Lemma bind_Returned {A B} (m : IO A) (f : A -> IO B) (w w' : world) (a : A) :
  m w = (Returned a, w') -> bind m f w = f a w'.
Proof. intros H. unfold bind. by rewrite H. Qed.

Lemma bind_Raised {A B} (m : IO A) (f : A -> IO B) (w w' : world) (e : Runtime.error) :
  m w = (Raised e, w') -> bind m f w = (Raised e, w').
Proof. intros H. unfold bind. by rewrite H. Qed.

Lemma deref_ok (self : nat) (lg : logger) (w : world) :
  heap w !! self = Some lg -> deref self w = (Returned lg, w).
Proof. intros H. unfold deref. by rewrite H. Qed.

Lemma get_logger_spec (name : option string) (w : world) :
  exists (l : nat) (w1 : world),
    get_logger name w = (Returned l, w1)
    /\ _loggers w1 !! name = Some l
    /\ _level w1 = _level w /\ _stream w1 = _stream w
    /\ _colorize_enable w1 = _colorize_enable w
    /\ written w1 = written w
    /\ (forall r lg, heap w !! r = Some lg -> heap w1 !! r = Some lg)
    /\ (registry_ok w -> registry_ok w1).
Proof.
  unfold get_logger, bind, gets.
  destruct (_loggers w !! name) as [l|] eqn:Hreg.
  - exists l, w. unfold ret. by split_and!.
  - unfold Logger, set_heap. cbn [heap _loggers _level _stream _colorize_enable written].
    eexists _, _. split; [reflexivity|].
    cbn [heap _loggers _level _stream _colorize_enable written].
    rewrite lookup_insert_eq. split_and!; try done.
    + intros r lg Hr. by apply lookup_app_l_Some.
    + unfold registry_ok.
      cbn [heap _loggers _level _stream _colorize_enable written].
      intros Hok name' l' Hl'.
      destruct (decide (name = name')) as [<-|Hne].
      * rewrite lookup_insert_eq in Hl'. injection Hl' as <-.
        exists (mkLogger name NOTSET). split; [|reflexivity].
        by rewrite lookup_app_r, Nat.sub_diag.
      * rewrite lookup_insert_ne in Hl' by done.
        destruct (Hok name' l' Hl') as (lg & Hlg & Hname).
        exists lg. split; [by apply lookup_app_l_Some|done].
Qed.

Lemma get_logger_registered (name : option string) (l : nat) (w : world) :
  _loggers w !! name = Some l -> get_logger name w = (Returned l, w).
Proof. intros H. unfold get_logger, bind, gets, ret. by rewrite H. Qed.


(** X22.  A level set through one reference to a registered logger is
    the level a later [get_logger] of the same name sees: the loggers
    are shared objects.  A level of 0 ([NOTSET]) hands the decision to
    the module level. *)
Theorem set_level_is_shared (name : option string) (v level : Z) (w : world) :
  registry_ok w ->
  exists w',
    (l <- get_logger name ;;
     set_level l v ;;;
     l' <- get_logger name ;;
     is_enabled_for l' level) w
    = (Returned (bool_decide ((if decide (v = 0) then _level w else v) <= level)), w').
Proof.
  intros Hok.
  destruct (get_logger_spec name w)
    as (l & w1 & Hget & Hreg & Hlv & _ & _ & _ & _ & Hok1).
  specialize (Hok1 Hok).
  destruct (Hok1 name l Hreg) as (lg & Hlg & Hname).
  eexists. rewrite (bind_Returned _ _ _ _ _ Hget).
  unfold set_level at 1.
  rewrite (bind_Returned (bind (deref l) _) _ w1
             (set_heap (<[l := mkLogger (logger_name lg) v]> (heap w1)) w1) tt).
  2:{ by rewrite (bind_Returned _ _ _ _ _ (deref_ok _ _ _ Hlg)). }
  assert (get_logger name (set_heap (<[l:=mkLogger (logger_name lg) v]> (heap w1)) w1)
          = (Returned l, set_heap (<[l:=mkLogger (logger_name lg) v]> (heap w1)) w1))
    as Hget2.
  { by apply get_logger_registered. }
  rewrite (bind_Returned _ _ _ _ _ Hget2).
  unfold is_enabled_for.
  erewrite (bind_Returned (deref l)); cycle 1.
  { apply deref_ok. cbn [set_heap heap].
    apply list_lookup_insert_eq. by eapply lookup_lt_Some. }
  unfold bind, gets, ret. cbn [set_heap _level logger_level].
  unfold py_or. by rewrite Hlv.
Qed.
End LoggingFacts.

Section LogCalls.
Import Runtime Stylization Logging.
Local Open Scope Z_scope.
Local Open Scope io_scope.
Context {Arg : Type} (py_percent : string -> list Arg -> answer string).

Lemma wrote_nil (w : world) : wrote [] w = w.
Proof. destruct w. unfold wrote. cbn. by rewrite app_nil_r. Qed.

Lemma wrote_wrote (a b : list (stream * string)) (w : world) :
  wrote b (wrote a w) = wrote (a ++ b) w.
Proof. unfold wrote. cbn. by rewrite app_assoc. Qed.

Lemma write_wrote (st : stream) (text : string) (w : world) :
  write st text w = (Returned tt, wrote [(st, text)] w).
Proof. done. Qed.

(** What [Logger.log] does, by cases. *)
Lemma log_spec (self : nat) (lg : logger) (level : Z) (msg : string)
    (args : list Arg) (w : world) :
  heap w !! self = Some lg ->
  log py_percent self level msg args w =
  if decide (py_or (logger_level lg) (_level w) <= level) then
    match (if args is [] then Returned msg else py_percent msg args) with
    | Returned text =>
        (Returned tt, wrote [(_stream w, log_line level (logger_name lg) text)] w)
    | Raised e => (Raised e, w)
    end
  else (Returned tt, w).
Proof.
  intros Hlg. unfold log.
  rewrite (bind_Returned _ _ _ _ _ (deref_ok _ _ _ Hlg)).
  unfold bind at 1, gets at 1.
  destruct (decide (py_or (logger_level lg) (_level w) <= level)); [|done].
  unfold bind at 1, lift at 1.
  destruct (if args is [] then Returned msg else py_percent msg args); [|done].
  unfold bind, gets. by rewrite write_wrote.
Qed.

(** X23.  [is_enabled_for] tells what [log] will do with a record of
    that level: when it answers [False], [log] returns without writing
    and without formatting the message, so that no mistake in the
    arguments can raise; when it answers [True], [log] formats (only if
    there are arguments) and writes one line, [LEVEL:name:text] and a
    newline, to the current stream, or raises what the formatting raises
    and writes nothing. *)
Theorem is_enabled_for_tells_log (self : nat) (lg : logger) (level : Z)
    (msg : string) (args : list Arg) (w : world) :
  heap w !! self = Some lg ->
  exists enabled : bool,
    is_enabled_for self level w = (Returned enabled, w)
    /\ (enabled = false -> log py_percent self level msg args w = (Returned tt, w))
    /\ (enabled = true ->
        forall text,
          (if args is [] then Returned msg else py_percent msg args) = Returned text ->
          log py_percent self level msg args w =
          (Returned tt, wrote [(_stream w, log_line level (logger_name lg) text)] w))
    /\ (enabled = true ->
        forall e,
          (if args is [] then Returned msg else py_percent msg args) = Raised e ->
          log py_percent self level msg args w = (Raised e, w)).
Proof.
  intros Hlg.
  exists (bool_decide (py_or (logger_level lg) (_level w) <= level)).
  split.
  { unfold is_enabled_for. rewrite (bind_Returned _ _ _ _ _ (deref_ok _ _ _ Hlg)).
    done. }
  rewrite (log_spec self lg level msg args w Hlg).
  split_and!.
  - intros Hen%bool_decide_eq_false. by rewrite decide_False.
  - intros Hen%bool_decide_eq_true text Htext. by rewrite decide_True, Htext.
  - intros Hen%bool_decide_eq_true e He. by rewrite decide_True, He.
Qed.

Lemma style_func_stream_spec {A} (st : stream) (fg stylename bg : option string)
    (func : IO A) (code : string) (w w1 : world) (r : answer A) :
  _names2ascii fg stylename bg = Returned code ->
  func (wrote [(st, code)] w) = (r, w1) ->
  style_func_stream st fg stylename bg func w =
  match r with
  | Returned _ => (Returned tt, wrote [(st, esc "[0m")] w1)
  | Raised e => (Raised e, w1)
  end.
Proof.
  intros Hcode Hfunc. unfold style_func_stream.
  unfold bind at 1, lift at 1. rewrite Hcode.
  unfold bind at 1. rewrite write_wrote.
  unfold bind at 1. rewrite Hfunc. by destruct r.
Qed.

Lemma _colorize_spec (fg stylename bg : option string) (func : IO unit)
    (code : string) (w w1 : world) (r : answer unit) :
  _names2ascii fg stylename bg = Returned code ->
  func (if _colorize_enable w then wrote [(_stream w, code)] w else w) = (r, w1) ->
  _colorize fg stylename bg func w =
  match r with
  | Returned _ =>
      (Returned tt,
       if _colorize_enable w then wrote [(_stream w, esc "[0m")] w1 else w1)
  | Raised e => (Raised e, w1)
  end.
Proof.
  intros Hcode Hfunc. unfold _colorize. unfold bind at 1, gets at 1.
  destruct (_colorize_enable w).
  - unfold bind at 1, gets at 1.
    by rewrite (style_func_stream_spec _ _ _ _ _ _ _ _ _ Hcode Hfunc).
  - unfold bind. rewrite Hfunc. by destruct r.
Qed.

(** X24.  A decorated logging call ([debug], [info], [warning],
    [error], [critical] are [_colorize] around [log]) whose record
    passes the threshold, with colouring on: three writes to the current
    stream, the codes of the decorator's names, the line, the reset
    code; put together they are [style_string] of the line with those
    names. *)
Theorem colorized_call_writes_styled_line (self : nat) (lg : logger) (level : Z)
    (msg text : string) (args : list Arg) (fg stylename bg : option string)
    (code : string) (w : world) :
  heap w !! self = Some lg ->
  _colorize_enable w = true ->
  py_or (logger_level lg) (_level w) <= level ->
  (if args is [] then Returned msg else py_percent msg args) = Returned text ->
  _names2ascii fg stylename bg = Returned code ->
  let line := log_line level (logger_name lg) text in
  _colorize fg stylename bg (log py_percent self level msg args) w =
  (Returned tt,
   wrote [(_stream w, code); (_stream w, line); (_stream w, esc "[0m")] w)
  /\ style_string line fg stylename bg = Returned (code +:+ line +:+ esc "[0m").
Proof.
  intros Hlg Hcol Hlv Htext Hcode line. split.
  - erewrite (_colorize_spec fg stylename bg _ code w); [|done|].
    2:{ rewrite Hcol. rewrite (log_spec self lg level msg args (wrote _ w) Hlg).
        cbn [wrote _level _stream]. rewrite decide_True by done.
        rewrite Htext. reflexivity. }
    cbv beta iota. rewrite Hcol, !wrote_wrote. done.
  - unfold style_string. rewrite Hcode. done.
Qed.

(** X25.  A decorated logging call whose record is below the
    threshold: with colouring on, the codes of the decorator's names and
    the reset code are written all the same, with nothing in between;
    with colouring off, nothing is written. *)
Theorem filtered_call_still_writes_codes (self : nat) (lg : logger) (level : Z)
    (msg : string) (args : list Arg) (fg stylename bg : option string)
    (code : string) (w : world) :
  heap w !! self = Some lg ->
  level < py_or (logger_level lg) (_level w) ->
  _names2ascii fg stylename bg = Returned code ->
  _colorize fg stylename bg (log py_percent self level msg args) w =
  (Returned tt,
   if _colorize_enable w
   then wrote [(_stream w, code); (_stream w, esc "[0m")] w
   else w).
Proof.
  intros Hlg Hlv Hcode.
  erewrite (_colorize_spec fg stylename bg _ code w); [|done|].
  2:{ rewrite (log_spec self lg level msg args _); [|by destruct (_colorize_enable w)].
      rewrite decide_False; [reflexivity|]. by destruct (_colorize_enable w); cbn; lia. }
  cbv beta iota. destruct (_colorize_enable w); [|done]. by rewrite wrote_wrote.
Qed.

(** X26.  When the formatting of an enabled record raises inside a
    decorated call with colouring on, the exception leaves the call
    after the codes of the decorator's names have been written and
    before the reset code is: the stream is left in that style. *)
Theorem format_error_leaves_style_on (self : nat) (lg : logger) (level : Z)
    (msg : string) (args : list Arg) (fg stylename bg : option string)
    (code : string) (e : Runtime.error) (w : world) :
  heap w !! self = Some lg ->
  _colorize_enable w = true ->
  py_or (logger_level lg) (_level w) <= level ->
  (if args is [] then Returned msg else py_percent msg args) = Raised e ->
  _names2ascii fg stylename bg = Returned code ->
  _colorize fg stylename bg (log py_percent self level msg args) w =
  (Raised e, wrote [(_stream w, code)] w).
Proof.
  intros Hlg Hcol Hlv Htext Hcode.
  erewrite (_colorize_spec fg stylename bg _ code w); [|done|].
  2:{ rewrite Hcol. rewrite (log_spec self lg level msg args (wrote _ w) Hlg).
      cbn [wrote _level _stream]. rewrite decide_True by done.
      rewrite Htext. reflexivity. }
  done.
Qed.

(** X27.  [basic_config] assigns before it checks, so a call that
    raises has taken effect all the same: with a file name it raises
    [ValueError] having set the level and the colouring switch (the
    stream is not touched); with a format and no file name it raises
    having set the level, the colouring switch and the stream, if one
    was given and its truth value is true.  A logger without a level
    of its own answers to the new level from then on. *)
Theorem basic_config_raises_after_assigning (py_bool : stream -> world -> bool)
    (self : nat) (lg : logger)
    (lv level : Z) (fname fmt : string) (stream : option stream)
    (format : option string) (colorize : bool) (w : world) :
  heap w !! self = Some lg ->
  logger_level lg = NOTSET ->
  exists w1 w2 : world,
    basic_config py_bool lv (Some fname) stream format colorize w
    = (Raised (ValueError "filename argument is not supported on this platform."), w1)
    /\ _stream w1 = _stream w
    /\ _colorize_enable w1 = colorize
    /\ is_enabled_for self level w1 = (Returned (bool_decide (lv <= level)), w1)
    /\ basic_config py_bool lv None stream (Some fmt) colorize w
       = (Raised (ValueError "format argument is not supported on this platform."), w2)
    /\ _stream w2 = match stream with
                    | Some st => if py_bool st w1 then st else _stream w
                    | None => _stream w
                    end
    /\ _colorize_enable w2 = colorize
    /\ is_enabled_for self level w2 = (Returned (bool_decide (lv <= level)), w2).
Proof.
  intros Hlg Hnot.
  assert (forall w', heap w' = heap w -> _level w' = lv ->
            is_enabled_for self level w' = (Returned (bool_decide (lv <= level)), w'))
    as Hen.
  { intros w' Hheap Hlevel. unfold is_enabled_for.
    erewrite (bind_Returned (deref self)); [|apply deref_ok; by rewrite Hheap].
    unfold bind, gets, ret. rewrite Hnot, Hlevel.
    by replace (py_or NOTSET lv) with lv by done. }
  set (w1 := mkWorld lv (_stream w) colorize (_loggers w) (heap w) (written w)).
  exists w1,
         (mkWorld lv (match stream with
                      | Some st => if py_bool st w1 then st else _stream w
                      | None => _stream w
                      end) colorize (_loggers w) (heap w) (written w)).
  split; [done|]. split; [done|]. split; [done|]. split; [by apply Hen|].
  split.
  { unfold basic_config, bind, gets, raise, ret. fold w1.
    destruct stream as [st|]; [|done]. by destruct (py_bool st w1). }
  split; [done|]. split; [done|]. by apply Hen.
Qed.

(** X28.  After [basic_config(level, stream=st, colorize=False)] a
    logger without a level of its own answers to the new module level,
    and the stream in use is [st] only if the truth value of [st] is
    true; otherwise it is the stream that was in use before.  The
    logger's [info] writes its line to that stream, without colour
    codes, exactly when [level] is at most [INFO]. *)
Theorem basic_config_then_log (py_bool : stream -> world -> bool)
    (self : nat) (lg : logger) (lv : Z)
    (st : stream) (msg : string) (w : world) :
  heap w !! self = Some lg ->
  logger_level lg = NOTSET ->
  (basic_config py_bool lv None (Some st) None false ;;;
   info py_percent self msg []) w =
  (Returned tt,
   let w0 := mkWorld lv (_stream w) false (_loggers w) (heap w) (written w) in
   let st' := if py_bool st w0 then st else _stream w in
   let w1 := mkWorld lv st' false (_loggers w) (heap w) (written w) in
   if decide (lv <= INFO)
   then wrote [(st', log_line INFO (logger_name lg) msg)] w1
   else w1).
Proof.
  intros Hlg Hnot. cbv zeta.
  set (w0 := mkWorld lv (_stream w) false (_loggers w) (heap w) (written w)).
  set (st' := if py_bool st w0 then st else _stream w).
  set (w1 := mkWorld lv st' false (_loggers w) (heap w) (written w)).
  assert (basic_config py_bool lv None (Some st) None false w = (Returned tt, w1))
    as Hcfg.
  { unfold basic_config, bind, gets, ret. fold w0. subst w1 st'.
    by destruct (py_bool st w0). }
  erewrite (bind_Returned (basic_config py_bool lv None (Some st) None false));
    [|exact Hcfg].
  unfold info.
  destruct (decide (lv <= INFO)) as [Hle|Hgt].
  - erewrite (_colorize_spec (Some "blue") None None _ _ _); [|reflexivity|].
    2:{ cbn [_colorize_enable w1].
        erewrite (log_spec self lg INFO msg []); [|exact Hlg]. rewrite Hnot.
        cbn [_level _stream w1]. replace (py_or NOTSET lv) with lv by done.
        rewrite decide_True by done. reflexivity. }
    done.
  - erewrite (_colorize_spec (Some "blue") None None _ _ _); [|reflexivity|].
    2:{ cbn [_colorize_enable w1].
        erewrite (log_spec self lg INFO msg []); [|exact Hlg]. rewrite Hnot.
        cbn [_level _stream w1]. replace (py_or NOTSET lv) with lv by done.
        rewrite decide_False by done. reflexivity. }
    done.
Qed.

(** X29.  The module-level [info], when no logger is registered under
    [None] yet, registers one and logs through it: with the module
    level at [INFO] or below and colouring on, the current stream
    receives the code of blue, the line [INFO:None:msg] and the reset
    code. *)
Theorem module_info_logs_as_None (msg : string) (w : world) :
  _loggers w !! None = None ->
  _level w <= INFO ->
  _colorize_enable w = true ->
  module_info py_percent msg [] w =
  (Returned tt,
   wrote [(_stream w, esc "[34m");
          (_stream w, "INFO:None:" +:+ msg +:+ String "010"%char "");
          (_stream w, esc "[0m")]
         (mkWorld (_level w) (_stream w) (_colorize_enable w)
                  (<[None := length (heap w)]> (_loggers w))
                  (heap w ++ [mkLogger None NOTSET]) (written w))).
Proof.
  intros Hreg Hlv Hcol. unfold module_info.
  erewrite (bind_Returned (get_logger None)); cycle 1.
  { unfold get_logger, bind, gets. rewrite Hreg. reflexivity. }
  unfold info.
  erewrite (_colorize_spec (Some "blue") None None _ _ _); [|reflexivity|].
  2:{ cbn [_colorize_enable set_heap heap _level _stream _loggers written].
      rewrite Hcol.
      erewrite (log_spec (length (heap w)) (mkLogger None NOTSET) INFO msg []).
      2:{ cbn [wrote heap]. by rewrite lookup_app_r, Nat.sub_diag. }
      cbn [wrote _level _stream logger_level logger_name].
      replace (py_or NOTSET (_level w)) with (_level w) by done.
      rewrite decide_True by done. reflexivity. }
  cbn [_colorize_enable set_heap heap _level _stream _loggers written].
  rewrite Hcol. unfold wrote.
  cbn [_colorize_enable set_heap heap _level _stream _loggers written].
  rewrite <- !app_assoc. done.
Qed.

(** X30.  The level tag identifies the level: two levels with the same
    tag are the same level. *)
Theorem _level_str_inj (a b : Z) : _level_str a = _level_str b -> a = b.
Proof.
  unfold _level_str, _level_dict. cbn [list_to_map foldr uncurry].
  rewrite !lookup_insert, !lookup_empty.
  unfold CRITICAL, ERROR, WARNING, INFO, DEBUG.
  repeat case_decide; subst; try done.
  all: try (intros Heq; apply (inj (String.app "LVL")) in Heq;
            by apply (inj pretty) in Heq).
Qed.
End LogCalls.

(** * The further properties at work *)

Lemma _product_of_three_items :
  1 <= 2 /\ exists tuples, _product [0; 1; 2] 2 = Ok tuples /\ length tuples = 9.
Proof.
  split; [lia|].
  destruct (_product_yields_all_tuples [0; 1; 2] 2) as (tuples & Hp & Hlen & _); [lia|].
  exists tuples. split; [exact Hp|exact Hlen].
Defined.

Lemma _io_values_without_clock_on_rig :
  _io_values (board := Rig.board) [Some 0] [1] Rig.power_on
  = (Raise AttributeError, Rig.power_on).
Proof.
  exact (_io_values_without_clock (board := Rig.board) [Some 0] [1] Rig.power_on eq_refl).
Defined.

Lemma _io_values_without_TDO_on_rig :
  exists s',
    _io_values (board := Rig.board) [Some 0] [1] Rig.no_TDO = (Raise AttributeError, s')
    /\ length (trace s') = 8.
Proof.
  eexists. split.
  - exact (_io_values_without_TDO (board := Rig.board) [(0, 1)] Rig.no_TDO 2
             eq_refl eq_refl).
  - reflexivity.
Defined.

Lemma _io_tms_stops_at_bad_character_on_rig :
  exists s', _io_tms (board := Rig.board) "10x1" Rig.bound = (Raise ValueError, s').
Proof.
  eexists.
  exact (_io_tms_stops_at_bad_character (board := Rig.board) "10" "1" "x" Rig.bound 0 2 3
           eq_refl eq_refl eq_refl eq_refl eq_refl).
Defined.

Lemma _io_tms_tdi_truncates_on_rig :
  exists r s',
    _io_tms_tdi (board := Rig.board) "1100" "10" Rig.bound = (Ok r, s')
    /\ String.length r = 2.
Proof.
  destruct (_io_tms_tdi_truncates (board := Rig.board) "1100" "10" Rig.bound 0 1 2 3
              eq_refl eq_refl eq_refl eq_refl eq_refl eq_refl)
    as (r & s' & evs & Hrun & _ & _ & Hlen).
  exists r, s'. split; [exact Hrun|exact Hlen].
Defined.

Lemma _shift_array_of_nothing_on_rig :
  _shift_array (board := Rig.board) "" Rig.bound = (Ok "", Rig.bound).
Proof.
  exact (_shift_array_of_nothing (board := Rig.board) Rig.bound 0 2 3
           eq_refl eq_refl eq_refl).
Defined.

Lemma _bypass_test_clock_count_on_rig :
  exists r s' evs,
    _bypass_test (board := Rig.board) "0110" Rig.bound = (Ok r, s')
    /\ trace s' = evs
    /\ length (sampled evs) = 54.
Proof.
  destruct (_bypass_test_clock_count (board := Rig.board) "0110" Rig.bound 0 1 2 3
              eq_refl eq_refl eq_refl eq_refl eq_refl)
    as (r & s' & evs & Hrun & Htr & Hlen & _).
  exists r, s', evs. split; [exact Hrun|]. split; [exact Htr|exact Hlen].
Defined.

Lemma _idcode_test_clock_count_on_rig :
  exists r s',
    _idcode_test (board := Rig.board) Rig.bound = (Ok r, s') /\ String.length r = 32.
Proof.
  destruct (_idcode_test_clock_count (board := Rig.board) Rig.bound 0 2 3
              eq_refl eq_refl eq_refl)
    as (r & s' & evs & Hrun & _ & _ & Hlen).
  exists r, s'. split; [exact Hrun|exact Hlen].
Defined.

Lemma _shift_array_loopback_on_rig :
  exists s', _shift_array (board := Rig.board) "0110" Rig.bound = (Ok "0110", s').
Proof.
  apply (_shift_array_loopback (board := Rig.board) "0110" Rig.bound 0 1 2 3
           eq_refl eq_refl eq_refl eq_refl eq_refl).
  intros w x y. reflexivity.
Defined.

Lemma bypass_candidate_loopback_on_rig :
  exists s_end,
    bypass_candidate (board := Rig.board) [Some 0; Some 1; Some 2; Some 3] Rig.power_on
    = (Ok tt, s_end)
    /\ log s_end = [bypass_entry (board := Rig.board) [Some 0; Some 1; Some 2; Some 3]].
Proof.
  apply (bypass_candidate_loopback_is_reported (board := Rig.board) Rig.power_on 0 1 2 3
           _ _ _ _ eq_refl eq_refl eq_refl eq_refl).
  intros w x y. reflexivity.
Defined.

Lemma bypass_candidate_stuck_on_rig :
  exists s_end,
    bypass_candidate (board := Rig.board) [Some 0; Some 1; Some 3; Some 2] Rig.power_on
    = (Ok tt, s_end)
    /\ log s_end = [].
Proof.
  apply (bypass_candidate_stuck_is_skipped (board := Rig.board) Rig.power_on 0 1 3 2
           _ _ _ _ false eq_refl eq_refl eq_refl eq_refl).
  intros w. reflexivity.
Defined.

Lemma idcode_candidate_stuck_on_rig :
  exists s_end,
    idcode_candidate (board := Rig.board) [Some 0; Some 1; Some 2] Rig.power_on
    = (Ok tt, s_end)
    /\ log s_end = [].
Proof.
  apply (idcode_candidate_stuck_is_skipped (board := Rig.board) Rig.power_on 0 1 2
           _ _ _ false eq_refl eq_refl eq_refl).
  intros w. reflexivity.
Defined.

Lemma bypass_search_reports_in_order_on_rig :
  exists s' filtered reported,
    candidates (board := Rig.board) [0; 1; 2; 3] JTAG_PINS_BYPASS_COUNT = Ok filtered
    /\ bypass_search (board := Rig.board) [0; 1; 2; 3] Rig.power_on = (Ok tt, s')
    /\ reported `sublist_of` filtered
    /\ log s' = map (bypass_entry (board := Rig.board)) reported.
Proof.
  apply (bypass_search_reports_in_order (board := Rig.board) [0; 1; 2; 3] Rig.power_on).
  intros p m w _. exists w. reflexivity.
Defined.

Lemma idcode_search_reports_plausible_on_rig :
  exists s' reported,
    idcode_search (board := Rig.board) [0; 1; 2; 3] Rig.power_on = (Ok tt, s')
    /\ Forall (fun r => plausible_idcode r.2) reported
    /\ log s' = map (idcode_entry (board := Rig.board)) reported.
Proof.
  destruct (idcode_search_reports_plausible_in_order (board := Rig.board)
              [0; 1; 2; 3] Rig.power_on)
    as (s' & filtered & reported & _ & Hrun & _ & Hall & Hlog).
  - intros p m w _. exists w. reflexivity.
  - exists s', reported. split; [exact Hrun|]. split; [exact Hall|exact Hlog].
Defined.

Lemma bypass_search_stays_in_pool_on_rig :
  exists s' evs,
    bypass_search (board := Rig.board) [0; 1; 2; 3] Rig.power_on = (Ok tt, s')
    /\ trace s' = evs
    /\ touches_only (board := Rig.board) (fun p => p ∈ [0; 1; 2; 3]) evs.
Proof.
  apply (bypass_search_stays_in_pool (board := Rig.board) [0; 1; 2; 3] Rig.power_on).
  intros p m w _. exists w. reflexivity.
Defined.

Lemma idcode_search_stays_in_pool_on_rig :
  exists s' evs,
    idcode_search (board := Rig.board) [4; 5; 6] Rig.bound = (Ok tt, s')
    /\ trace s' = evs
    /\ touches_only (board := Rig.board)
         (fun p => p ∈ [4; 5; 6] \/ Some 1 = Some p) evs.
Proof.
  apply (idcode_search_stays_in_pool_or_TDI (board := Rig.board) [4; 5; 6] Rig.bound).
  intros p m w _. exists w. reflexivity.
Defined.

Lemma _names2ascii_unknown_names :
  Stylization._names2ascii (Some "teal") (Some "bold") (Some "black")
  = Runtime.Raised (Runtime.KeyError "teal")
  /\ Stylization._names2ascii (Some "red") (Some "bold") (Some "pink")
     = Runtime.Raised (Runtime.KeyError "pink").
Proof.
  split.
  - apply (proj1 (_names2ascii_error_order (Some "teal") (Some "bold") (Some "black")
                    "teal")); reflexivity.
  - apply (proj2 (_names2ascii_error_order (Some "red") (Some "bold") (Some "pink")
                    "pink")); [|reflexivity|reflexivity].
    intros k [= <-]. eexists. reflexivity.
Defined.

Lemma _names2ascii_bold_underline_red_on_black :
  exists c1 c2 cf cb,
    Stylization._names2ascii (Some "red") (Some "bold underline") (Some "black")
    = Runtime.Returned (String.concat "" [c1; c2] +:+ cf +:+ cb)
    /\ Stylization._style_dict !! "bold" = Some c1
    /\ Stylization._style_dict !! "underline" = Some c2.
Proof.
  eexists _, _, _, _. split_and!; [|reflexivity|reflexivity].
  apply (_names2ascii_styles_then_fg_then_bg "red" "black" _ _
           ["bold"; "underline"] [_; _]).
  - discriminate.
  - constructor; [reflexivity|]. constructor; [reflexivity|]. constructor.
  - reflexivity.
  - reflexivity.
Defined.

Lemma set_level_is_shared_on_import :
  exists w',
    (Runtime.bind (Logging.get_logger (Some "app")) (fun l =>
     Runtime.bind (Logging.set_level l Logging.DEBUG) (fun _ =>
     Runtime.bind (Logging.get_logger (Some "app")) (fun l' =>
     Logging.is_enabled_for l' Logging.DEBUG)))) Logging.imported
    = (Runtime.Returned true, w').
Proof.
  apply (set_level_is_shared (Some "app") Logging.DEBUG Logging.DEBUG Logging.imported).
  intros name l Hl. cbn in Hl. rewrite lookup_empty in Hl. discriminate Hl.
Defined.

Lemma is_enabled_for_tells_log_on_one_logger :
  Logging.is_enabled_for 0 Logging.DEBUG one_logger = (Runtime.Returned false, one_logger)
  /\ Logging.log percent_refused 0 Logging.DEBUG "%d" [tt] one_logger
     = (Runtime.Returned tt, one_logger).
Proof.
  destruct (is_enabled_for_tells_log percent_refused 0
              (Runtime.mkLogger (Some "app") Logging.NOTSET) Logging.DEBUG "%d" [tt]
              one_logger eq_refl)
    as (enabled & Hen & Hoff & _).
  assert (enabled = false) as Heq.
  { apply (f_equal fst) in Hen. vm_compute in Hen. by injection Hen as <-. }
  split; [by rewrite Hen, Heq|by apply Hoff].
Defined.

Lemma colorized_call_on_one_logger :
  exists code line,
    Logging.warning percent_refused 0 "low battery" [] one_logger
    = (Runtime.Returned tt,
       wrote [(Runtime.stderr, code); (Runtime.stderr, line);
              (Runtime.stderr, Stylization.esc "[0m")] one_logger)
    /\ Stylization.style_string line (Some "yellow") None None
       = Runtime.Returned (code +:+ line +:+ Stylization.esc "[0m").
Proof.
  eexists _, _.
  apply (colorized_call_writes_styled_line percent_refused 0
           (Runtime.mkLogger (Some "app") Logging.NOTSET) Logging.WARNING
           "low battery" "low battery" [] (Some "yellow") None None _ one_logger
           eq_refl eq_refl).
  - vm_compute. discriminate.
  - reflexivity.
  - reflexivity.
Defined.

Lemma filtered_call_on_one_logger :
  exists code,
    Logging.debug percent_refused 0 "tick" [] one_logger
    = (Runtime.Returned tt,
       wrote [(Runtime.stderr, code); (Runtime.stderr, Stylization.esc "[0m")]
             one_logger).
Proof.
  eexists.
  apply (filtered_call_still_writes_codes percent_refused 0
           (Runtime.mkLogger (Some "app") Logging.NOTSET) Logging.DEBUG
           "tick" [] (Some "green") None None _ one_logger eq_refl).
  - reflexivity.
  - reflexivity.
Defined.

Lemma format_error_on_one_logger :
  exists code,
    Logging.error percent_refused 0 "%d" [tt] one_logger
    = (Runtime.Raised Runtime.TypeError,
       wrote [(Runtime.stderr, code)] one_logger).
Proof.
  eexists.
  apply (format_error_leaves_style_on percent_refused 0
           (Runtime.mkLogger (Some "app") Logging.NOTSET) Logging.ERROR
           "%d" [tt] (Some "red") None None _ Runtime.TypeError one_logger
           eq_refl eq_refl).
  - vm_compute. discriminate.
  - reflexivity.
  - reflexivity.
Defined.

Lemma _level_str_inj_at_15 :
  Logging._level_str 15 = Logging._level_str (10 + 5) /\ (15 = 10 + 5)%Z.
Proof.
  split; [reflexivity|]. apply (_level_str_inj 15 (10 + 5)). reflexivity.
Defined.

Lemma basic_config_then_log_on_one_logger :
  (Runtime.bind
     (Logging.basic_config buffer_truth Logging.DEBUG None (Some Runtime.stdout) None false)
     (fun _ => Logging.info percent_refused 0 "up" [])) one_logger
  = (Runtime.Returned tt,
     wrote [(Runtime.stdout, log_line Logging.INFO (Some "app") "up")]
           (Runtime.mkWorld Logging.DEBUG Runtime.stdout false
              (Runtime._loggers one_logger) (Runtime.heap one_logger) []))
  /\ (Runtime.bind
        (Logging.basic_config buffer_truth Logging.DEBUG None
           (Some (Runtime.stream_object 7)) None false)
        (fun _ => Logging.info percent_refused 0 "up" [])) one_logger
     = (Runtime.Returned tt,
        wrote [(Runtime.stderr, log_line Logging.INFO (Some "app") "up")]
              (Runtime.mkWorld Logging.DEBUG Runtime.stderr false
                 (Runtime._loggers one_logger) (Runtime.heap one_logger) [])).
Proof.
  split.
  - exact (basic_config_then_log percent_refused buffer_truth 0
             (Runtime.mkLogger (Some "app") Logging.NOTSET) Logging.DEBUG
             Runtime.stdout "up" one_logger eq_refl eq_refl).
  - exact (basic_config_then_log percent_refused buffer_truth 0
             (Runtime.mkLogger (Some "app") Logging.NOTSET) Logging.DEBUG
             (Runtime.stream_object 7) "up" one_logger eq_refl eq_refl).
Defined.

Lemma module_info_on_import :
  exists w',
    Logging.module_info percent_refused "up" [] Logging.imported
    = (Runtime.Returned tt, w')
    /\ Logging.text_on Runtime.stderr (Runtime.written w')
       = Stylization.esc "[34m" +:+ "INFO:None:up" +:+ String "010"%char ""
         +:+ Stylization.esc "[0m".
Proof.
  eexists. split.
  - apply (module_info_logs_as_None percent_refused "up" Logging.imported eq_refl).
    + vm_compute. discriminate.
    + reflexivity.
  - reflexivity.
Defined.

Lemma basic_config_raises_on_one_logger :
  exists w1 w2,
    Logging.basic_config buffer_truth Logging.DEBUG (Some "log.txt")
      (Some (Runtime.stream_object 7)) None false one_logger
    = (Runtime.Raised
         (Runtime.ValueError "filename argument is not supported on this platform."),
       w1)
    /\ Logging.is_enabled_for 0 Logging.DEBUG w1 = (Runtime.Returned true, w1)
    /\ Logging.basic_config buffer_truth Logging.DEBUG None
         (Some (Runtime.stream_object 7)) (Some "%s") false one_logger
       = (Runtime.Raised
            (Runtime.ValueError "format argument is not supported on this platform."),
          w2)
    /\ Runtime._stream w2 = Runtime.stderr.
Proof.
  destruct (basic_config_raises_after_assigning buffer_truth 0
              (Runtime.mkLogger (Some "app") Logging.NOTSET)
              Logging.DEBUG Logging.DEBUG "log.txt" "%s"
              (Some (Runtime.stream_object 7)) None false one_logger
              eq_refl eq_refl)
    as (w1 & w2 & Hrun & _ & _ & Hen & Hrun2 & Hst & _).
  exists w1, w2. split; [exact Hrun|]. split; [exact Hen|]. split; [exact Hrun2|].
  rewrite Hst. apply (f_equal snd) in Hrun. cbn in Hrun. subst w1. reflexivity.
Defined.
